(** * Template sanitizer: a shallow embedding of [sanitize-template.py]

    The development follows the source file top to bottom:
    - Python string helpers used by the script ([in], [lower], [title],
      [replace]);
    - [pathlib] paths and [os.path.relpath];
    - the configuration record;
    - the parsed document (a tree of tags with ordered attribute
      dictionaries) and the [bs4] queries the script performs on it;
    - the sanitizer object: report, counters, set of downloaded assets,
      together with the file system and the trace of external effects;
    - the methods of [TemplateSanitizer], one definition per method, and a
      small instance of the libraries to run them on examples;
    - the vocabulary of the properties, the lemmas, and the properties
      of the script, C1 to C10, followed by their instances on the
      examples;
    - further properties of the methods, X1 to X23, with their lemmas:
      paths, eligibility of URLs, the passes over the document, backups,
      the console and the report, and the files a run touches. *)

From Stdlib Require Import Ascii String.
From stdpp Require Import base option list gmap strings sorting pretty.

Local Open Scope string_scope.
Local Open Scope list_scope.
Set Warnings "-register-all,-clear-no-such-hyp".

(** ** Python [str] helpers

    Python strings are modelled by [string]; the case conversions act on the
    ASCII letters. *)
Module PyStr.

Definition is_upper (c : ascii) : bool :=
  let n := nat_of_ascii c in (65 <=? n)%nat && (n <=? 90)%nat.

Definition is_lower (c : ascii) : bool :=
  let n := nat_of_ascii c in (97 <=? n)%nat && (n <=? 122)%nat.

Definition is_cased (c : ascii) : bool := is_upper c || is_lower c.

Definition to_lower (c : ascii) : ascii :=
  if is_upper c then ascii_of_nat (nat_of_ascii c + 32) else c.

Definition to_upper (c : ascii) : ascii :=
  if is_lower c then ascii_of_nat (nat_of_ascii c - 32) else c.

(** [s.lower()] *)
Fixpoint lower (s : string) : string :=
  match s with
  | EmptyString => EmptyString
  | String c r => String (to_lower c) (lower r)
  end.

(** [s.title()]: a letter is upper-cased when the character before it is
    not a letter and lower-cased otherwise. *)
Fixpoint title_from (previous_is_cased : bool) (s : string) : string :=
  match s with
  | EmptyString => EmptyString
  | String c r =>
      String (if previous_is_cased then to_lower c else to_upper c)
             (title_from (is_cased c) r)
  end.

Definition title (s : string) : string := title_from false s.

(** [needle in hay] *)
Fixpoint contains (needle hay : string) : bool :=
  String.prefix needle hay ||
  match hay with
  | EmptyString => false
  | String _ r => contains needle r
  end.

(** [s.replace(old, new)] for a non-empty [old]: the matches are taken
    from left to right and do not overlap. [skip] counts the characters of
    the current match that are still to be dropped. *)
Fixpoint replace_from (old new : string) (skip : nat) (s : string) : string :=
  match s with
  | EmptyString => EmptyString
  | String c r =>
      match skip with
      | S k => replace_from old new k r
      | O =>
          if String.prefix old s
          then new +:+ replace_from old new (String.length old - 1) r
          else String c (replace_from old new 0 r)
      end
  end.

Definition replace (old new s : string) : string := replace_from old new 0 s.

(** [sep.join(l)] *)
Fixpoint join (sep : string) (l : list string) : string :=
  match l with
  | [] => ""
  | [x] => x
  | x :: r => x +:+ sep +:+ join sep r
  end.

End PyStr.

(** ** Exceptions

    A call either returns a value or raises; every exception the script
    meets is an [Exception], carried here by its message. *)
Inductive Result (A : Type) : Type :=
| Ok (a : A)
| Raise (e : string).
Arguments Ok {A} a.
Arguments Raise {A} e.

(** ** Paths *)

(** The path flavour of the platform and the working directory of the
    process. [normcase] is [os.path.normcase]. *)
Class Platform := {
  sep : string;
  normcase : string -> string;
  cwd_drive : string;
  cwd_parts : list string
}.

(** A [pathlib.Path]: [anchor] is [None] for a relative path and the drive
    for an absolute one (the empty drive on POSIX); [parts] are the
    components after the anchor. *)
Record Path := MkPath {
  anchor : option string;
  parts : list string
}.

Section Paths.
Context `{Platform}.

(** [str(p)] *)
Definition path_str (p : Path) : string :=
  match anchor p with
  | Some d => d +:+ sep +:+ PyStr.join sep (parts p)
  | None => match parts p with [] => "." | _ => PyStr.join sep (parts p) end
  end.

(** [p.parent] *)
Definition parent (p : Path) : Path :=
  MkPath (anchor p) (removelast (parts p)).

(** [p.name] *)
Definition name (p : Path) : string := List.last (parts p) "".

(** [p / filename] for a one-component relative [filename] *)
Definition joinpath (p : Path) (filename : string) : Path :=
  MkPath (anchor p) (parts p ++ [filename]).

(** The component loop of [os.path.normpath] on an absolute path:
    [acc] is the stack of components kept so far, most recent first. *)
Fixpoint normparts (acc : list string) (comps : list string) : list string :=
  match comps with
  | [] => rev acc
  | c :: r =>
      if decide (c = "" ∨ c = ".") then normparts acc r
      else if decide (c = "..") then normparts (tail acc) r
      else normparts (c :: acc) r
  end.

(** [os.path.abspath(p)] as drive and component list *)
Definition abspath (p : Path) : string * list string :=
  match anchor p with
  | Some d => (d, normparts [] (parts p))
  | None => (cwd_drive, normparts [] (cwd_parts ++ parts p))
  end.

(** Length of the common prefix of the two component lists, compared
    through [normcase]. *)
Fixpoint common_len (l1 l2 : list string) : nat :=
  match l1, l2 with
  | e1 :: r1, e2 :: r2 =>
      if decide (normcase e1 = normcase e2) then S (common_len r1 r2) else 0
  | _, _ => 0
  end.

(** [os.path.relpath(path, start)]; [None] is the [ValueError] raised
    when the two paths are on different drives. *)
Definition relpath (path start : Path) : option string :=
  let '(start_drive, start_list) := abspath start in
  let '(path_drive, path_list) := abspath path in
  if decide (normcase start_drive = normcase path_drive) then
    let i := common_len start_list path_list in
    let rel_list := replicate (length start_list - i) ".." ++ drop i path_list in
    match rel_list with
    | [] => Some "."
    | _ => Some (PyStr.join sep rel_list)
    end
  else None.

(** [TemplateSanitizer.get_relative_path] *)
Definition get_relative_path (from_file to_file : Path) : string :=
  match relpath to_file (parent from_file) with
  | Some r => r
  | None => path_str to_file
  end.

End Paths.

(** The two flavours. *)
Definition posix (cwd : list string) : Platform :=
  {| sep := "/"; normcase := fun s => s; cwd_drive := ""; cwd_parts := cwd |}.

Definition windows (drive : string) (cwd : list string) : Platform :=
  {| sep := "\";
     normcase := fun s => PyStr.replace "/" "\" (PyStr.lower s);
     cwd_drive := drive; cwd_parts := cwd |}.

(** ** Configuration

    The loaded YAML document, with the keys the script reads. *)
Record Config := {
  files_patterns : list string;
  files_exclude : list string;
  output_backup : bool;
  output_backup_suffix : string;
  output_verbose : bool;
  output_report : bool;
  output_report_file : string;
  assets_download_external : bool;
  assets_vendor_domains : list string;
  assets_local_path : Path;
  remove_elements : list (string * option string);
  personal_name : string;
  personal_title : string;
  personal_description : string;
  pages_contact_title : string;
  pages_contact_description : string;
  pages_case_studies_title_template : string;
  pages_case_studies_description_template : string;
  attribute_replacements : list (string * string)
}.

(** ** The parsed document

    [BeautifulSoup(content, 'html.parser')] yields a tree of tags and
    strings. An attribute value is a string, or a list of strings for the
    multi-valued attributes ([class], [rel], ...). The attributes of a tag
    form a Python [dict]: keys are unique and keep their insertion order. *)
Inductive attr_value :=
| AStr (s : string)
| AList (l : list string).

#[global] Instance attr_value_eq_dec : EqDecision attr_value.
Proof. solve_decision. Defined.

Definition Attrs := list (string * attr_value).

Inductive node :=
| NavigableString (s : string)
| Tag (tag_name : string) (attrs : Attrs) (contents : list node).

(** The contents of the [BeautifulSoup] object. *)
Definition Soup := list node.

(** A tag object is identified by its position: the child indices on the
    way from the root to it. *)
Definition handle := list nat.

Module Dict.

(** [d.get(k)] *)
Fixpoint get (k : string) (d : Attrs) : option attr_value :=
  match d with
  | [] => None
  | (k', v) :: r => if decide (k' = k) then Some v else get k r
  end.

(** [d[k] = v]: an existing key keeps its place, a new one goes last. *)
Fixpoint set (k : string) (v : attr_value) (d : Attrs) : Attrs :=
  match d with
  | [] => [(k, v)]
  | (k', v') :: r => if decide (k' = k) then (k, v) :: r else (k', v') :: set k v r
  end.

(** [del d[k]] *)
Fixpoint del (k : string) (d : Attrs) : Attrs :=
  match d with
  | [] => []
  | (k', v') :: r => if decide (k' = k) then r else (k', v') :: del k r
  end.

End Dict.

Module Dom.

Definition on_attrs (g : Attrs -> Attrs) (n : node) : node :=
  match n with
  | Tag nm a c => Tag nm (g a) c
  | NavigableString s => NavigableString s
  end.

Definition on_contents (g : list node -> list node) (n : node) : node :=
  match n with
  | Tag nm a c => Tag nm a (g c)
  | NavigableString s => NavigableString s
  end.

(** The node at position [p]. *)
Fixpoint lookup_at (p : handle) (l : list node) : option node :=
  match p with
  | [] => None
  | i :: p' =>
      match l !! i with
      | None => None
      | Some n =>
          match p' with
          | [] => Some n
          | _ => match n with
                 | Tag _ _ c => lookup_at p' c
                 | NavigableString _ => None
                 end
          end
      end
  end.

(** In-place mutation of the node at position [p]. *)
Fixpoint update_at (p : handle) (f : node -> node) (l : list node) : list node :=
  match p with
  | [] => l
  | i :: p' =>
      alter (fun n => match p' with
                      | [] => f n
                      | _ => on_contents (update_at p' f) n
                      end) i l
  end.

(** Removal of the node at position [p] with everything below it. *)
Fixpoint remove_at (p : handle) (l : list node) : list node :=
  match p with
  | [] => l
  | i :: p' =>
      match p' with
      | [] => delete i l
      | _ => alter (on_contents (remove_at p')) i l
      end
  end.

(** The attribute dictionary of the tag at [p]. *)
Definition attrs_at (p : handle) (l : list node) : option Attrs :=
  match lookup_at p l with
  | Some (Tag _ a _) => Some a
  | _ => None
  end.

(** All tags below a node list in document order, each with its position,
    name and attributes. *)
Fixpoint tags_of (n : node) : list (handle * (string * Attrs)) :=
  match n with
  | NavigableString _ => []
  | Tag nm a c =>
      ([], (nm, a)) ::
      (fix children (i : nat) (l : list node) : list (handle * (string * Attrs)) :=
         match l with
         | [] => []
         | x :: r => map (fun e => (i :: fst e, snd e)) (tags_of x) ++ children (S i) r
         end) 0 c
  end.

Fixpoint tags_from (i : nat) (l : list node) : list (handle * (string * Attrs)) :=
  match l with
  | [] => []
  | x :: r => map (fun e => (i :: fst e, snd e)) (tags_of x) ++ tags_from (S i) r
  end.

Definition tags (l : Soup) : list (handle * (string * Attrs)) := tags_from 0 l.

(** All strings below a node, concatenated: [tag.get_text()]. *)
Fixpoint get_text (n : node) : string :=
  match n with
  | NavigableString s => s
  | Tag _ _ c =>
      (fix children (l : list node) : string :=
         match l with
         | [] => ""
         | x :: r => get_text x +:+ children r
         end) c
  end.

(** [tag.string]: the single string below a chain of only children. *)
Fixpoint string_of (n : node) : option string :=
  match n with
  | NavigableString s => Some s
  | Tag _ _ [x] => string_of x
  | Tag _ _ _ => None
  end.

End Dom.

(** ** [bs4] searches *)
Module Bs4.

(** How [bs4] matches an attribute value against a search string: a
    multi-valued attribute matches through any of its items or through the
    items joined by spaces. *)
Definition value_matches (v : attr_value) (against : string) : bool :=
  match v with
  | AStr s => bool_decide (s = against)
  | AList l => bool_decide (against ∈ l) || bool_decide (PyStr.join " " l = against)
  end.

(** A search by tag name and one attribute, [find_all(name, attr=value)]. *)
Definition matches (nm attr against : string) (e : handle * (string * Attrs)) : bool :=
  bool_decide (fst (snd e) = nm) &&
  match Dict.get attr (snd (snd e)) with
  | Some v => value_matches v against
  | None => false
  end.

Definition find_all (nm attr against : string) (soup : Soup) : list handle :=
  map fst (filter (fun e => matches nm attr against e = true) (Dom.tags soup)).

Definition find (nm attr against : string) (soup : Soup) : option handle :=
  head (find_all nm attr against soup).

(** [soup.find(name)] *)
Definition find_name (nm : string) (soup : Soup) : option handle :=
  head (map fst (filter (fun e => fst (snd e) = nm) (Dom.tags soup))).

(** [soup.find_all(attrs={attr: True})] *)
Definition find_all_with_attr (attr : string) (soup : Soup) : list handle :=
  map fst (filter (fun e => is_Some (Dict.get attr (snd (snd e)))) (Dom.tags soup)).

End Bs4.

(** ** External collaborators

    The libraries the script calls and the outside world it talks to.
    - [html_parser content] is [BeautifulSoup(content, 'html.parser')];
    - [decode n] is [str(n)] for a node of the tree;
    - [py_repr s] is [repr(s)];
    - [soup_select selector soup] is [soup.select(selector)];
    - [re_search_ignorecase pattern text] tells whether
      [re.search(pattern, text, re.IGNORECASE)] finds a match;
    - [urlparse_netloc url] is [urlparse(url).netloc];
    - [str_format template project_name] is
      [template.format(project_name=project_name)];
    - [urlretrieve_outcome n url local_path] is what creating the parent
      directory and retrieving [url] into [local_path] gives at the [n]-th
      retrieval of the run: the bytes written, or the exception;
    - [glob files root pattern] is [root.glob(pattern)] on the file system
      [files], and [path_match p pattern] is [p.match(pattern)]. *)
Class Env := {
  html_parser : string -> Result Soup;
  decode : node -> string;
  py_repr : string -> string;
  soup_select : string -> Soup -> Result (list handle);
  re_search_ignorecase : string -> string -> Result bool;
  urlparse_netloc : string -> Result string;
  str_format : string -> string -> Result string;
  urlretrieve_outcome : nat -> string -> string -> Result string;
  glob : gmap string string -> Path -> string -> list Path;
  path_match : Path -> string -> bool
}.

(** ** The sanitizer object and the world around it *)

(** What the script does to the outside, in the order it does it. *)
Inductive event :=
| EvFetch (url local_path : string) (ok : bool)
| EvWrite (path content : string)
| EvCopy (src dst : string)
| EvPrint (text : string).

#[global] Instance event_eq_dec : EqDecision event.
Proof. solve_decision. Defined.

(** [report], [processed_files] and [downloaded_assets] are the fields of
    [TemplateSanitizer]; [files] maps the path of each file to its text;
    [events] is the trace, oldest first. *)
Record State := MkState {
  report : list string;
  processed_files : nat;
  downloaded_assets : gset string;
  files : gmap string string;
  events : list event
}.

(** [TemplateSanitizer.__init__] on the file system [fs]. *)
Definition init (fs : gmap string string) : State :=
  MkState [] 0 ∅ fs [].

Definition set_report (f : list string -> list string) (s : State) : State :=
  MkState (f (report s)) (processed_files s) (downloaded_assets s) (files s) (events s).
Definition set_processed_files (f : nat -> nat) (s : State) : State :=
  MkState (report s) (f (processed_files s)) (downloaded_assets s) (files s) (events s).
Definition set_downloaded_assets (f : gset string -> gset string) (s : State) : State :=
  MkState (report s) (processed_files s) (f (downloaded_assets s)) (files s) (events s).
Definition set_files (f : gmap string string -> gmap string string) (s : State) : State :=
  MkState (report s) (processed_files s) (downloaded_assets s) (f (files s)) (events s).
Definition add_event (e : event) (s : State) : State :=
  MkState (report s) (processed_files s) (downloaded_assets s) (files s) (events s ++ [e]).

Definition is_fetch (e : event) : bool :=
  match e with EvFetch _ _ _ => true | _ => false end.

(** Number of retrievals attempted so far. *)
Definition fetch_count (s : State) : nat :=
  length (filter (fun e => is_fetch e = true) (events s)).

(** ** The monad of methods

    A method runs on a state and ends in a state, with a value or with an
    exception; what it did before raising stays done. *)
Definition M (A : Type) : Type := State -> State * Result A.

Definition ret {A} (a : A) : M A := fun s => (s, Ok a).

Definition bind {A B} (m : M A) (k : A -> M B) : M B :=
  fun s => match m s with
           | (s', Ok a) => k a s'
           | (s', Raise e) => (s', Raise e)
           end.

Definition raise {A} (e : string) : M A := fun s => (s, Raise e).

(** [try: m  except Exception as e: handler e] *)
Definition try_except {A} (m : M A) (handler : string -> M A) : M A :=
  fun s => match m s with
           | (s', Ok a) => (s', Ok a)
           | (s', Raise e) => handler e s'
           end.

Definition lift {A} (r : Result A) : M A := fun s => (s, r).

Definition modify (f : State -> State) : M unit := fun s => (f s, Ok tt).

Definition get_state : M State := fun s => (s, Ok s).

Notation "x <- m ;; k" := (bind m (fun x => k))
  (at level 100, m at next level, right associativity).
Notation "m ;;; k" := (bind m (fun _ => k))
  (at level 100, right associativity).

(** [for x in l: acc = body acc x] *)
Fixpoint for_each {A B} (l : list A) (acc : B) (body : B -> A -> M B) : M B :=
  match l with
  | [] => ret acc
  | x :: r => acc' <- body acc x ;; for_each r acc' body
  end.

Definition result_bind {A B} (r : Result A) (k : A -> Result B) : Result B :=
  match r with
  | Ok a => k a
  | Raise e => Raise e
  end.

(** ** The vendor CSS pattern

    [sanitize_css] removes the matches of
    [@supports\s*\(z-index:calc\(infinity\)\)\s*\{#__framer-badge-container\{[^}]+\}\}#__framer-badge-container\{[^}]+\}].
    Every part of the pattern is followed by a character it cannot itself
    match, so a match at a position is found without backtracking. *)
Module Css.

(** [\s] *)
Definition is_space (c : ascii) : bool :=
  let n := nat_of_ascii c in
  ((9 <=? n)%nat && (n <=? 13)%nat) || ((28 <=? n)%nat && (n <=? 32)%nat).

(** A literal: the rest of [s] after [lit]. *)
Fixpoint expect (lit s : string) : option string :=
  match lit with
  | EmptyString => Some s
  | String c l =>
      match s with
      | String d r => if decide (c = d) then expect l r else None
      | EmptyString => None
      end
  end.

(** [\s*] *)
Fixpoint spaces (s : string) : string :=
  match s with
  | String c r => if is_space c then spaces r else s
  | EmptyString => EmptyString
  end.

(** [[^}]*] *)
Fixpoint not_braces (s : string) : string :=
  match s with
  | String c r => if decide (c = "}"%char) then s else not_braces r
  | EmptyString => EmptyString
  end.

(** [[^}]+] *)
Definition not_braces1 (s : string) : option string :=
  match s with
  | String c r => if decide (c = "}"%char) then None else Some (not_braces r)
  | EmptyString => None
  end.

(** The rest of [s] after a match of the pattern at its start. *)
Definition match_badge (s : string) : option string :=
  s1 ← expect "@supports" s;
  s2 ← expect "(z-index:calc(infinity))" (spaces s1);
  s3 ← expect "{#__framer-badge-container{" (spaces s2);
  s4 ← not_braces1 s3;
  s5 ← expect "}}#__framer-badge-container{" s4;
  s6 ← not_braces1 s5;
  expect "}" s6.

(** [re.sub(pattern, '', s)]; [skip] counts the characters of the current
    match that are still to be dropped. *)
Fixpoint sub_from (skip : nat) (s : string) : string :=
  match s with
  | EmptyString => EmptyString
  | String c r =>
      match skip with
      | S k => sub_from k r
      | O =>
          match match_badge s with
          | Some rest => sub_from (String.length s - String.length rest - 1) r
          | None => String c (sub_from 0 r)
          end
      end
  end.

Definition sub (s : string) : string := sub_from 0 s.

End Css.

(** ** Positions under removal *)

(** Where the object at position [q] is after the node at [p] was
    removed; [None] when it was removed with it. *)
Fixpoint rebase (p q : handle) : option handle :=
  match p, q with
  | [], _ => Some q
  | _, [] => Some q
  | i :: p', j :: q' =>
      match p' with
      | [] => if decide (j = i) then None
              else if decide (i < j) then Some (pred j :: q')
              else Some q
      | _ => if decide (j = i) then (cons j) <$> rebase p' q' else Some q
      end
  end.

(** The present position of the object first found at [q], after the
    removals [removed] (oldest first, each at its position of the time). *)
Definition current (removed : list handle) (q : handle) : option handle :=
  foldl (fun acc p => acc ≫= rebase p) (Some q) removed.

(** The characters of the newline. *)
Definition nl : string := String (ascii_of_nat 10) EmptyString.

(** ['=' * n] *)
Fixpoint repeat_str (c : string) (n : nat) : string :=
  match n with
  | O => ""
  | S k => c +:+ repeat_str c k
  end.

(** ** The methods of [TemplateSanitizer] *)
Section Sanitizer.
Context {platform : Platform} {env : Env}.
Variable config : Config.

(** [print(text)] *)
Definition print (text : string) : M unit := modify (add_event (EvPrint text)).

(** [log] *)
Definition log (message : string) (level : string) : M unit :=
  let log_entry := "[" +:+ level +:+ "] " +:+ message in
  modify (set_report (fun r => r ++ [log_entry])) ;;;
  if output_verbose config then print log_entry else ret tt.

(** [open(path, 'r').read()] *)
Definition read_text (path : string) : M string :=
  fun s => match files s !! path with
           | Some content => (s, Ok content)
           | None => (s, Raise ("[Errno 2] No such file or directory: '" +:+ path +:+ "'"))
           end.

(** [open(path, 'w').write(content)] *)
Definition write_text (path content : string) : M unit :=
  modify (fun s => add_event (EvWrite path content) (set_files (insert path content) s)).

(** [shutil.copy2(src, dst)] *)
Definition copy2 (src dst : string) : M unit :=
  fun s => match files s !! src with
           | None => (s, Raise ("[Errno 2] No such file or directory: '" +:+ src +:+ "'"))
           | Some content =>
               if decide (src = dst)
               then (s, Raise ("'" +:+ src +:+ "' and '" +:+ dst +:+ "' are the same file"))
               else (add_event (EvCopy src dst) (set_files (insert dst content) s), Ok tt)
           end.

(** [urllib.request.urlretrieve(url, local_path)], after the creation of
    the parent directory. *)
Definition urlretrieve (url local_path : string) : M unit :=
  fun s => match urlretrieve_outcome (fetch_count s) url local_path with
           | Ok data =>
               (add_event (EvFetch url local_path true)
                  (set_files (insert local_path data) s), Ok tt)
           | Raise e => (add_event (EvFetch url local_path false) s, Raise e)
           end.

(** [find_html_files] *)
Definition find_html_files (root : Path) : M (list Path) :=
  s <- get_state ;;
  ret (flat_map
         (fun pattern =>
            filter (fun file_path =>
                      let should_exclude :=
                        existsb (path_match file_path) (files_exclude config) in
                      negb should_exclude = true ∧
                      is_Some (files s !! path_str file_path))
                   (glob (files s) root pattern))
         (files_patterns config)).

(** [backup_file] *)
Definition backup_file (file_path : Path) : M unit :=
  if output_backup config then
    let backup_path := path_str file_path +:+ output_backup_suffix config in
    copy2 (path_str file_path) backup_path ;;;
    log ("Created backup: " +:+ backup_path) "INFO"
  else ret tt.

(** [download_asset] *)
Definition download_asset (url : string) (local_path : Path) : M bool :=
  try_except
    (urlretrieve url (path_str local_path) ;;;
     modify (set_downloaded_assets (fun d => {[path_str local_path]} ∪ d)) ;;;
     log ("Downloaded: " +:+ url +:+ " -> " +:+ path_str local_path) "INFO" ;;;
     ret true)
    (fun e =>
       log ("Failed to download " +:+ url +:+ ": " +:+ e) "ERROR" ;;;
       ret false).

(** [should_download_asset]. The value comes from an attribute of a tag;
    [urlparse] takes a string, and on a list it raises, or returns a
    [netloc] of bytes in which the search for a domain raises. *)
Definition should_download_asset (url : attr_value) : Result bool :=
  if negb (assets_download_external config) then Ok false
  else
    match url with
    | AStr u =>
        result_bind (urlparse_netloc u) (fun netloc =>
          Ok (existsb (fun domain => PyStr.contains domain netloc)
                      (assets_vendor_domains config)))
    | AList [] =>
        match assets_vendor_domains config with
        | [] => Ok false
        | _ => Raise "a bytes-like object is required, not 'str'"
        end
    | AList _ => Raise "'list' object has no attribute 'decode'"
    end.

(** The project name of a case study, lines 176 and 193. *)
Definition project_name (file_path : Path) : string :=
  PyStr.title (PyStr.replace "-" " " (name (parent file_path))).

(** [_get_page_title] *)
Definition _get_page_title (file_path : Path) : Result string :=
  if PyStr.contains "contact" (PyStr.lower (path_str file_path))
  then Ok (pages_contact_title config)
  else if PyStr.contains "work/" (path_str file_path)
  then str_format (pages_case_studies_title_template config) (project_name file_path)
  else Ok (personal_name config +:+ " - " +:+ personal_title config).

(** [_get_page_description] *)
Definition _get_page_description (file_path : Path) : Result string :=
  if PyStr.contains "contact" (PyStr.lower (path_str file_path))
  then Ok (pages_contact_description config)
  else if PyStr.contains "work/" (path_str file_path)
  then str_format (pages_case_studies_description_template config) (project_name file_path)
  else Ok (personal_description config).

(** [str(v)] for an attribute value *)
Definition py_str (v : attr_value) : string :=
  match v with
  | AStr s => s
  | AList l => "[" +:+ PyStr.join ", " (map py_repr l) +:+ "]"
  end.

(** [tag.get(key, default)] *)
Definition get_attr (tag : handle) (key : string) (default : attr_value) (soup : Soup)
  : attr_value :=
  match Dom.attrs_at tag soup with
  | Some a => match Dict.get key a with Some v => v | None => default end
  | None => default
  end.

(** [tag[key]] *)
Definition getitem (tag : handle) (key : string) (soup : Soup) : Result attr_value :=
  match Dom.attrs_at tag soup ≫= Dict.get key with
  | Some v => Ok v
  | None => Raise ("'" +:+ key +:+ "'")
  end.

(** [tag[key] = v] *)
Definition set_attr (tag : handle) (key : string) (v : attr_value) (soup : Soup) : Soup :=
  Dom.update_at tag (Dom.on_attrs (Dict.set key v)) soup.

(** [del tag[key]] *)
Definition del_attr (tag : handle) (key : string) (soup : Soup) : Soup :=
  Dom.update_at tag (Dom.on_attrs (Dict.del key)) soup.

(** [tag.string = text] *)
Definition set_string (tag : handle) (text : string) (soup : Soup) : Soup :=
  Dom.update_at tag (Dom.on_contents (fun _ => [NavigableString text])) soup.

(** [str(tag)] *)
Definition tag_str (tag : handle) (soup : Soup) : string :=
  match Dom.lookup_at tag soup with
  | Some n => decode n
  | None => ""
  end.

(** [str(soup)] *)
Definition soup_str (soup : Soup) : string :=
  String.concat "" (map decode soup).

(** Lines 111 to 113: the text of an element and its attribute values. *)
Definition combined_text (element : node) : string :=
  let text := match Dom.string_of element with
              | None => Dom.get_text element
              | Some st => st
              end in
  let attrs := PyStr.join " "
                 (map (fun kv => py_str (snd kv))
                      (match element with Tag _ a _ => a | NavigableString _ => [] end)) in
  text +:+ " " +:+ attrs.

(** The loop of lines 108 to 122 over the selected elements. [removed]
    lists the elements decomposed so far. An element decomposed together
    with an ancestor has lost its attribute dictionary: reading it raises,
    and decomposing it again changes nothing. *)
Fixpoint remove_selected (selector : string) (contains : option string)
    (elements : list handle) (removed : list handle) (soup : Soup) (changes : nat)
  : M (Soup * nat) :=
  match elements with
  | [] => ret (soup, changes)
  | element :: rest =>
      let here := current removed element ≫= fun p =>
                  (fun n => (p, n)) <$> Dom.lookup_at p soup in
      match contains with
      | Some pattern =>
          match here with
          | None => raise "'NoneType' object has no attribute 'values'"
          | Some (p, n) =>
              found <- lift (re_search_ignorecase pattern (combined_text n)) ;;
              if (found : bool) then
                log ("Removed " +:+ selector +:+ " containing '" +:+ pattern +:+ "'") "INFO" ;;;
                remove_selected selector contains rest (removed ++ [p])
                  (Dom.remove_at p soup) (changes + 1)
              else remove_selected selector contains rest removed soup changes
          end
      | None =>
          log ("Removed " +:+ selector) "INFO" ;;;
          match here with
          | Some (p, _) =>
              remove_selected selector contains rest (removed ++ [p])
                (Dom.remove_at p soup) (changes + 1)
          | None => remove_selected selector contains rest removed soup (changes + 1)
          end
      end
  end.

(** [if contains:] is false for a missing and for an empty pattern. *)
Definition truthy (contains : option string) : option string :=
  match contains with
  | Some "" => None
  | other => other
  end.

(** Lines 103 to 122: removal of the vendor elements. *)
Definition remove_vendor_elements (soup : Soup) : M (Soup * nat) :=
  for_each (remove_elements config) (soup, 0)
    (fun acc element_config =>
       elements <- lift (soup_select (fst element_config) (fst acc)) ;;
       remove_selected (fst element_config) (truthy (snd element_config))
         elements [] (fst acc) (snd acc)).

(** [if tag: tag['content'] = value; changes += 1], followed by [note]. *)
Definition overwrite_content (tag : option handle) (value : Result string)
    (note : M unit) (acc : Soup * nat) : M (Soup * nat) :=
  match tag with
  | Some t =>
      v <- lift value ;;
      note ;;;
      ret (set_attr t "content" (AStr v) (fst acc), snd acc + 1)
  | None => ret acc
  end.

(** Lines 124 to 131: the title. *)
Definition update_title (file_path : Path) (acc : Soup * nat) : M (Soup * nat) :=
  match Bs4.find_name "title" (fst acc) with
  | Some title_tag =>
      new_title <- lift (_get_page_title file_path) ;;
      let old_title := match Dom.lookup_at title_tag (fst acc) ≫= Dom.string_of with
                       | Some st => st
                       | None => "None"
                       end in
      log ("Updated title: " +:+ old_title +:+ " -> " +:+ new_title) "INFO" ;;;
      ret (set_string title_tag new_title (fst acc), snd acc + 1)
  | None => ret acc
  end.

(** [sanitize_metadata] *)
Definition sanitize_metadata (soup : Soup) (file_path : Path) : M (Soup * nat) :=
  acc <- remove_vendor_elements soup ;;
  acc <- update_title file_path acc ;;
  acc <- overwrite_content (Bs4.find "meta" "name" "description" (fst acc))
           (_get_page_description file_path) (log "Updated description" "INFO") acc ;;
  acc <- overwrite_content (Bs4.find "meta" "property" "og:title" (fst acc))
           (_get_page_title file_path) (ret tt) acc ;;
  acc <- overwrite_content (Bs4.find "meta" "property" "og:description" (fst acc))
           (_get_page_description file_path) (ret tt) acc ;;
  acc <- overwrite_content (Bs4.find "meta" "name" "twitter:title" (fst acc))
           (_get_page_title file_path) (ret tt) acc ;;
  acc <- overwrite_content (Bs4.find "meta" "name" "twitter:description" (fst acc))
           (_get_page_description file_path) (ret tt) acc ;;
  ret acc.

(** Lines 210 to 215: the local file name of a favicon. *)
Definition favicon_filename (href link_str : string) : string :=
  if PyStr.contains "light" href || PyStr.contains "prefers-color-scheme: light" link_str
  then "favicon-light.png"
  else if PyStr.contains "dark" href || PyStr.contains "prefers-color-scheme: dark" link_str
  then "favicon-dark.png"
  else "favicon.png".

(** Lines 207 to 221: one icon link. [href] is a string once
    [should_download_asset] has returned [True]. *)
Definition localize_icon (file_path : Path) (acc : Soup * nat) (link : handle)
  : M (Soup * nat) :=
  let href := get_attr link "href" (AStr "") (fst acc) in
  eligible <- lift (should_download_asset href) ;;
  if (eligible : bool) then
    let filename := favicon_filename (py_str href) (tag_str link (fst acc)) in
    let local_path := joinpath (assets_local_path config) filename in
    ok <- download_asset (py_str href) local_path ;;
    if (ok : bool)
    then ret (set_attr link "href" (AStr (get_relative_path file_path local_path)) (fst acc),
              snd acc + 1)
    else ret acc
  else ret acc.

(** Lines 224 to 229 and 232 to 237: one preview image tag. *)
Definition localize_image (file_path : Path) (tag : option handle) (acc : Soup * nat)
  : M (Soup * nat) :=
  match tag with
  | Some image =>
      eligible <- lift (should_download_asset (get_attr image "content" (AStr "") (fst acc))) ;;
      if (eligible : bool) then
        let local_path := joinpath (assets_local_path config) "og-preview.png" in
        url <- lift (getitem image "content" (fst acc)) ;;
        ok <- download_asset (py_str url) local_path ;;
        if (ok : bool)
        then ret (set_attr image "content"
                    (AStr (get_relative_path file_path local_path)) (fst acc),
                  snd acc + 1)
        else ret acc
      else ret acc
  | None => ret acc
  end.

(** [sanitize_assets] *)
Definition sanitize_assets (soup : Soup) (file_path : Path) : M (Soup * nat) :=
  acc <- for_each (Bs4.find_all "link" "rel" "icon" soup) (soup, 0)
           (localize_icon file_path) ;;
  acc <- localize_image file_path (Bs4.find "meta" "property" "og:image" (fst acc)) acc ;;
  acc <- localize_image file_path (Bs4.find "meta" "name" "twitter:image" (fst acc)) acc ;;
  ret acc.

(** Lines 251 to 254: one element carrying [from_attr]. *)
Definition rename_attribute (from_attr to_attr : string) (acc : Soup * nat)
    (element : handle) : M (Soup * nat) :=
  value <- lift (getitem element from_attr (fst acc)) ;;
  log ("Replaced attribute: " +:+ from_attr +:+ " -> " +:+ to_attr) "INFO" ;;;
  ret (del_attr element from_attr (set_attr element to_attr value (fst acc)), snd acc + 1).

(** [sanitize_attributes] *)
Definition sanitize_attributes (soup : Soup) : M (Soup * nat) :=
  for_each (attribute_replacements config) (soup, 0)
    (fun acc replacement =>
       for_each (Bs4.find_all_with_attr (fst replacement) (fst acc)) acc
         (rename_attribute (fst replacement) (snd replacement))).

(** [sanitize_css] *)
Definition sanitize_css (content : string) : M (string * nat) :=
  let original_content := content in
  let content := Css.sub content in
  if decide (content = original_content) then ret (content, 0)
  else log "Removed Framer badge container CSS" "INFO" ;;; ret (content, 1).

(** Lines 277 to 303 of [process_file]: backup, read, the four passes. The
    result is the document and [total_changes]. *)
Definition process_file_passes (file_path : Path) : M (Soup * nat) :=
  log (nl +:+ repeat_str "=" 60) "INFO" ;;;
  log ("Processing: " +:+ path_str file_path) "INFO" ;;;
  log (repeat_str "=" 60) "INFO" ;;;
  backup_file file_path ;;;
  content <- read_text (path_str file_path) ;;
  css <- sanitize_css content ;;
  soup <- lift (html_parser (fst css)) ;;
  let total_changes := snd css in
  meta <- sanitize_metadata soup file_path ;;
  let total_changes := total_changes + snd meta in
  assets <- sanitize_assets (fst meta) file_path ;;
  let total_changes := total_changes + snd assets in
  attributes <- sanitize_attributes (fst assets) ;;
  let total_changes := total_changes + snd attributes in
  ret (fst attributes, total_changes).

(** Lines 305 to 313 of [process_file]. *)
Definition write_back (file_path : Path) (soup : Soup) (total_changes : nat) : M unit :=
  if decide (0 < total_changes) then
    write_text (path_str file_path) (soup_str soup) ;;;
    log ("✓ Made " +:+ pretty total_changes +:+ " changes to " +:+ path_str file_path) "INFO" ;;;
    modify (set_processed_files (fun n => n + 1))
  else log ("✓ No changes needed for " +:+ path_str file_path) "INFO".

(** [process_file] *)
Definition process_file (file_path : Path) : M unit :=
  r <- process_file_passes file_path ;;
  write_back file_path (fst r) (snd r).

(** The summary text of [generate_report]. *)
Definition summary (s : State) : string :=
  nl +:+ repeat_str "=" 60 +:+ nl +:+ "SANITIZATION COMPLETE" +:+ nl +:+
  repeat_str "=" 60 +:+ nl +:+ nl +:+
  "Files Processed: " +:+ pretty (processed_files s) +:+ nl +:+
  "Assets Downloaded: " +:+ pretty (size (downloaded_assets s)) +:+ nl +:+ nl +:+
  "Downloaded Assets:" +:+ nl +:+
  String.concat ""
    (map (fun asset => "  - " +:+ asset +:+ nl)
         (merge_sort (fun a b => String.leb a b) (elements (downloaded_assets s)))) +:+
  nl +:+ "Full log:" +:+ nl +:+ repeat_str "-" 60 +:+ nl +:+
  PyStr.join nl (report s).

(** [generate_report] *)
Definition generate_report : M unit :=
  s <- get_state ;;
  print (summary s) ;;;
  if output_report config then
    write_text (output_report_file config) (summary s) ;;;
    print (nl +:+ "Report saved to: " +:+ output_report_file config)
  else ret tt.

(** The loop of [run] over the files found. *)
Definition process_all (html_files : list Path) : M unit :=
  for_each html_files tt
    (fun _ file_path =>
       try_except (process_file file_path)
         (fun e => log ("Error processing " +:+ path_str file_path +:+ ": " +:+ e) "ERROR")).

(** [run] *)
Definition run (root_dir : Path) : M unit :=
  log "Starting template sanitization..." "INFO" ;;;
  html_files <- find_html_files root_dir ;;
  log ("Found " +:+ pretty (length html_files) +:+ " HTML files to process") "INFO" ;;;
  process_all html_files ;;;
  generate_report.

End Sanitizer.

(** ** A small instance of the collaborators

    Enough of the libraries to run the script on examples: a renderer for
    the tree, selectors that are tag names, patterns that are literals, URLs
    of the form [scheme://host/path], templates with the one field
    [{project_name}]. The parser, the network and the directory listing are
    given as tables. *)
Module Demo.

Definition render_value (v : attr_value) : string :=
  match v with
  | AStr s => s
  | AList l => PyStr.join " " l
  end.

(** The double quote character. *)
Definition quote : string := String (ascii_of_nat 34) EmptyString.

Definition render_attrs (a : Attrs) : string :=
  String.concat ""
    (map (fun kv => " " +:+ fst kv +:+ "=" +:+ quote +:+ render_value (snd kv) +:+ quote) a).

Fixpoint render (n : node) : string :=
  match n with
  | NavigableString s => s
  | Tag nm a c =>
      "<" +:+ nm +:+ render_attrs a +:+ ">" +:+
      (fix children (l : list node) : string :=
         match l with
         | [] => ""
         | x :: r => render x +:+ children r
         end) c +:+
      "</" +:+ nm +:+ ">"
  end.

Fixpoint until_delimiter (s : string) : string :=
  match s with
  | EmptyString => EmptyString
  | String c r =>
      if decide (c = "/"%char ∨ c = "?"%char ∨ c = "#"%char) then EmptyString
      else String c (until_delimiter r)
  end.

Definition netloc (url : string) : string :=
  match String.index 0 "://" url with
  | Some i => until_delimiter (String.substring (i + 3) (String.length url - (i + 3)) url)
  | None => ""
  end.

Definition env (parser : string -> Result Soup)
    (network : nat -> string -> string -> Result string)
    (listing : list Path) : Env :=
  {| html_parser := parser;
     decode := render;
     py_repr := fun s => "'" +:+ s +:+ "'";
     soup_select := fun selector soup =>
       Ok (map fst (filter (fun e => fst (snd e) = selector) (Dom.tags soup)));
     re_search_ignorecase := fun pattern text =>
       Ok (PyStr.contains (PyStr.lower pattern) (PyStr.lower text));
     urlparse_netloc := fun url => Ok (netloc url);
     str_format := fun template project_name =>
       Ok (PyStr.replace "{project_name}" project_name template);
     urlretrieve_outcome := network;
     glob := fun _ _ _ => listing;
     path_match := fun _ _ => false |}.

Definition config : Config :=
  {| files_patterns := ["**/*.html"];
     files_exclude := [];
     output_backup := true;
     output_backup_suffix := ".bak";
     output_verbose := false;
     output_report := true;
     output_report_file := "report.txt";
     assets_download_external := true;
     assets_vendor_domains := ["vendor.example"];
     assets_local_path := MkPath None ["assets"];
     remove_elements := [("footer", Some "vendor")];
     personal_name := "Ada";
     personal_title := "Designer";
     personal_description := "Portfolio of Ada";
     pages_contact_title := "Contact Ada";
     pages_contact_description := "Get in touch";
     pages_case_studies_title_template := "{project_name} - Case Study";
     pages_case_studies_description_template := "How {project_name} was made";
     attribute_replacements := [("data-framer-name", "data-name")] |}.

Definition page : Soup :=
  [ Tag "html" []
      [ Tag "head" []
          [ Tag "title" [] [NavigableString "Old"];
            Tag "link" [("rel", AList ["icon"]);
                        ("href", AStr "https://vendor.example/favicon-dark.png")] [];
            Tag "meta" [("property", AStr "og:image");
                        ("content", AStr "https://vendor.example/p.png")] [];
            Tag "meta" [("name", AStr "twitter:image");
                        ("content", AStr "https://vendor.example/p.png")] [] ];
        Tag "body" []
          [ Tag "div" [("data-framer-name", AStr "hero")] [NavigableString "hi"];
            Tag "footer" [("class", AList ["badge"])] [NavigableString "Made with Vendor"] ] ] ].

(** A document with the two preview image tags and nothing else. *)
Definition previews : Soup :=
  [ Tag "head" []
      [ Tag "meta" [("property", AStr "og:image");
                    ("content", AStr "https://vendor.example/p.png")] [];
        Tag "meta" [("name", AStr "twitter:image");
                    ("content", AStr "https://vendor.example/p.png")] [] ] ].


(** A document in which nothing is to be changed. *)
Definition plain : Soup :=
  [ Tag "html" [] [ Tag "body" [] [NavigableString "hi"] ] ].

Definition parser (content : string) : Result Soup :=
  if decide (content = "page") then Ok page
  else if decide (content = "plain") then Ok plain
  else Raise "unparsable".

Definition online : nat -> string -> string -> Result string :=
  fun _ url _ => Ok ("bytes of " +:+ url).

Definition offline : nat -> string -> string -> Result string :=
  fun _ url _ => Raise "timed out".

(** The first retrieval succeeds, the later ones fail. *)
Definition flaky : nat -> string -> string -> Result string :=
  fun n url _ => match n with O => Ok ("bytes of " +:+ url) | S _ => Raise "timed out" end.

Definition index_html : Path := MkPath None ["site"; "index.html"].
Definition plain_html : Path := MkPath None ["site"; "plain.html"].

Definition contact_html : Path := MkPath None ["site"; "work"; "contact"; "index.html"].

Definition fs : gmap string string :=
  {[ "site/index.html" := "page"; "site/plain.html" := "plain";
     "site/broken.html" := "broken" ]}.

Definition unix : Platform := posix ["home"; "ada"].

(** The value of a call that returned, [d] for one that raised. *)
Definition value {A} (d : A) (r : Result A) : A :=
  match r with
  | Ok a => a
  | Raise _ => d
  end.

End Demo.

(** ** Vocabulary of the properties *)


(** A method respects a relation between states when the state it ends
    in is related to the state it started from, whatever it returns. *)
Definition respects (R : relation State) {A} (m : M A) : Prop :=
  ∀ s, R s (fst (m s)).

(** The kinds of events. *)
Definition is_print (e : event) : bool :=
  match e with EvPrint _ => true | _ => false end.

Definition is_write (e : event) : bool :=
  match e with EvWrite _ _ => true | _ => false end.

Definition ok_fetch (e : event) : bool :=
  match e with EvFetch _ _ true => true | _ => false end.

(** Number of successful retrievals in a trace. *)
Definition count_ok (l : list event) : nat :=
  length (filter (fun e => ok_fetch e = true) l).

(** Local paths of the successful retrievals in a trace. *)
Fixpoint fetched (l : list event) : gset string :=
  match l with
  | [] => ∅
  | EvFetch _ local_path true :: r => {[local_path]} ∪ fetched r
  | _ :: r => fetched r
  end.

(** Between the two states the method only logged: the report grew, the
    trace grew by prints, and nothing else changed. *)
Definition quiet (s s' : State) : Prop :=
  files s' = files s ∧
  downloaded_assets s' = downloaded_assets s ∧
  processed_files s' = processed_files s ∧
  (∃ l, report s' = report s ++ l) ∧
  (∃ l, events s' = events s ++ l ∧ Forall (fun e => is_print e = true) l).

(** Between the two states the set of downloaded assets grew by exactly
    the local paths of the retrievals that succeeded in between. *)
Definition accounted (s s' : State) : Prop :=
  ∃ l, events s' = events s ++ l ∧
       downloaded_assets s' = fetched l ∪ downloaded_assets s.

(** Between the two states nothing was written with [open(path, 'w')] and
    no file was counted as processed. *)
Definition unwritten (s s' : State) : Prop :=
  ∃ l, events s' = events s ++ l ∧
       Forall (fun e => is_write e = false) l ∧
       processed_files s' = processed_files s.

(** The report only grows. *)
Definition report_grows (s s' : State) : Prop :=
  ∃ l, report s' = report s ++ l.

(** A method returns [a] from every state. *)
Definition returns {A} (m : M A) (a : A) : Prop := ∀ s, snd (m s) = Ok a.

(** [1] for a tag that was found, [0] for one that was not. *)
Definition present (tag : option handle) : nat :=
  match tag with Some _ => 1 | None => 0 end.

(** The value of attribute [k] of the tag at [h], if there is one. *)
Definition attr_of (soup : Soup) (h : handle) (k : string) : option attr_value :=
  Dom.attrs_at h soup ≫= Dict.get k.

(** The overwrite of the [content] of a tag, if it was found. *)
Definition overwrite (soup : Soup) (target : option handle * string) : Soup :=
  match fst target with
  | Some tag => set_attr tag "content" (AStr (snd target)) soup
  | None => soup
  end.


Section Vocabulary.
Context {platform : Platform} {env : Env}.
Variable config : Config.

(** The prints of one call of [log]. *)
Definition echo (log_entry : string) : list event :=
  if output_verbose config then [EvPrint log_entry] else [].

(** The state after [log]. *)
Definition logged (message level : string) (s : State) : State :=
  MkState (report s ++ ["[" +:+ level +:+ "] " +:+ message])
          (processed_files s) (downloaded_assets s) (files s)
          (events s ++ echo ("[" +:+ level +:+ "] " +:+ message)).

(** The URL the script reads from an attribute: [tag.get(k, '')]. *)
Definition url_of (o : option attr_value) : string :=
  py_str (default (AStr "") o).

(** The invariant of the pass, from the document [soup0], the state [s0]
    and the count [n0] it started with: the trace grew by [l] without a
    write, the count grew by the successful retrievals of [l], the files
    and the document are untouched as long as no retrieval succeeded, and
    an attribute differs from what it was only if a retrieval of its first
    value succeeded. *)
Definition asset_inv (soup0 : Soup) (s0 : State) (n0 : nat)
    (acc : Soup * nat) (s : State) : Prop :=
  ∃ l, events s = events s0 ++ l ∧
       Forall (fun e => is_write e = false) l ∧
       snd acc = n0 + count_ok l ∧
       processed_files s = processed_files s0 ∧
       (count_ok l = 0 → files s = files s0 ∧ fst acc = soup0) ∧
       (∀ h k, attr_of (fst acc) h k ≠ attr_of soup0 h k →
               ∃ local_path, EvFetch (url_of (attr_of soup0 h k)) local_path true ∈ l).

(** What [run] does with one file: [process_file] under [try], and the
    [except] clause. *)
Definition attempt (file_path : Path) : M unit :=
  try_except (process_file config file_path)
    (fun e => log config ("Error processing " +:+ path_str file_path +:+ ": " +:+ e) "ERROR").


End Vocabulary.

(** The examples the properties are tried on. *)
Module Cases.

Definition online : Env := Demo.env Demo.parser Demo.online [].
Definition flaky : Env := Demo.env Demo.parser Demo.flaky [].
Definition preview_url : string := "https://vendor.example/p.png".
Definition preview_path : Path := MkPath None ["assets"; "og-preview.png"].

(** The state after a first, successful download of the preview image. *)
Definition resolved_once (env : Env) : State :=
  fst (@download_asset Demo.unix env Demo.config preview_url preview_path (init Demo.fs)).

End Cases.

(** ** Vocabulary of the further properties *)

(** A component that [normpath] keeps. *)
Definition kept (c : string) : Prop := ¬ (c = "" ∨ c = ".") ∧ c ≠ "..".

(** A path of the POSIX flavour: relative, or anchored at the root. *)
Definition posix_path (p : Path) : Prop := anchor p = None ∨ anchor p = Some "".

(** The string has no slash in it. *)
Definition no_slash (s : string) : Prop := PyStr.contains "/" s = false.




(** Between the two states the file at [path] kept its content and the
    trace only grew. *)
Definition held (path : string) (s s' : State) : Prop :=
  files s' !! path = files s !! path ∧ ∃ l, events s' = events s ++ l.

(** [element[to_attr] = element[from_attr]; del element[from_attr]] on
    the attribute dictionary of an element that carries [from_attr]; an
    element without it is not visited. *)
Definition rename_key (from_attr to_attr : string) (d : Attrs) : Attrs :=
  match Dict.get from_attr d with
  | Some value => Dict.del from_attr (Dict.set to_attr value d)
  | None => d
  end.

(** The replacements of the configuration, in their order. *)
Definition rename_keys (replacements : list (string * string)) (d : Attrs) : Attrs :=
  foldl (fun d replacement => rename_key (fst replacement) (snd replacement) d) d replacements.

(** Every attribute dictionary of the document has unique keys, as a
    Python [dict] has. *)
Definition unique_keys (soup : Soup) : Prop :=
  Forall (fun e => NoDup (snd (snd e)).*1) (Dom.tags soup).

(** The node below [n] at the relative position [p]. *)
Definition node_at (p : handle) (n : node) : option node :=
  match p with
  | [] => Some n
  | _ => match n with
         | Tag _ _ c => Dom.lookup_at p c
         | NavigableString _ => None
         end
  end.

Section Outputs.
Context {platform : Platform}.
Variable config : Config.

(** The local paths the asset pass can download to. *)
Definition asset_paths : list string :=
  map (fun filename => path_str (joinpath (assets_local_path config) filename))
      ["favicon-light.png"; "favicon-dark.png"; "favicon.png"; "og-preview.png"].

(** A retrieval goes to one of [asset_paths]. *)
Definition fetch_within (e : event) : Prop :=
  match e with
  | EvFetch _ local_path _ => local_path ∈ asset_paths
  | _ => True
  end.

(** Between the two states every retrieval went to one of [asset_paths]. *)
Definition confined (s s' : State) : Prop :=
  ∃ l, events s' = events s ++ l ∧ Forall fetch_within l.

(** Between the two states every entry added to the report was printed,
    when the output is verbose, and nothing was printed when it is not. *)
Definition echoing (s s' : State) : Prop :=
  ∃ r l, report s' = report s ++ r ∧ events s' = events s ++ l ∧
         filter (fun e => is_print e = true) l
         = if output_verbose config then EvPrint <$> r else [].

End Outputs.

(** Variants of the example configuration. *)
Module Settings.

Definition with_download_external (b : bool) (c : Config) : Config :=
  {| files_patterns := files_patterns c;
     files_exclude := files_exclude c;
     output_backup := output_backup c;
     output_backup_suffix := output_backup_suffix c;
     output_verbose := output_verbose c;
     output_report := output_report c;
     output_report_file := output_report_file c;
     assets_download_external := b;
     assets_vendor_domains := assets_vendor_domains c;
     assets_local_path := assets_local_path c;
     remove_elements := remove_elements c;
     personal_name := personal_name c;
     personal_title := personal_title c;
     personal_description := personal_description c;
     pages_contact_title := pages_contact_title c;
     pages_contact_description := pages_contact_description c;
     pages_case_studies_title_template := pages_case_studies_title_template c;
     pages_case_studies_description_template := pages_case_studies_description_template c;
     attribute_replacements := attribute_replacements c |}.

Definition with_backup_suffix (suffix : string) (c : Config) : Config :=
  {| files_patterns := files_patterns c;
     files_exclude := files_exclude c;
     output_backup := output_backup c;
     output_backup_suffix := suffix;
     output_verbose := output_verbose c;
     output_report := output_report c;
     output_report_file := output_report_file c;
     assets_download_external := assets_download_external c;
     assets_vendor_domains := assets_vendor_domains c;
     assets_local_path := assets_local_path c;
     remove_elements := remove_elements c;
     personal_name := personal_name c;
     personal_title := personal_title c;
     personal_description := personal_description c;
     pages_contact_title := pages_contact_title c;
     pages_contact_description := pages_contact_description c;
     pages_case_studies_title_template := pages_case_studies_title_template c;
     pages_case_studies_description_template := pages_case_studies_description_template c;
     attribute_replacements := attribute_replacements c |}.

(** Downloads switched off. *)
Definition offline : Config := with_download_external false Demo.config.

(** Backups with an empty suffix. *)
Definition bare_backup : Config := with_backup_suffix "" Demo.config.

End Settings.

Section Vetting.
Context {env : Env}.
Variable config : Config.

(** A retrieval is for a URL that [should_download_asset] accepts. *)
Definition fetch_vetted (e : event) : Prop :=
  match e with
  | EvFetch url _ _ => should_download_asset config (AStr url) = Ok true
  | _ => True
  end.

(** Between the two states every retrieval was for an accepted URL. *)
Definition vetted (s s' : State) : Prop :=
  ∃ l, events s' = events s ++ l ∧ Forall fetch_vetted l.

End Vetting.

(** Between the two states no file disappeared. *)
Definition lasting (s s' : State) : Prop :=
  ∀ path, is_Some (files s !! path) → is_Some (files s' !! path).

(** ** Page classification and paths *)


(** ** Reasoning about methods *)

Lemma bind_inv {A B} (m : M A) (k : A -> M B) (s s' : State) (r : Result B) :
  bind m k s = (s', r) →
  (∃ s1 a, m s = (s1, Ok a) ∧ k a s1 = (s', r)) ∨
  (∃ e, m s = (s', Raise e) ∧ r = Raise e).
Proof.
  unfold bind. destruct (m s) as [s1 [a|e]]; intros Hk.
  - left. eauto.
  - right. inversion Hk; subst. eauto.
Qed.

Lemma bind_ok_inv {A B} (m : M A) (k : A -> M B) (s s' : State) (b : B) :
  bind m k s = (s', Ok b) → ∃ s1 a, m s = (s1, Ok a) ∧ k a s1 = (s', Ok b).
Proof.
  intros Hb. apply bind_inv in Hb as [Hb|(e & _ & He)]; [exact Hb|discriminate].
Qed.

Lemma lift_ok_inv {A} (r : Result A) (s s' : State) (a : A) :
  lift r s = (s', Ok a) → s' = s ∧ r = Ok a.
Proof. unfold lift. intros Hr. inversion Hr; subst. auto. Qed.

Lemma ret_inv {A} (a : A) (s s' : State) (r : Result A) :
  ret a s = (s', r) → s' = s ∧ r = Ok a.
Proof. unfold ret. intros Hr. inversion Hr; subst. auto. Qed.

(** A loop invariant for [for_each]: [J] holds of the accumulator and the
    state before and after every round that ends without an exception. *)
Lemma for_each_ok_inv {A B} (J : B -> State -> Prop) (body : B -> A -> M B) :
  (∀ acc x s s' acc', J acc s → body acc x s = (s', Ok acc') → J acc' s') →
  ∀ l acc s s' acc', J acc s → for_each l acc body s = (s', Ok acc') → J acc' s'.
Proof.
  intros Hbody l. induction l as [|x l IH]; intros acc s s' acc' HJ Hrun.
  - apply ret_inv in Hrun as [-> Heq]. inversion Heq; subst. exact HJ.
  - cbn [for_each] in Hrun. apply bind_ok_inv in Hrun as (s1 & acc1 & Hx & Hrest).
    eapply IH; [|exact Hrest]. eapply Hbody; eauto.
Qed.

Section Respects.
Context (R : relation State) `{!PreOrder R}.

Lemma respects_ret {A} (a : A) : respects R (ret a).
Proof. intros s. reflexivity. Qed.

Lemma respects_raise {A} (e : string) : respects R (@raise A e).
Proof. intros s. reflexivity. Qed.

Lemma respects_lift {A} (r : Result A) : respects R (lift r).
Proof. intros s. reflexivity. Qed.

Lemma respects_get_state : respects R get_state.
Proof. intros s. reflexivity. Qed.

Lemma respects_bind {A B} (m : M A) (k : A -> M B) :
  respects R m → (∀ a, respects R (k a)) → respects R (bind m k).
Proof.
  intros Hm Hk s. unfold bind. specialize (Hm s).
  destruct (m s) as [s1 [a|e]]; cbn in *; [|exact Hm].
  etransitivity; [exact Hm|apply Hk].
Qed.

Lemma respects_try_except {A} (m : M A) (handler : string -> M A) :
  respects R m → (∀ e, respects R (handler e)) → respects R (try_except m handler).
Proof.
  intros Hm Hh s. unfold try_except. specialize (Hm s).
  destruct (m s) as [s1 [a|e]]; cbn in *; [exact Hm|].
  etransitivity; [exact Hm|apply Hh].
Qed.

Lemma respects_for_each {A B} (l : list A) (body : B -> A -> M B) :
  (∀ acc x, respects R (body acc x)) → ∀ acc, respects R (for_each l acc body).
Proof.
  intros Hbody. induction l as [|x l IH]; intros acc; cbn [for_each].
  - apply respects_ret.
  - apply respects_bind; [apply Hbody|apply IH].
Qed.

End Respects.

#[global] Instance quiet_preorder : PreOrder quiet.
Proof.
  split.
  - intros s. repeat split; try (exists []; rewrite app_nil_r; auto).
  - intros s1 s2 s3 (Hf1 & Hd1 & Hp1 & [r1 Hr1] & [l1 [Hl1 HF1]])
                     (Hf2 & Hd2 & Hp2 & [r2 Hr2] & [l2 [Hl2 HF2]]).
    repeat split; try congruence.
    + exists (r1 ++ r2). rewrite Hr2, Hr1, app_assoc. reflexivity.
    + exists (l1 ++ l2). split; [rewrite Hl2, Hl1, app_assoc; reflexivity|].
      apply Forall_app; auto.
Qed.

Lemma filter_prints_nil {P : event -> Prop} `{!∀ e, Decision (P e)} (l : list event) :
  Forall (fun e => is_print e = true) l →
  (∀ e, is_print e = true → ¬ P e) →
  filter P l = [].
Proof.
  intros Hl HP. induction Hl as [|e l He _ IH]; [reflexivity|].
  rewrite filter_cons_False by auto. exact IH.
Qed.

Lemma quiet_fetch_count (s s' : State) : quiet s s' → fetch_count s' = fetch_count s.
Proof.
  intros (_ & _ & _ & _ & l & Hl & HF). unfold fetch_count.
  rewrite Hl, filter_app, (filter_prints_nil l HF), app_nil_r; [reflexivity|].
  intros [] He; cbn in *; congruence.
Qed.

(** ** What each method does to the state *)
Section Effects.
Context {platform : Platform} {env : Env}.
Variable config : Config.

Lemma log_spec (message level : string) (s : State) :
  log config message level s = (logged config message level s, Ok tt).
Proof.
  unfold log, logged, echo, bind, modify, print, ret, set_report, add_event. cbn.
  destruct (output_verbose config); cbn; rewrite ?app_nil_r; reflexivity.
Qed.

Lemma echo_prints (log_entry : string) : Forall (fun e => is_print e = true) (echo config log_entry).
Proof. unfold echo. destruct (output_verbose config); repeat constructor. Qed.

Lemma logged_quiet (message level : string) (s : State) : quiet s (logged config message level s).
Proof.
  unfold quiet, logged; cbn. repeat split; eauto using echo_prints.
Qed.

Lemma log_quiet (message level : string) : respects quiet (log config message level).
Proof. intros s. rewrite log_spec. apply logged_quiet. Qed.

Lemma fetch_count_logged (message level : string) (s : State) :
  fetch_count (logged config message level s) = fetch_count s.
Proof. apply quiet_fetch_count, logged_quiet. Qed.

(** [download_asset] makes one retrieval, numbered by the retrievals made
    before it. When it succeeds the file is written, the local path joins
    the set and the call returns [True]; when it fails nothing but the
    report and the trace changes and the call returns [False]. *)
Lemma download_asset_spec (url : string) (local_path : Path) (s : State) :
  match urlretrieve_outcome (fetch_count s) url (path_str local_path) with
  | Ok data =>
      download_asset config url local_path s =
        (logged config ("Downloaded: " +:+ url +:+ " -> " +:+ path_str local_path) "INFO"
           (MkState (report s) (processed_files s)
              ({[path_str local_path]} ∪ downloaded_assets s)
              (<[path_str local_path := data]> (files s))
              (events s ++ [EvFetch url (path_str local_path) true])), Ok true)
  | Raise e =>
      download_asset config url local_path s =
        (logged config ("Failed to download " +:+ url +:+ ": " +:+ e) "ERROR"
           (MkState (report s) (processed_files s) (downloaded_assets s) (files s)
              (events s ++ [EvFetch url (path_str local_path) false])), Ok false)
  end.
Proof.
  unfold download_asset, try_except, bind, urlretrieve.
  destruct (urlretrieve_outcome _ _ _) as [data|e]; cbv beta iota.
  - unfold modify, ret. cbv beta iota. rewrite log_spec. reflexivity.
  - rewrite log_spec. reflexivity.
Qed.

End Effects.

(** ** Relations respected by the whole script

    A preorder on states that the primitive steps respect is respected by
    every method built from them. *)
Ltac respect_step :=
  first
    [ solve [apply respects_ret; exact _] | solve [apply respects_lift; exact _]
    | solve [apply respects_raise; exact _]
    | solve [apply respects_get_state; exact _]
    | assumption
    | match goal with H : ∀ _, _ |- respects _ _ => solve [apply H] end
    | apply respects_bind; [exact _| |intros ?]
    | apply respects_try_except; [exact _| |intros ?]
    | apply respects_for_each; [exact _|intros ? ?]
    | match goal with
      | |- respects _ (if ?b then _ else _) => destruct b
      | |- respects _ (match ?x with _ => _ end) => destruct x
      end ].

Ltac respect := repeat respect_step.

Section Frames.
Context {platform : Platform} {env : Env}.
Variable config : Config.
Context (R : relation State) `{!PreOrder R}.
Hypothesis log_respects : ∀ message level, respects R (log config message level).

Lemma sanitize_css_respects (content : string) : respects R (sanitize_css config content).
Proof. unfold sanitize_css. respect. Qed.

Lemma remove_selected_respects (selector : string) (contains : option string)
    (elements removed : list handle) (soup : Soup) (changes : nat) :
  respects R (remove_selected config selector contains elements removed soup changes).
Proof.
  revert removed soup changes.
  induction elements as [|element rest IH]; intros removed soup changes;
    cbn [remove_selected]; respect; apply IH.
Qed.

Lemma remove_vendor_elements_respects (soup : Soup) :
  respects R (remove_vendor_elements config soup).
Proof. unfold remove_vendor_elements. respect. apply remove_selected_respects. Qed.

Lemma overwrite_content_respects (tag : option handle) (value : Result string)
    (note : M unit) (acc : Soup * nat) :
  respects R note → respects R (overwrite_content tag value note acc).
Proof. intros Hnote. unfold overwrite_content. respect. Qed.

Lemma update_title_respects (file_path : Path) (acc : Soup * nat) :
  respects R (update_title config file_path acc).
Proof. unfold update_title. respect. Qed.

Lemma sanitize_metadata_respects (soup : Soup) (file_path : Path) :
  respects R (sanitize_metadata config soup file_path).
Proof.
  unfold sanitize_metadata.
  repeat first [ apply remove_vendor_elements_respects | apply update_title_respects
               | apply overwrite_content_respects | respect_step ].
Qed.

Lemma sanitize_attributes_respects (soup : Soup) :
  respects R (sanitize_attributes config soup).
Proof. unfold sanitize_attributes, rename_attribute. respect. Qed.

Hypothesis download_asset_respects :
  ∀ url local_path, respects R (download_asset config url local_path).

Lemma localize_icon_respects (file_path : Path) (acc : Soup * nat) (link : handle) :
  respects R (localize_icon config file_path acc link).
Proof. unfold localize_icon. respect. Qed.

Lemma localize_image_respects (file_path : Path) (tag : option handle) (acc : Soup * nat) :
  respects R (localize_image config file_path tag acc).
Proof. unfold localize_image. respect. Qed.

Lemma sanitize_assets_respects (soup : Soup) (file_path : Path) :
  respects R (sanitize_assets config soup file_path).
Proof.
  unfold sanitize_assets.
  repeat first [ apply localize_icon_respects | apply localize_image_respects
               | respect_step ].
Qed.

Hypothesis read_text_respects : ∀ path, respects R (read_text path).
Hypothesis write_text_respects : ∀ path content, respects R (write_text path content).
Hypothesis copy2_respects : ∀ src dst, respects R (copy2 src dst).
Hypothesis print_respects : ∀ text, respects R (print text).
Hypothesis count_respects : respects R (modify (set_processed_files (fun n => n + 1))).

Lemma backup_file_respects (file_path : Path) : respects R (backup_file config file_path).
Proof. unfold backup_file. respect. Qed.

Lemma process_file_passes_respects (file_path : Path) :
  respects R (process_file_passes config file_path).
Proof.
  unfold process_file_passes.
  repeat first [ apply backup_file_respects | apply sanitize_css_respects
               | apply sanitize_metadata_respects | apply sanitize_assets_respects
               | apply sanitize_attributes_respects | respect_step ].
Qed.

Lemma write_back_respects (file_path : Path) (soup : Soup) (total_changes : nat) :
  respects R (write_back config file_path soup total_changes).
Proof. unfold write_back. respect. Qed.

Lemma process_file_respects (file_path : Path) : respects R (process_file config file_path).
Proof.
  unfold process_file.
  repeat first [ apply process_file_passes_respects | apply write_back_respects
               | respect_step ].
Qed.

Lemma process_all_respects (html_files : list Path) :
  respects R (process_all config html_files).
Proof.
  unfold process_all.
  repeat first [ apply process_file_respects | respect_step ].
Qed.

Lemma generate_report_respects : respects R (generate_report config).
Proof. unfold generate_report. respect. Qed.

Lemma run_respects (root_dir : Path) : respects R (run config root_dir).
Proof.
  unfold run, find_html_files.
  repeat first [ apply process_all_respects | apply generate_report_respects
               | respect_step ].
Qed.

End Frames.

(** ** The document under attribute updates *)
Section Tree.

Lemma tags_of_Tag (nm : string) (a : Attrs) (c : list node) :
  Dom.tags_of (Tag nm a c) = ([], (nm, a)) :: Dom.tags_from 0 c.
Proof. reflexivity. Qed.

(** What a search looks at, [view], is not touched by an update of the
    attributes that keeps the view of every dictionary. *)
Lemma tags_from_update_view {B} (view : string * Attrs -> B) (g : Attrs -> Attrs)
    (p : handle) :
  (∀ nm a, view (nm, g a) = view (nm, a)) →
  ∀ k l,
    map (fun e => (fst e, view (snd e))) (Dom.tags_from k (Dom.update_at p (Dom.on_attrs g) l))
    = map (fun e => (fst e, view (snd e))) (Dom.tags_from k l).
Proof.
  intros Hview. induction p as [|i p' IHp]; intros k l; [reflexivity|].
  cbn [Dom.update_at]. revert i k.
  induction l as [|x r IHl]; intros i k; [destruct i; reflexivity|].
  destruct i as [|i]; cbn [alter list_alter Dom.tags_from]; rewrite !map_app.
  - f_equal. rewrite !map_map. cbn [fst snd].
    destruct p' as [|j p''].
    + destruct x as [st|nm a c]; [reflexivity|].
      cbn [Dom.on_attrs]. rewrite !tags_of_Tag. cbn [map fst snd].
      rewrite Hview. reflexivity.
    + destruct x as [st|nm a c]; [reflexivity|].
      cbn [Dom.on_contents]. rewrite !tags_of_Tag. cbn [map fst snd].
      f_equal.
      specialize (IHp 0 c).
      apply (f_equal (map (fun e => (k :: fst e, snd e)))) in IHp.
      rewrite !map_map in IHp. cbn [fst snd] in IHp. exact IHp.
  - f_equal. apply IHl.
Qed.

Lemma tags_update_view {B} (view : string * Attrs -> B) (g : Attrs -> Attrs)
    (p : handle) (soup : Soup) :
  (∀ nm a, view (nm, g a) = view (nm, a)) →
  map (fun e => (fst e, view (snd e))) (Dom.tags (Dom.update_at p (Dom.on_attrs g) soup))
  = map (fun e => (fst e, view (snd e))) (Dom.tags soup).
Proof. intros Hview. apply tags_from_update_view, Hview. Qed.

(** Two listings with the same views give the same search results. *)
Lemma filter_view {B} (view : string * Attrs -> B) (P : B -> bool)
    (l1 l2 : list (handle * (string * Attrs))) :
  map (fun e => (fst e, view (snd e))) l1 = map (fun e => (fst e, view (snd e))) l2 →
  map fst (filter (fun e => P (view (snd e)) = true) l1)
  = map fst (filter (fun e => P (view (snd e)) = true) l2).
Proof.
  revert l2. induction l1 as [|e1 l1 IH]; intros [|e2 l2] Heq; try discriminate;
    [reflexivity|].
  cbn [map] in Heq. injection Heq as Hfst Hview Hrest.
  rewrite !filter_cons, Hview.
  destruct (decide (P (view (snd e2)) = true)); cbn [map];
    [rewrite Hfst; f_equal|]; apply IH, Hrest.
Qed.

End Tree.

Lemma dict_get_set (k k' : string) (v : attr_value) (d : Attrs) :
  Dict.get k (Dict.set k' v d) = if decide (k' = k) then Some v else Dict.get k d.
Proof.
  induction d as [|[k0 v0] d IH]; cbn [Dict.get Dict.set].
  - destruct (decide (k' = k)); reflexivity.
  - destruct (decide (k0 = k')) as [->|Hne]; cbn [Dict.get].
    + destruct (decide (k' = k)); reflexivity.
    + destruct (decide (k0 = k)) as [->|Hk].
      * destruct (decide (k' = k)); [congruence|reflexivity].
      * exact IH.
Qed.

Lemma attrs_at_update (g : Attrs -> Attrs) (p q : handle) (l : list node) :
  Dom.attrs_at q (Dom.update_at p (Dom.on_attrs g) l)
  = if decide (q = p) then g <$> Dom.attrs_at q l else Dom.attrs_at q l.
Proof.
  unfold Dom.attrs_at. revert q l.
  induction p as [|i p' IH]; intros q l.
  - cbn [Dom.update_at]. destruct q; [reflexivity|].
    destruct (decide _); [discriminate|reflexivity].
  - destruct q as [|j q'].
    { destruct (decide _); [discriminate|reflexivity]. }
    cbn [Dom.update_at Dom.lookup_at].
    destruct (decide (i = j)) as [->|Hij].
    2:{ rewrite list_lookup_alter_ne by exact Hij.
        destruct (decide _) as [Heq|_]; [congruence|reflexivity]. }
    rewrite list_lookup_alter_eq.
    destruct (l !! j) as [n|]; cbn [fmap option_fmap option_map];
      [|destruct (decide _); reflexivity].
    destruct p' as [|k p''].
    + destruct q' as [|k' q''].
      * rewrite decide_True by reflexivity. destruct n; reflexivity.
      * rewrite decide_False by congruence. destruct n; reflexivity.
    + destruct q' as [|k' q''].
      * rewrite decide_False by congruence. destruct n; reflexivity.
      * destruct n as [st|nm a c]; cbn [Dom.on_contents].
        { destruct (decide _); reflexivity. }
        rewrite (IH (k' :: q'') c).
        repeat case_decide; try congruence; reflexivity.
Qed.

Section Searches.
Context {platform : Platform} {env : Env}.

Lemma find_all_set_attr (nm attr against : string) (tag : handle) (key : string)
    (v : attr_value) (soup : Soup) :
  key ≠ attr →
  Bs4.find_all nm attr against (set_attr tag key v soup) = Bs4.find_all nm attr against soup.
Proof.
  intros Hkey. unfold Bs4.find_all, set_attr.
  pose (view := fun e : string * Attrs => (fst e, Dict.get attr (snd e))).
  pose (P := fun b : string * option attr_value =>
               bool_decide (fst b = nm) &&
               match snd b with Some v => Bs4.value_matches v against | None => false end).
  apply (filter_view view P).
  apply tags_update_view. intros nm' a. unfold view. cbn [fst snd].
  rewrite dict_get_set, decide_False by exact Hkey. reflexivity.
Qed.

Lemma find_set_attr (nm attr against : string) (tag : handle) (key : string)
    (v : attr_value) (soup : Soup) :
  key ≠ attr →
  Bs4.find nm attr against (set_attr tag key v soup) = Bs4.find nm attr against soup.
Proof. intros Hkey. unfold Bs4.find. rewrite find_all_set_attr by exact Hkey. reflexivity. Qed.

Lemma attrs_at_set_attr (tag q : handle) (key : string) (v : attr_value) (soup : Soup) :
  Dom.attrs_at q (set_attr tag key v soup)
  = if decide (q = tag) then Dict.set key v <$> Dom.attrs_at q soup else Dom.attrs_at q soup.
Proof. apply attrs_at_update. Qed.

End Searches.

(** ** The set of downloaded assets *)

Lemma fetched_app (l1 l2 : list event) : fetched (l1 ++ l2) = fetched l1 ∪ fetched l2.
Proof.
  induction l1 as [|e l1 IH]; cbn [app fetched]; [set_solver|].
  destruct e as [url p [|]| | |]; rewrite ?IH; set_solver.
Qed.

Lemma fetched_no_fetch (l : list event) :
  Forall (fun e => is_fetch e = false) l → fetched l = ∅.
Proof.
  induction 1 as [|e l He _ IH]; [reflexivity|].
  destruct e as [url p [|]| | |]; cbn in *; congruence.
Qed.

#[global] Instance accounted_preorder : PreOrder accounted.
Proof.
  split.
  - intros s. exists []. rewrite app_nil_r. split; [reflexivity|]. cbn. set_solver.
  - intros s1 s2 s3 (l1 & He1 & Hd1) (l2 & He2 & Hd2). exists (l1 ++ l2). split.
    + rewrite He2, He1, app_assoc. reflexivity.
    + rewrite Hd2, Hd1, fetched_app. set_solver.
Qed.

(** A step that leaves the set alone and makes no retrieval. *)
Lemma accounted_no_fetch (s s' : State) (l : list event) :
  events s' = events s ++ l → Forall (fun e => is_fetch e = false) l →
  downloaded_assets s' = downloaded_assets s → accounted s s'.
Proof.
  intros He Hl Hd. exists l. split; [exact He|].
  rewrite Hd, (fetched_no_fetch l Hl). set_solver.
Qed.

Lemma prints_no_fetch (l : list event) :
  Forall (fun e => is_print e = true) l → Forall (fun e => is_fetch e = false) l.
Proof. intros Hl. eapply Forall_impl; [exact Hl|]. intros []; cbn; congruence. Qed.

Lemma quiet_accounted (s s' : State) : quiet s s' → accounted s s'.
Proof.
  intros (_ & Hd & _ & _ & l & He & Hl).
  eapply accounted_no_fetch; eauto using prints_no_fetch.
Qed.

Section Accounting.
Context {platform : Platform} {env : Env}.
Variable config : Config.

Lemma log_accounted (message level : string) : respects accounted (log config message level).
Proof. intros s. apply quiet_accounted, log_quiet. Qed.

Lemma download_asset_accounted (url : string) (local_path : Path) :
  respects accounted (download_asset config url local_path).
Proof.
  intros s. pose proof (download_asset_spec config url local_path s) as Hspec.
  destruct (urlretrieve_outcome _ _ _) as [data|e]; rewrite Hspec; cbn [fst].
  - etransitivity; [|apply quiet_accounted, logged_quiet].
    exists [EvFetch url (path_str local_path) true]. cbn. split; [reflexivity|set_solver].
  - etransitivity; [|apply quiet_accounted, logged_quiet].
    exists [EvFetch url (path_str local_path) false]. cbn. split; [reflexivity|set_solver].
Qed.

Lemma read_text_accounted (path : string) : respects accounted (read_text path).
Proof. intros s. unfold read_text. destruct (files s !! path); reflexivity. Qed.

Lemma write_text_accounted (path content : string) :
  respects accounted (write_text path content).
Proof.
  intros s. apply (accounted_no_fetch _ _ [EvWrite path content]);
    [reflexivity|repeat constructor|reflexivity].
Qed.

Lemma copy2_accounted (src dst : string) : respects accounted (copy2 src dst).
Proof.
  intros s. unfold copy2. destruct (files s !! src); [|reflexivity].
  destruct (decide (src = dst)); [reflexivity|].
  apply (accounted_no_fetch _ _ [EvCopy src dst]);
    [reflexivity|repeat constructor|reflexivity].
Qed.

Lemma print_accounted (text : string) : respects accounted (print text).
Proof.
  intros s. apply (accounted_no_fetch _ _ [EvPrint text]);
    [reflexivity|repeat constructor|reflexivity].
Qed.

Lemma count_accounted : respects accounted (modify (set_processed_files (fun n => n + 1))).
Proof.
  intros s. apply (accounted_no_fetch _ _ []);
    [cbn; rewrite app_nil_r; reflexivity|constructor|reflexivity].
Qed.

Lemma run_accounted (root_dir : Path) : respects accounted (run config root_dir).
Proof.
  apply run_respects;
    auto using log_accounted, download_asset_accounted, read_text_accounted,
      write_text_accounted, copy2_accounted, print_accounted, count_accounted.
  exact _.
Qed.

End Accounting.

(** ** The asset pass *)

Lemma count_ok_app (l1 l2 : list event) : count_ok (l1 ++ l2) = count_ok l1 + count_ok l2.
Proof. unfold count_ok. rewrite filter_app, length_app. reflexivity. Qed.

Lemma count_ok_prints (l : list event) :
  Forall (fun e => is_print e = true) l → count_ok l = 0.
Proof.
  intros Hl. unfold count_ok. rewrite (filter_prints_nil l Hl); [reflexivity|].
  intros [] He; cbn in *; congruence.
Qed.

Lemma prints_no_write (l : list event) :
  Forall (fun e => is_print e = true) l → Forall (fun e => is_write e = false) l.
Proof. intros Hl. eapply Forall_impl; [exact Hl|]. intros []; cbn; congruence. Qed.

Section Assets.
Context {platform : Platform} {env : Env}.
Variable config : Config.

Lemma get_attr_attr_of (h : handle) (k : string) (soup : Soup) :
  get_attr h k (AStr "") soup = default (AStr "") (attr_of soup h k).
Proof.
  unfold get_attr, attr_of. destruct (Dom.attrs_at h soup) as [a|]; [|reflexivity].
  cbn. destruct (Dict.get k a); reflexivity.
Qed.

Lemma getitem_attr_of (h : handle) (k : string) (soup : Soup) (v : attr_value) :
  getitem h k soup = Ok v → attr_of soup h k = Some v.
Proof.
  unfold getitem, attr_of. destruct (Dom.attrs_at h soup ≫= Dict.get k); congruence.
Qed.

Lemma attr_of_set_attr (tag : handle) (key : string) (v : attr_value) (soup : Soup)
    (h : handle) (k : string) :
  (h, k) ≠ (tag, key) → attr_of (set_attr tag key v soup) h k = attr_of soup h k.
Proof.
  intros Hne. unfold attr_of. rewrite attrs_at_set_attr.
  destruct (decide (h = tag)) as [->|Hh]; [|reflexivity].
  destruct (Dom.attrs_at tag soup) as [a|]; [|reflexivity]. cbn.
  rewrite dict_get_set. rewrite decide_False; [reflexivity|congruence].
Qed.


(** The outcome of [download_asset] in short: one retrieval, then prints. *)
Lemma download_asset_effect (url : string) (local_path : Path) (s : State) :
  ∃ (ok : bool) (prints : list event),
    Forall (fun e => is_print e = true) prints ∧
    snd (download_asset config url local_path s) = Ok ok ∧
    events (fst (download_asset config url local_path s))
    = events s ++ EvFetch url (path_str local_path) ok :: prints ∧
    processed_files (fst (download_asset config url local_path s)) = processed_files s ∧
    (ok = true ↔ ∃ data, urlretrieve_outcome (fetch_count s) url (path_str local_path) = Ok data) ∧
    (ok = false →
       files (fst (download_asset config url local_path s)) = files s ∧
       downloaded_assets (fst (download_asset config url local_path s)) = downloaded_assets s) ∧
    (ok = true →
       downloaded_assets (fst (download_asset config url local_path s))
       = {[path_str local_path]} ∪ downloaded_assets s).
Proof.
  pose proof (download_asset_spec config url local_path s) as Hspec.
  destruct (urlretrieve_outcome _ _ _) as [data|e] eqn:Hout; rewrite Hspec; cbn.
  - exists true, (echo config ("[INFO] Downloaded: " +:+ url +:+ " -> " +:+ path_str local_path)).
    split; [apply echo_prints|]. split; [reflexivity|].
    split; [rewrite <- app_assoc; reflexivity|]. split; [reflexivity|].
    split; [split; eauto|]. split; [discriminate|reflexivity].
  - exists false, (echo config ("[ERROR] Failed to download " +:+ url +:+ ": " +:+ e)).
    split; [apply echo_prints|]. split; [reflexivity|].
    split; [rewrite <- app_assoc; reflexivity|]. split; [reflexivity|].
    split; [split; [discriminate|intros [data Hd]; discriminate]|].
    split; [split; reflexivity|discriminate].
Qed.

Lemma asset_inv_start (soup0 : Soup) (s0 : State) (n0 : nat) :
  asset_inv soup0 s0 n0 (soup0, n0) s0.
Proof.
  exists []. rewrite app_nil_r. cbn. repeat split; auto.
  intros h k Hne. contradiction.
Qed.

(** One download for the attribute [key] of [tag], and the rewrite of the
    attribute when it succeeds. *)
Lemma asset_inv_download (soup0 : Soup) (s0 : State) (n0 : nat) (acc : Soup * nat)
    (s : State) (tag : handle) (key : string) (local_path : Path) (v : attr_value) :
  asset_inv soup0 s0 n0 acc s →
  let r := download_asset config (url_of (attr_of (fst acc) tag key)) local_path s in
  match snd r with
  | Ok true => asset_inv soup0 s0 n0 (set_attr tag key v (fst acc), snd acc + 1) (fst r)
  | Ok false => asset_inv soup0 s0 n0 acc (fst r)
  | Raise _ => False
  end.
Proof.
  intros (l & He & Hw & Hn & Hp & Hf & Ha) r.
  destruct (download_asset_effect (url_of (attr_of (fst acc) tag key)) local_path s)
    as (ok & prints & Hprints & Hok & Hev & Hproc & _ & Hfail & _).
  fold r in Hok, Hev, Hproc, Hfail. rewrite Hok.
  set (ev := EvFetch (url_of (attr_of (fst acc) tag key)) (path_str local_path) ok) in *.
  assert (Hevents : events (fst r) = events s0 ++ (l ++ ev :: prints)).
  { rewrite Hev, He, <- app_assoc. reflexivity. }
  assert (Hwrites : Forall (fun e => is_write e = false) (l ++ ev :: prints)).
  { apply Forall_app. split; [exact Hw|]. constructor; [reflexivity|].
    apply prints_no_write, Hprints. }
  assert (Hcount : count_ok (l ++ ev :: prints) = count_ok l + (if ok then 1 else 0)).
  { rewrite count_ok_app. f_equal. change (ev :: prints) with ([ev] ++ prints).
    rewrite count_ok_app, (count_ok_prints prints Hprints).
    unfold ev. destruct ok; reflexivity. }
  destruct ok.
  - exists (l ++ ev :: prints). split; [exact Hevents|]. split; [exact Hwrites|].
    split; [cbn [snd]; rewrite Hcount, Hn; lia|]. split; [congruence|].
    split; [rewrite Hcount; lia|].
    intros h k Hne. cbn [fst] in Hne.
    destruct (decide ((h, k) = (tag, key))) as [Heq|Hother].
    + injection Heq as -> ->.
      destruct (decide (attr_of (fst acc) tag key = attr_of soup0 tag key)) as [Hsame|Hdiff].
      * exists (path_str local_path). rewrite <- Hsame.
        apply elem_of_app. right. left.
      * destruct (Ha tag key Hdiff) as [lp Hlp]. exists lp.
        apply elem_of_app. left. exact Hlp.
    + rewrite attr_of_set_attr in Hne by exact Hother.
      destruct (Ha h k Hne) as [lp Hlp]. exists lp. apply elem_of_app. left. exact Hlp.
  - destruct (Hfail eq_refl) as [Hfiles _].
    exists (l ++ ev :: prints). split; [exact Hevents|]. split; [exact Hwrites|].
    split; [rewrite Hcount, Hn; lia|]. split; [congruence|].
    split; [rewrite Hcount, Hfiles; intros; apply Hf; lia|].
    intros h k Hne. destruct (Ha h k Hne) as [lp Hlp]. exists lp.
    apply elem_of_app. left. exact Hlp.
Qed.

End Assets.

Section AssetPass.
Context {platform : Platform} {env : Env}.
Variable config : Config.

Lemma download_asset_run (url : string) (local_path : Path) (s s1 : State) (r : Result bool) :
  download_asset config url local_path s = (s1, r) →
  fst (download_asset config url local_path s) = s1 ∧
  snd (download_asset config url local_path s) = r.
Proof. intros ->. split; reflexivity. Qed.

Lemma localize_icon_inv (soup0 : Soup) (s0 : State) (n0 : nat) (file_path : Path)
    (acc : Soup * nat) (link : handle) (s s' : State) (acc' : Soup * nat) :
  asset_inv soup0 s0 n0 acc s →
  localize_icon config file_path acc link s = (s', Ok acc') →
  asset_inv soup0 s0 n0 acc' s'.
Proof.
  intros Hinv Hrun. unfold localize_icon in Hrun.
  apply bind_ok_inv in Hrun as (s1 & eligible & Hel & Hrun).
  apply lift_ok_inv in Hel as [-> Hel].
  destruct eligible.
  2:{ apply ret_inv in Hrun as [-> Heq]. simplify_eq. exact Hinv. }
  rewrite get_attr_attr_of in Hrun.
  fold (url_of (attr_of (fst acc) link "href")) in Hrun.
  set (local_path := joinpath _ _) in Hrun.
  apply bind_ok_inv in Hrun as (s2 & ok & Hdl & Hrun).
  apply download_asset_run in Hdl as [Hs2 Hok].
  pose proof (asset_inv_download config soup0 s0 n0 acc s link "href" local_path
                (AStr (get_relative_path file_path local_path)) Hinv) as Hstep.
  cbv zeta in Hstep. rewrite Hok, Hs2 in Hstep.
  destruct ok; apply ret_inv in Hrun as [-> Heq]; simplify_eq; exact Hstep.
Qed.

Lemma localize_image_inv (soup0 : Soup) (s0 : State) (n0 : nat) (file_path : Path)
    (tag : option handle) (acc : Soup * nat) (s s' : State) (acc' : Soup * nat) :
  asset_inv soup0 s0 n0 acc s →
  localize_image config file_path tag acc s = (s', Ok acc') →
  asset_inv soup0 s0 n0 acc' s'.
Proof.
  intros Hinv Hrun. unfold localize_image in Hrun.
  destruct tag as [image|].
  2:{ apply ret_inv in Hrun as [-> Heq]. simplify_eq. exact Hinv. }
  apply bind_ok_inv in Hrun as (s1 & eligible & Hel & Hrun).
  apply lift_ok_inv in Hel as [-> Hel].
  destruct eligible.
  2:{ apply ret_inv in Hrun as [-> Heq]. simplify_eq. exact Hinv. }
  apply bind_ok_inv in Hrun as (s1 & url & Hurl & Hrun).
  apply lift_ok_inv in Hurl as [-> Hurl].
  apply getitem_attr_of in Hurl.
  set (local_path := joinpath _ _) in Hrun.
  apply bind_ok_inv in Hrun as (s2 & ok & Hdl & Hrun).
  replace (py_str url) with (url_of (attr_of (fst acc) image "content")) in Hdl
    by (rewrite Hurl; reflexivity).
  apply download_asset_run in Hdl as [Hs2 Hok].
  pose proof (asset_inv_download config soup0 s0 n0 acc s image "content" local_path
                (AStr (get_relative_path file_path local_path)) Hinv) as Hstep.
  cbv zeta in Hstep. rewrite Hok, Hs2 in Hstep.
  destruct ok; apply ret_inv in Hrun as [-> Heq]; simplify_eq; exact Hstep.
Qed.

Lemma sanitize_assets_inv (soup : Soup) (file_path : Path) (s s' : State)
    (acc' : Soup * nat) :
  sanitize_assets config soup file_path s = (s', Ok acc') →
  asset_inv soup s 0 acc' s'.
Proof.
  intros Hrun. unfold sanitize_assets in Hrun.
  apply bind_ok_inv in Hrun as (s1 & acc1 & Hicons & Hrun).
  apply bind_ok_inv in Hrun as (s2 & acc2 & Hog & Hrun).
  apply bind_ok_inv in Hrun as (s3 & acc3 & Htw & Hrun).
  apply ret_inv in Hrun as [-> Heq]. simplify_eq.
  eapply localize_image_inv; [|exact Htw].
  eapply localize_image_inv; [|exact Hog].
  eapply (for_each_ok_inv (asset_inv soup s 0)); [|apply asset_inv_start|exact Hicons].
  intros acc link sa sb accb Ha Hb. eapply localize_icon_inv; eauto.
Qed.

End AssetPass.

(** ** One file *)

#[global] Instance unwritten_preorder : PreOrder unwritten.
Proof.
  split.
  - intros s. exists []. rewrite app_nil_r. repeat split; auto.
  - intros s1 s2 s3 (l1 & He1 & Hw1 & Hp1) (l2 & He2 & Hw2 & Hp2). exists (l1 ++ l2).
    split; [rewrite He2, He1, app_assoc; reflexivity|].
    split; [apply Forall_app; auto|congruence].
Qed.

Lemma quiet_unwritten (s s' : State) : quiet s s' → unwritten s s'.
Proof.
  intros (_ & _ & Hp & _ & l & He & Hl). exists l. eauto using prints_no_write.
Qed.

Section OneFile.
Context {platform : Platform} {env : Env}.
Variable config : Config.

Lemma sanitize_css_quiet (content : string) : respects quiet (sanitize_css config content).
Proof. apply sanitize_css_respects; [exact _|apply log_quiet]. Qed.

Lemma sanitize_metadata_quiet (soup : Soup) (file_path : Path) :
  respects quiet (sanitize_metadata config soup file_path).
Proof. apply sanitize_metadata_respects; [exact _|apply log_quiet]. Qed.

Lemma sanitize_attributes_quiet (soup : Soup) :
  respects quiet (sanitize_attributes config soup).
Proof. apply sanitize_attributes_respects; [exact _|apply log_quiet]. Qed.

Lemma respects_run {A} (R : relation State) (m : M A) (s s' : State) (r : Result A) :
  respects R m → m s = (s', r) → R s s'.
Proof. intros Hm Hrun. specialize (Hm s). rewrite Hrun in Hm. exact Hm. Qed.

Lemma process_file_passes_unwritten (file_path : Path) :
  respects unwritten (process_file_passes config file_path).
Proof.
  apply process_file_passes_respects; [exact _| | | |].
  - intros message level s. apply quiet_unwritten, log_quiet.
  - intros url local_path s.
    destruct (download_asset_effect config url local_path s)
      as (ok & prints & Hprints & _ & Hev & Hproc & _).
    exists (EvFetch url (path_str local_path) ok :: prints).
    split; [exact Hev|]. split; [|exact Hproc].
    constructor; [reflexivity|apply prints_no_write, Hprints].
  - intros path s. unfold read_text. destruct (files s !! path); reflexivity.
  - intros src dst s. unfold copy2. destruct (files s !! src); [|reflexivity].
    destruct (decide (src = dst)); [reflexivity|].
    exists [EvCopy src dst]. repeat split; auto.
Qed.

(** The backup does not touch the file it copies. *)
Lemma backup_file_keeps (file_path : Path) (s s' : State) :
  backup_file config file_path s = (s', Ok tt) →
  files s' !! path_str file_path = files s !! path_str file_path.
Proof.
  unfold backup_file. destruct (output_backup config).
  2:{ intros Hrun. apply ret_inv in Hrun as [-> _]. reflexivity. }
  intros Hrun. apply bind_ok_inv in Hrun as (s1 & [] & Hcopy & Hlog).
  rewrite log_spec in Hlog. injection Hlog as <-. cbn [files logged].
  unfold copy2 in Hcopy.
  destruct (files s !! path_str file_path) as [c|] eqn:Hsrc; [|discriminate].
  destruct (decide _) as [|Hne]; [discriminate|].
  injection Hcopy as <-. cbn. rewrite lookup_insert_ne by congruence. exact Hsrc.
Qed.

(** The steps of [process_file_passes] when it returns: the total is the
    sum of the counts of the four passes. *)
Lemma process_file_passes_inv (file_path : Path) (s s' : State) (soup : Soup)
    (total : nat) :
  process_file_passes config file_path s = (s', Ok (soup, total)) →
  ∃ s0 sa sb sc sd content css soup0 meta assets attributes,
    files s0 = files s ∧
    backup_file config file_path s0 = (sa, Ok tt) ∧
    files sa !! path_str file_path = Some content ∧
    sanitize_css config content sa = (sb, Ok css) ∧
    html_parser (fst css) = Ok soup0 ∧
    sanitize_metadata config soup0 file_path sb = (sc, Ok meta) ∧
    sanitize_assets config (fst meta) file_path sc = (sd, Ok assets) ∧
    sanitize_attributes config (fst assets) sd = (s', Ok (soup, attributes)) ∧
    total = snd css + snd meta + snd assets + attributes.
Proof.
  intros Hrun. unfold process_file_passes in Hrun.
  apply bind_ok_inv in Hrun as (s1 & [] & Hl1 & Hrun). rewrite log_spec in Hl1.
  apply bind_ok_inv in Hrun as (s2 & [] & Hl2 & Hrun). rewrite log_spec in Hl2.
  apply bind_ok_inv in Hrun as (s3 & [] & Hl3 & Hrun). rewrite log_spec in Hl3.
  apply bind_ok_inv in Hrun as (sa & [] & Hbackup & Hrun).
  apply bind_ok_inv in Hrun as (sa' & content & Hread & Hrun).
  apply bind_ok_inv in Hrun as (sb & css & Hcss & Hrun).
  apply bind_ok_inv in Hrun as (sb' & soup0 & Hparse & Hrun).
  apply lift_ok_inv in Hparse as [-> Hparse].
  apply bind_ok_inv in Hrun as (sc & meta & Hmeta & Hrun).
  apply bind_ok_inv in Hrun as (sd & assets & Hassets & Hrun).
  apply bind_ok_inv in Hrun as (se & attributes & Hattrs & Hrun).
  apply ret_inv in Hrun as [-> Heq]. injection Heq as Hsoup Htotal.
  unfold read_text in Hread.
  destruct (files sa !! path_str file_path) as [c|] eqn:Hfile; [|discriminate].
  injection Hread as <- <-.
  exists s3, sa, sb, sc, sd, c, css, soup0, meta, assets, (snd attributes).
  split; [simplify_eq; reflexivity|]. split; [exact Hbackup|]. split; [exact Hfile|].
  split; [exact Hcss|]. split; [exact Hparse|]. split; [exact Hmeta|].
  split; [exact Hassets|]. split; [|lia].
  rewrite Hattrs. destruct attributes; cbn in *; congruence.
Qed.

(** Without a change the passes leave the file on disk as it was. *)
Lemma process_file_passes_keeps (file_path : Path) (s s' : State) (soup : Soup) :
  process_file_passes config file_path s = (s', Ok (soup, 0)) →
  files s' !! path_str file_path = files s !! path_str file_path.
Proof.
  intros Hrun. apply process_file_passes_inv in Hrun
    as (s0 & sa & sb & sc & sd & content & css & soup0 & meta & assets & attributes
        & Hs0 & Hbackup & _ & Hcss & _ & Hmeta & Hassets & Hattrs & Htotal).
  apply backup_file_keeps in Hbackup.
  apply (respects_run quiet _ _ _ _ (sanitize_css_quiet content)) in Hcss as (Hf1 & _).
  apply (respects_run quiet _ _ _ _ (sanitize_metadata_quiet soup0 file_path)) in Hmeta
    as (Hf2 & _).
  apply (respects_run quiet _ _ _ _ (sanitize_attributes_quiet (fst assets))) in Hattrs
    as (Hf4 & _).
  apply sanitize_assets_inv in Hassets as (l & _ & _ & Hn & _ & Hsame & _).
  destruct Hsame as [Hf3 _]; [lia|].
  rewrite Hf4, Hf3, Hf2, Hf1, Hbackup, Hs0. reflexivity.
Qed.

End OneFile.

(** ** The run *)

#[global] Instance report_grows_preorder : PreOrder report_grows.
Proof.
  split.
  - intros s. exists []. rewrite app_nil_r. reflexivity.
  - intros s1 s2 s3 [l1 H1] [l2 H2]. exists (l1 ++ l2).
    rewrite H2, H1, app_assoc. reflexivity.
Qed.

Section Run.
Context {platform : Platform} {env : Env}.
Variable config : Config.

Lemma attempt_spec (file_path : Path) (s : State) :
  attempt config file_path s =
    match process_file config file_path s with
    | (s1, Ok _) => (s1, Ok tt)
    | (s1, Raise e) =>
        (logged config ("Error processing " +:+ path_str file_path +:+ ": " +:+ e) "ERROR" s1,
         Ok tt)
    end.
Proof.
  unfold attempt, try_except. destruct (process_file config file_path s) as [s1 [[]|e]];
    [reflexivity|apply log_spec].
Qed.

Lemma attempt_ok (file_path : Path) (s : State) : snd (attempt config file_path s) = Ok tt.
Proof.
  rewrite attempt_spec. destruct (process_file config file_path s) as [s1 [[]|e]]; reflexivity.
Qed.

Lemma process_all_cons (file_path : Path) (rest : list Path) (s : State) :
  process_all config (file_path :: rest) s
  = process_all config rest (fst (attempt config file_path s)).
Proof.
  unfold process_all. cbn [for_each]. unfold bind. fold (attempt config file_path).
  pose proof (attempt_ok file_path s) as Hok.
  destruct (attempt config file_path s) as [s1 r]. cbn in Hok. subst r. reflexivity.
Qed.

Lemma process_all_ok (html_files : list Path) (s : State) :
  snd (process_all config html_files s) = Ok tt.
Proof.
  revert s. induction html_files as [|file_path rest IH]; intros s; [reflexivity|].
  rewrite process_all_cons. apply IH.
Qed.




End Run.

(** ** The metadata pass *)

Lemma returns_ret {A} (a : A) : returns (ret a) a.
Proof. intros s. reflexivity. Qed.

Lemma returns_lift {A} (a : A) : returns (lift (Ok a)) a.
Proof. intros s. reflexivity. Qed.

Lemma returns_bind {A B} (m : M A) (k : A -> M B) (a : A) (b : B) :
  returns m a → returns (k a) b → returns (bind m k) b.
Proof.
  intros Hm Hk s. unfold bind. specialize (Hm s).
  destruct (m s) as [s1 r]. cbn in Hm. subst r. apply Hk.
Qed.

Lemma returns_eq {A} (m : M A) (a b : A) : returns m a → a = b → returns m b.
Proof. intros Hm <-. exact Hm. Qed.

Section Metadata.
Context {platform : Platform} {env : Env}.
Variable config : Config.

Lemma find_overwrite (nm attr against : string) (soup : Soup)
    (target : option handle * string) :
  attr ≠ "content" →
  Bs4.find nm attr against (overwrite soup target) = Bs4.find nm attr against soup.
Proof.
  intros Hattr. unfold overwrite. destruct (fst target); [|reflexivity].
  apply find_set_attr. congruence.
Qed.

Lemma returns_log (message level : string) : returns (log config message level) tt.
Proof. intros s. rewrite log_spec. reflexivity. Qed.

Lemma overwrite_content_returns (tag : option handle) (v : string) (note : M unit)
    (acc : Soup * nat) :
  returns note tt →
  returns (overwrite_content tag (Ok v) note acc)
          (overwrite (fst acc) (tag, v), snd acc + present tag).
Proof.
  intros Hnote. unfold overwrite_content, overwrite. destruct tag as [t|]; cbn [fst snd present].
  - eapply returns_bind; [apply returns_lift|].
    eapply returns_bind; [exact Hnote|]. apply returns_ret.
  - rewrite Nat.add_0_r. destruct acc. apply returns_ret.
Qed.

Lemma overwrite_content_absent (value : Result string) (note : M unit) (acc : Soup * nat) :
  returns (overwrite_content None value note acc) acc.
Proof. apply returns_ret. Qed.

Lemma update_title_returns (file_path : Path) (acc : Soup * nat) (new_title : string) :
  _get_page_title config file_path = Ok new_title →
  returns (update_title config file_path acc)
          (match Bs4.find_name "title" (fst acc) with
           | Some title_tag => set_string title_tag new_title (fst acc)
           | None => fst acc
           end,
           snd acc + present (Bs4.find_name "title" (fst acc))).
Proof.
  intros Htitle. unfold update_title. destruct (Bs4.find_name "title" (fst acc)) as [t|];
    cbn [present].
  - rewrite Htitle. eapply returns_bind; [apply returns_lift|].
    eapply returns_bind; [apply returns_log|]. apply returns_ret.
  - rewrite Nat.add_0_r. destruct acc. apply returns_ret.
Qed.

End Metadata.

(** ** Repeated downloads *)


Section Repeated.
Context {platform : Platform} {env : Env}.
Variable config : Config.

Lemma attr_of_getitem (h : handle) (k : string) (soup : Soup) (v : attr_value) :
  attr_of soup h k = Some v → getitem h k soup = Ok v.
Proof. unfold getitem, attr_of. intros ->. reflexivity. Qed.

(** An eligible preview image tag: one download to the shared local
    path, and the rewrite of the reference when it succeeds. *)
Lemma localize_image_eligible (file_path : Path) (image : handle) (acc : Soup * nat)
    (s : State) (u : string) :
  attr_of (fst acc) image "content" = Some (AStr u) →
  should_download_asset config (AStr u) = Ok true →
  let local_path := joinpath (assets_local_path config) "og-preview.png" in
  ∃ ok, snd (download_asset config u local_path s) = Ok ok ∧
        localize_image config file_path (Some image) acc s
        = (fst (download_asset config u local_path s),
           Ok (if ok
               then (set_attr image "content"
                       (AStr (get_relative_path file_path local_path)) (fst acc),
                     snd acc + 1)
               else acc)).
Proof.
  intros Hattr Hel local_path.
  destruct (download_asset_effect config u local_path s) as (ok & _ & _ & Hok & _).
  exists ok. split; [exact Hok|].
  unfold localize_image. rewrite get_attr_attr_of, Hattr.
  change (default (AStr "") (Some (AStr u))) with (AStr u).
  unfold bind at 1. unfold lift at 1. rewrite Hel.
  unfold bind at 1. rewrite (attr_of_getitem _ _ _ _ Hattr). unfold lift at 1.
  unfold bind. cbn [py_str]. fold local_path.
  destruct (download_asset config u local_path s) as [s1 r]. cbn in Hok. subst r.
  destruct ok; reflexivity.
Qed.

(** An eligible icon link: one download to the local path that the file
    name of the favicon gives. *)
Lemma localize_icon_eligible (file_path : Path) (link : handle) (acc : Soup * nat)
    (s : State) (u : string) :
  get_attr link "href" (AStr "") (fst acc) = AStr u →
  should_download_asset config (AStr u) = Ok true →
  let local_path := joinpath (assets_local_path config)
                      (favicon_filename u (tag_str link (fst acc))) in
  ∃ ok, snd (download_asset config u local_path s) = Ok ok ∧
        localize_icon config file_path acc link s
        = (fst (download_asset config u local_path s),
           Ok (if ok
               then (set_attr link "href"
                       (AStr (get_relative_path file_path local_path)) (fst acc),
                     snd acc + 1)
               else acc)).
Proof.
  intros Hattr Hel local_path.
  destruct (download_asset_effect config u local_path s) as (ok & _ & _ & Hok & _).
  exists ok. split; [exact Hok|].
  unfold localize_icon. rewrite Hattr.
  unfold bind at 1. unfold lift at 1. rewrite Hel.
  unfold bind. cbn [py_str]. fold local_path.
  destruct (download_asset config u local_path s) as [s1 r]. cbn in Hok. subst r.
  destruct ok; reflexivity.
Qed.

End Repeated.

(** ** Failed downloads and the write-back *)
Section WriteBack.
Context {platform : Platform} {env : Env}.
Variable config : Config.

Lemma download_asset_fails (url : string) (local_path : Path) (s : State) :
  (∀ data, urlretrieve_outcome (fetch_count s) url (path_str local_path) ≠ Ok data) →
  snd (download_asset config url local_path s) = Ok false.
Proof.
  intros Hfail.
  destruct (download_asset_effect config url local_path s)
    as (ok & _ & _ & Hok & _ & _ & Hiff & _).
  rewrite Hok. destruct ok; [|reflexivity].
  destruct Hiff as [Hdata _]. destruct (Hdata eq_refl) as [data Hd].
  destruct (Hfail data Hd).
Qed.

Lemma process_file_writes (file_path : Path) (s s1 : State) (soup : Soup) (total : nat) :
  process_file_passes config file_path s = (s1, Ok (soup, total)) →
  0 < total →
  snd (process_file config file_path s) = Ok tt ∧
  files (fst (process_file config file_path s)) !! path_str file_path
  = Some (soup_str soup).
Proof.
  intros Hrun Hpos. unfold process_file, bind. rewrite Hrun. cbn [fst snd].
  unfold write_back. destruct (decide (0 < total)) as [_|Hno]; [|contradiction].
  unfold bind, write_text, modify. cbv beta iota. rewrite log_spec. cbv beta iota.
  split; [reflexivity|]. cbn. apply lookup_insert_eq.
Qed.

End WriteBack.

(** ** The shared local path of the preview images *)







Section Shared.
Context {platform : Platform} {env : Env}.
Variable config : Config.





End Shared.

(** ** The properties of the script *)
Section Claims.
Context {platform : Platform} {env : Env}.
Variable config : Config.


(** C2. A file is rewritten exactly when its total change count, the sum
    of the counts of the CSS, metadata, asset and attribute passes, is
    positive: then the serialized document is written to it and the file
    is counted as processed; with a count of zero nothing is written to
    it and its content stays what it was. *)
Theorem rewritten_iff_changed (file_path : Path) (s s1 : State) (soup : Soup)
    (total : nat) :
  process_file_passes config file_path s = (s1, Ok (soup, total)) →
  (∃ sa sb sc sd content css soup0 meta assets attributes,
     sanitize_css config content sa = (sb, Ok css) ∧
     html_parser (fst css) = Ok soup0 ∧
     sanitize_metadata config soup0 file_path sb = (sc, Ok meta) ∧
     sanitize_assets config (fst meta) file_path sc = (sd, Ok assets) ∧
     sanitize_attributes config (fst assets) sd = (s1, Ok (soup, attributes)) ∧
     total = snd css + snd meta + snd assets + attributes) ∧
  snd (process_file config file_path s) = Ok tt ∧
  ∃ l, events (fst (process_file config file_path s)) = events s ++ l ∧
       ((∃ content, EvWrite (path_str file_path) content ∈ l) ↔ 0 < total) ∧
       (0 < total →
          EvWrite (path_str file_path) (soup_str soup) ∈ l ∧
          files (fst (process_file config file_path s)) !! path_str file_path
          = Some (soup_str soup) ∧
          processed_files (fst (process_file config file_path s)) = processed_files s + 1) ∧
       (total = 0 →
          files (fst (process_file config file_path s)) !! path_str file_path
          = files s !! path_str file_path ∧
          processed_files (fst (process_file config file_path s)) = processed_files s).
Proof.
  intros Hrun. split.
  { apply process_file_passes_inv in Hrun
      as (s0 & sa & sb & sc & sd & content & css & soup0 & meta & assets & attributes
          & _ & _ & _ & Hcss & Hparse & Hmeta & Hassets & Hattrs & Htotal).
    exists sa, sb, sc, sd, content, css, soup0, meta, assets, attributes. auto 10. }
  destruct (respects_run unwritten _ _ _ _ (process_file_passes_unwritten config file_path) Hrun)
    as (l1 & He1 & Hw1 & Hp1).
  unfold process_file, bind. rewrite Hrun. cbn [fst snd]. unfold write_back.
  destruct (decide (0 < total)) as [Hpos|Hzero].
  - unfold bind, write_text, modify. cbv beta iota. rewrite log_spec. cbv beta iota.
    split; [reflexivity|]. cbn [fst snd].
    exists (l1 ++ EvWrite (path_str file_path) (soup_str soup)
                 :: echo config ("[INFO] ✓ Made " +:+ pretty total +:+ " changes to "
                                 +:+ path_str file_path)).
    assert (Hin : EvWrite (path_str file_path) (soup_str soup)
                  ∈ l1 ++ EvWrite (path_str file_path) (soup_str soup)
                       :: echo config ("[INFO] ✓ Made " +:+ pretty total +:+ " changes to "
                                       +:+ path_str file_path)).
    { apply elem_of_app. right. left. }
    split; [cbn; rewrite He1, <- !app_assoc; reflexivity|].
    split; [split; [intros _; exact Hpos|intros _; eauto]|].
    split; [|lia]. intros _. split; [exact Hin|]. cbn.
    split; [apply lookup_insert_eq|congruence].
  - rewrite log_spec. split; [reflexivity|]. cbn [fst snd].
    exists (l1 ++ echo config ("[INFO] ✓ No changes needed for " +:+ path_str file_path)).
    split; [cbn; rewrite He1, <- app_assoc; reflexivity|].
    split.
    { split; [|lia]. intros [content Hin]. exfalso.
      apply elem_of_app in Hin as [Hin|Hin].
      - rewrite Forall_forall in Hw1. specialize (Hw1 _ Hin). discriminate.
      - pose proof (prints_no_write _ (echo_prints config
                      ("[INFO] ✓ No changes needed for " +:+ path_str file_path))) as Hpr.
        rewrite Forall_forall in Hpr. specialize (Hpr _ Hin). discriminate. }
    split; [lia|]. intros Htotal. subst total. cbn.
    split; [eapply process_file_passes_keeps; exact Hrun|exact Hp1].
Qed.

(** C3. When the retrieval of an asset fails, the attribute that refers
    to it keeps its value and no change is counted for it: the step for an
    icon link and the step for a preview image tag return the document and
    the count they were given. After the whole asset pass an attribute
    differs from what it was only if a retrieval of the URL it held
    succeeded, the count of the pass is the number of successful
    retrievals, and a pass in which none succeeded returns the document as
    the metadata pass left it, with the changes of that pass in it. The
    count of the file is the sum of the counts of the four passes, so the
    file is written with the resulting document whenever another pass
    counted a change, whatever happened to the retrievals. *)
Theorem failed_fetch_keeps_reference :
  (∀ file_path acc link s u,
     get_attr link "href" (AStr "") (fst acc) = AStr u →
     should_download_asset config (AStr u) = Ok true →
     (∀ data, urlretrieve_outcome (fetch_count s) u
                (path_str (joinpath (assets_local_path config)
                             (favicon_filename u (tag_str link (fst acc))))) ≠ Ok data) →
     snd (localize_icon config file_path acc link s) = Ok acc) ∧
  (∀ file_path acc image s u,
     attr_of (fst acc) image "content" = Some (AStr u) →
     should_download_asset config (AStr u) = Ok true →
     (∀ data, urlretrieve_outcome (fetch_count s) u
                (path_str (joinpath (assets_local_path config) "og-preview.png")) ≠ Ok data) →
     snd (localize_image config file_path (Some image) acc s) = Ok acc) ∧
  (∀ soup file_path s s' soup' changes,
     sanitize_assets config soup file_path s = (s', Ok (soup', changes)) →
     ∃ l, events s' = events s ++ l ∧
          changes = count_ok l ∧
          (∀ h k, (∀ local_path, EvFetch (url_of (attr_of soup h k)) local_path true ∉ l) →
                  attr_of soup' h k = attr_of soup h k) ∧
          (count_ok l = 0 → soup' = soup)) ∧
  (∀ file_path s s1 soup total,
     process_file_passes config file_path s = (s1, Ok (soup, total)) →
     ∃ sa sb sc sd content css soup0 meta assets attributes,
       sanitize_css config content sa = (sb, Ok css) ∧
       html_parser (fst css) = Ok soup0 ∧
       sanitize_metadata config soup0 file_path sb = (sc, Ok meta) ∧
       sanitize_assets config (fst meta) file_path sc = (sd, Ok assets) ∧
       sanitize_attributes config (fst assets) sd = (s1, Ok (soup, attributes)) ∧
       total = snd css + snd meta + snd assets + attributes ∧
       (0 < snd css + snd meta + attributes →
          snd (process_file config file_path s) = Ok tt ∧
          files (fst (process_file config file_path s)) !! path_str file_path
          = Some (soup_str soup))).
Proof.
  split; [|split; [|split]].
  - intros file_path acc link s u Hhref Hel Hfail.
    destruct (localize_icon_eligible config file_path link acc s u Hhref Hel)
      as (ok & Hok & Hstep).
    rewrite (download_asset_fails config _ _ _ Hfail) in Hok.
    injection Hok as <-. rewrite Hstep. reflexivity.
  - intros file_path acc image s u Hattr Hel Hfail.
    destruct (localize_image_eligible config file_path image acc s u Hattr Hel)
      as (ok & Hok & Hstep).
    rewrite (download_asset_fails config _ _ _ Hfail) in Hok.
    injection Hok as <-. rewrite Hstep. reflexivity.
  - intros soup file_path s s' soup' changes Hrun.
    apply sanitize_assets_inv in Hrun as (l & He & _ & Hn & _ & Hsame & Ha).
    cbn [fst snd] in *. exists l. split; [exact He|]. split; [exact Hn|]. split.
    + intros h k Hnone.
      destruct (decide (attr_of soup' h k = attr_of soup h k)) as [|Hne]; [assumption|].
      destruct (Ha h k Hne) as [lp Hlp]. destruct (Hnone lp Hlp).
    + intros Hzero. apply Hsame, Hzero.
  - intros file_path s s1 soup total Hrun.
    pose proof Hrun as Hinv. apply process_file_passes_inv in Hinv
      as (s0 & sa & sb & sc & sd & content & css & soup0 & meta & assets & attributes
          & _ & _ & _ & Hcss & Hparse & Hmeta & Hassets & Hattrs & Htotal).
    exists sa, sb, sc, sd, content, css, soup0, meta, assets, attributes.
    repeat (split; [assumption|]).
    intros Hother. apply (process_file_writes config file_path s s1 soup total Hrun). lia.
Qed.



(** C6. Page classification is an ordered check in which the first match
    wins: a path containing "contact" (in any case) gets the title and the
    description of the contact page, also when it contains the case-study
    marker "work/"; a path without "contact" that contains "work/" gets
    both from the case-study templates; every other path gets the default
    title and description. Title and description always come from the same
    class. *)
Theorem page_classification_first_match (file_path : Path) :
  let contact := PyStr.contains "contact" (PyStr.lower (path_str file_path)) in
  let case_study := PyStr.contains "work/" (path_str file_path) in
  (contact = true →
     _get_page_title config file_path = Ok (pages_contact_title config) ∧
     _get_page_description config file_path = Ok (pages_contact_description config)) ∧
  (contact = false → case_study = true →
     _get_page_title config file_path =
       str_format (pages_case_studies_title_template config) (project_name file_path) ∧
     _get_page_description config file_path =
       str_format (pages_case_studies_description_template config) (project_name file_path)) ∧
  (contact = false → case_study = false →
     _get_page_title config file_path =
       Ok (personal_name config +:+ " - " +:+ personal_title config) ∧
     _get_page_description config file_path = Ok (personal_description config)).
Proof.
  intros contact case_study. unfold _get_page_title, _get_page_description.
  fold contact case_study.
  repeat split; intros; repeat match goal with H : _ = _ |- _ => rewrite H end; reflexivity.
Qed.


(** C8. [get_relative_path] returns a string for every pair of paths, and
    from [/site/work/project/index.html] to [/site/assets/og-preview.png]
    it gives [../../assets/og-preview.png]. When the two paths are on
    different drives the value is [str(to_file)], which for a relative
    [to_file] is the relative path as it was given and not its absolute
    form: here [assets\og-preview.png] under the working directory
    [D:\proj], whose absolute form is [D:\proj\assets\og-preview.png]. *)
Theorem get_relative_path_fallback_is_not_absolute :
  (∀ cwd,
     @get_relative_path (posix cwd)
       (MkPath (Some "") ["site"; "work"; "project"; "index.html"])
       (MkPath (Some "") ["site"; "assets"; "og-preview.png"])
     = "../../assets/og-preview.png") ∧
  @relpath (windows "D:" ["proj"])
     (MkPath None ["assets"; "og-preview.png"])
     (@parent (MkPath (Some "C:") ["site"; "index.html"])) = None ∧
  @get_relative_path (windows "D:" ["proj"])
     (MkPath (Some "C:") ["site"; "index.html"])
     (MkPath None ["assets"; "og-preview.png"])
  = "assets\og-preview.png" ∧
  "assets\og-preview.png" ≠
    @path_str (windows "D:" ["proj"]) (MkPath (Some "D:") ["proj"; "assets"; "og-preview.png"]).
Proof.
  split; [intros cwd; reflexivity|].
  split; [reflexivity|]. split; [reflexivity|].
  vm_compute. discriminate.
Qed.

(** C9. The set of downloaded assets changes only when a retrieval
    succeeds: a failed [download_asset] returns [False] and leaves the set
    as it was, a successful one returns [True] and adds its local path; any
    sequence of downloads adds to the set exactly the local paths of its
    successful retrievals, and at the end of a run the set holds exactly
    the local paths of the retrievals that succeeded in the run. *)
Theorem downloaded_assets_only_on_success (url : string) (local_path : Path) (s : State) :
  (∀ e, urlretrieve_outcome (fetch_count s) url (path_str local_path) = Raise e →
     snd (download_asset config url local_path s) = Ok false ∧
     downloaded_assets (fst (download_asset config url local_path s)) = downloaded_assets s) ∧
  (∀ data, urlretrieve_outcome (fetch_count s) url (path_str local_path) = Ok data →
     snd (download_asset config url local_path s) = Ok true ∧
     downloaded_assets (fst (download_asset config url local_path s))
     = {[path_str local_path]} ∪ downloaded_assets s) ∧
  (∀ requests : list (string * Path),
     let s' := fst (for_each requests tt
                      (fun _ request =>
                         download_asset config (fst request) (snd request) ;;; ret tt) s) in
     ∃ l, events s' = events s ++ l ∧
          downloaded_assets s' = fetched l ∪ downloaded_assets s) ∧
  (∀ root_dir fs,
     let s' := fst (run config root_dir (init fs)) in
     downloaded_assets s' = fetched (events s')).
Proof.
  pose proof (download_asset_spec config url local_path s) as Hspec.
  split; [|split; [|split]].
  - intros e He. rewrite He in Hspec. rewrite Hspec. split; reflexivity.
  - intros data He. rewrite He in Hspec. rewrite Hspec. split; reflexivity.
  - intros requests s'.
    assert (Hacc : respects accounted
              (for_each requests tt
                 (fun _ request =>
                    download_asset config (fst request) (snd request) ;;; ret tt))).
    { apply respects_for_each; [exact _|]. intros [] request.
      apply respects_bind; [exact _|apply download_asset_accounted|].
      intros _. apply respects_ret. exact _. }
    exact (Hacc s).
  - intros root_dir fs s'.
    destruct (run_accounted config root_dir (init fs)) as (l & He & Hd).
    fold s' in He, Hd. cbn in He, Hd. rewrite He, Hd. set_solver.
Qed.

(** C10. The local file name of a favicon checks the light hint before
    the dark hint: a link whose href or tag text carries the light hint
    gets [favicon-light.png], also when it carries the dark hint; one that
    carries only the dark hint gets [favicon-dark.png]; one that carries
    neither gets [favicon.png]. The retrieval for an eligible icon link
    goes to that file name under the local asset directory. *)
Theorem favicon_light_before_dark (href link_str : string) :
  let light := PyStr.contains "light" href ||
               PyStr.contains "prefers-color-scheme: light" link_str in
  let dark := PyStr.contains "dark" href ||
              PyStr.contains "prefers-color-scheme: dark" link_str in
  (light = true → favicon_filename href link_str = "favicon-light.png") ∧
  (light = false → dark = true → favicon_filename href link_str = "favicon-dark.png") ∧
  (light = false → dark = false → favicon_filename href link_str = "favicon.png") ∧
  (∀ file_path acc link s,
     get_attr link "href" (AStr "") (fst acc) = AStr href →
     tag_str link (fst acc) = link_str →
     should_download_asset config (AStr href) = Ok true →
     ∃ ok prints,
       events (fst (localize_icon config file_path acc link s))
       = events s
         ++ EvFetch href
              (path_str (joinpath (assets_local_path config)
                           (favicon_filename href link_str))) ok :: prints).
Proof.
  intros light dark. unfold favicon_filename. fold light dark.
  split; [|split; [|split]].
  - intros ->. reflexivity.
  - intros -> ->. reflexivity.
  - intros -> ->. reflexivity.
  - intros file_path acc link s Hhref Hstr Hel.
    destruct (localize_icon_eligible config file_path link acc s href Hhref Hel)
      as (ok & Hok & Hstep).
    rewrite Hstr in Hok, Hstep. rewrite Hstep. cbn [fst].
    destruct (download_asset_effect config href
                (joinpath (assets_local_path config) (favicon_filename href link_str)) s)
      as (ok' & prints & _ & _ & Hev & _).
    exists ok', prints. exact Hev.
Qed.

End Claims.

(** ** Further properties of the script *)

(** ** Relative paths on POSIX *)

Lemma normparts_kept (acc comps : list string) :
  Forall kept comps → normparts acc comps = rev acc ++ comps.
Proof.
  intros Hc. revert acc. induction Hc as [|c r [Hc1 Hc2] _ IH]; intros acc; cbn [normparts].
  - rewrite app_nil_r. reflexivity.
  - rewrite decide_False by exact Hc1. rewrite decide_False by exact Hc2.
    rewrite IH. cbn [rev]. rewrite <- app_assoc. reflexivity.
Qed.

Lemma normparts_Forall_kept (acc comps : list string) :
  Forall kept acc → Forall kept (normparts acc comps).
Proof.
  revert acc. induction comps as [|c r IH]; intros acc Hacc; cbn [normparts].
  - apply Forall_forall. intros x Hx. rewrite Forall_forall in Hacc. apply Hacc.
    apply list_elem_of_In. apply list_elem_of_In, in_rev in Hx. exact Hx.
  - destruct (decide (c = "" ∨ c = ".")) as [|H1]; [apply IH, Hacc|].
    destruct (decide (c = "..")) as [|H2].
    + apply IH. destruct Hacc; [constructor|assumption].
    + apply IH. constructor; [split; assumption|exact Hacc].
Qed.

Lemma normparts_app (acc l1 l2 : list string) :
  normparts acc (l1 ++ l2) = normparts (rev (normparts acc l1)) l2.
Proof.
  revert acc. induction l1 as [|c r IH]; intros acc; cbn [app normparts].
  - rewrite rev_involutive. reflexivity.
  - repeat case_decide; apply IH.
Qed.

Lemma normparts_dotdots (n : nat) (acc l : list string) :
  normparts acc (replicate n ".." ++ l) = normparts (drop n acc) l.
Proof.
  revert acc. induction n as [|n IH]; intros acc; [reflexivity|].
  cbn [replicate app normparts].
  rewrite decide_False by (intros [|]; discriminate).
  rewrite decide_True by reflexivity. rewrite IH. destruct acc; [destruct n|]; reflexivity.
Qed.

Lemma common_len_posix (cwd l1 l2 : list string) :
  take (@common_len (posix cwd) l1 l2) l1 = take (@common_len (posix cwd) l1 l2) l2 ∧
  (@common_len (posix cwd) l1 l2 <= length l1)%nat.
Proof.
  revert l2. induction l1 as [|e1 r1 IH]; intros [|e2 r2]; cbn [common_len]; try (split; [reflexivity|cbn; lia]).
  cbn [normcase posix]. destruct (decide (e1 = e2)) as [->|]; [|split; [reflexivity|cbn; lia]].
  destruct (IH r2) as [Heq Hle]. cbn [take length]. split; [f_equal; exact Heq|lia].
Qed.

Lemma abspath_kept `{Platform} (p : Path) : Forall kept (snd (abspath p)).
Proof.
  unfold abspath. destruct (anchor p); cbn [snd]; apply normparts_Forall_kept; constructor.
Qed.

Lemma relpath_posix (cwd : list string) (path start : Path) :
  posix_path path → posix_path start →
  ∃ rel_list,
    @relpath (posix cwd) path start
      = Some (match rel_list with [] => "." | _ => PyStr.join "/" rel_list end) ∧
    normparts [] (snd (@abspath (posix cwd) start) ++ rel_list)
      = snd (@abspath (posix cwd) path).
Proof.
  intros Hpath Hstart. unfold relpath.
  pose proof (@abspath_kept (posix cwd) start) as Hks.
  pose proof (@abspath_kept (posix cwd) path) as Hkp.
  assert (Hd : fst (@abspath (posix cwd) start) = fst (@abspath (posix cwd) path)).
  { unfold abspath. destruct Hpath as [-> | ->], Hstart as [-> | ->]; reflexivity. }
  destruct (@abspath (posix cwd) start) as [start_drive start_list].
  destruct (@abspath (posix cwd) path) as [path_drive path_list].
  cbn [fst snd] in *. subst path_drive.
  rewrite decide_True by reflexivity.
  destruct (common_len_posix cwd start_list path_list) as [Hcommon Hle].
  set (i := @common_len (posix cwd) start_list path_list) in *.
  exists (replicate (length start_list - i) ".." ++ drop i path_list).
  split.
  - cbn [sep posix]. destruct (replicate _ _ ++ _); reflexivity.
  - rewrite normparts_app, (normparts_kept [] start_list Hks). cbn [rev app].
    rewrite normparts_dotdots, skipn_rev.
    replace (length start_list - (length start_list - i)) with i by lia.
    rewrite normparts_kept by (apply Forall_drop, Hkp).
    rewrite rev_involutive, Hcommon. apply take_drop.
Qed.

(** X1. For POSIX paths [get_relative_path] never takes its fallback: the result is
    a list of components joined by [/] (or [.] when the list is empty), and
    following these components from the directory of [from_file] leads to
    [to_file], that is, normalising the absolute components of that directory
    followed by them gives the absolute components of [to_file]. *)
(** X1 *)
Theorem relative_path_leads_back (cwd : list string) (from_file to_file : Path) :
  posix_path from_file → posix_path to_file →
  ∃ rel_list,
    @get_relative_path (posix cwd) from_file to_file
      = match rel_list with [] => "." | _ => PyStr.join "/" rel_list end ∧
    normparts [] (snd (@abspath (posix cwd) (parent from_file)) ++ rel_list)
      = snd (@abspath (posix cwd) to_file).
Proof.
  intros Hfrom Hto.
  destruct (relpath_posix cwd to_file (parent from_file) Hto Hfrom) as (rel_list & Hrel & Hback).
  exists rel_list. unfold get_relative_path. rewrite Hrel. auto.
Qed.

(** ** Substrings *)

Lemma str_app_nil_r (a : string) : a +:+ "" = a.
Proof.
  induction a as [|x a IH]; [reflexivity|].
  change (String x (a +:+ "") = String x a). rewrite IH. reflexivity.
Qed.

Lemma str_app_cons (x : ascii) (a b : string) : String x a +:+ b = String x (a +:+ b).
Proof. reflexivity. Qed.

Lemma prefix_spec (needle hay : string) :
  String.prefix needle hay = true ↔ ∃ post, hay = needle +:+ post.
Proof.
  revert hay. induction needle as [|c n IH]; intros hay.
  - split; [intros _; exists hay; reflexivity|intros _; destruct hay; reflexivity].
  - destruct hay as [|d h]; cbn [String.prefix].
    + split; [discriminate|intros [post Hpost]; discriminate].
    + destruct (Ascii.ascii_dec c d) as [->|Hne].
      * rewrite IH. split; intros [post Hpost]; exists post.
        -- rewrite str_app_cons, <- Hpost. reflexivity.
        -- rewrite str_app_cons in Hpost. congruence.
      * split; [discriminate|intros [post Hpost]].
        rewrite str_app_cons in Hpost. congruence.
Qed.

(** [needle in hay] holds exactly when [needle] occurs in [hay]. *)
Lemma contains_spec (needle hay : string) :
  PyStr.contains needle hay = true ↔ ∃ pre post, hay = pre +:+ needle +:+ post.
Proof.
  induction hay as [|d h IH]; cbn [PyStr.contains]; rewrite orb_true_iff, prefix_spec.
  - split.
    + intros [[post Hpost]|]; [|discriminate]. exists "", post. exact Hpost.
    + intros (pre & post & Heq). left. destruct pre; [|discriminate]. exists post. exact Heq.
  - rewrite IH. split.
    + intros [[post Hpost]|(pre & post & Hh)].
      * exists "", post. exact Hpost.
      * exists (String d pre), post. rewrite str_app_cons, <- Hh. reflexivity.
    + intros (pre & post & Heq). destruct pre as [|x pre].
      * left. exists post. exact Heq.
      * right. rewrite str_app_cons in Heq. exists pre, post. congruence.
Qed.

Lemma contains_slash_app (a b : string) :
  PyStr.contains "/" (a +:+ b) = PyStr.contains "/" a || PyStr.contains "/" b.
Proof.
  induction a as [|x a IH].
  - change ("" +:+ b) with b. destruct b; reflexivity.
  - rewrite str_app_cons. cbn [PyStr.contains String.prefix]. rewrite IH.
    destruct (Ascii.ascii_dec "/" x); [|reflexivity].
    destruct a, b; reflexivity.
Qed.

Lemma contains_slash_join (l : list string) :
  Forall no_slash l → PyStr.contains "/" (PyStr.join "\" l) = false.
Proof.
  induction 1 as [|x l Hx Hl IH]; [reflexivity|].
  destruct l as [|y l]; [exact Hx|].
  change (PyStr.join "\" (x :: y :: l)) with (x +:+ "\" +:+ PyStr.join "\" (y :: l)).
  rewrite !contains_slash_app, Hx, IH. reflexivity.
Qed.

Lemma contains_slash_needle (needle hay : string) :
  PyStr.contains "/" needle = true → PyStr.contains needle hay = true →
  PyStr.contains "/" hay = true.
Proof.
  intros Hn Hh. apply contains_spec in Hh as (pre & post & ->).
  rewrite !contains_slash_app, Hn. apply orb_true_iff. right. reflexivity.
Qed.

(** ** Classification on Windows, and vendor domains *)

Section Classify.
Context {env : Env}.
Variable config : Config.

Lemma windows_path_no_slash (drive : string) (cwd : list string) (file_path : Path) :
  (∀ a, anchor file_path = Some a → no_slash a) →
  Forall no_slash (parts file_path) →
  PyStr.contains "/" (@path_str (windows drive cwd) file_path) = false.
Proof.
  intros Ha Hp. unfold path_str. cbn [sep windows].
  destruct (anchor file_path) as [a|].
  - rewrite !contains_slash_app, (Ha a eq_refl), contains_slash_join by exact Hp. reflexivity.
  - destruct (parts file_path) eqn:Hparts; [reflexivity|].
    rewrite <- Hparts in *. apply contains_slash_join, Hp.
Qed.

(** X4. On the Windows flavour, where [str(file_path)] joins the components with
    backslashes, the test for ["work/"] never succeeds: a path whose
    components hold no slash is never classified as a case study, and unless
    it is a contact page it gets the default title and description, also when
    it lies under a [work] directory. *)
Theorem no_case_study_on_windows (drive : string) (cwd : list string) (file_path : Path) :
  (∀ a, anchor file_path = Some a → no_slash a) →
  Forall no_slash (parts file_path) →
  PyStr.contains "work/" (@path_str (windows drive cwd) file_path) = false ∧
  (PyStr.contains "contact" (PyStr.lower (@path_str (windows drive cwd) file_path)) = false →
   @_get_page_title (windows drive cwd) env config file_path
   = Ok (personal_name config +:+ " - " +:+ personal_title config) ∧
   @_get_page_description (windows drive cwd) env config file_path
   = Ok (personal_description config)).
Proof.
  intros Ha Hp.
  assert (Hwork : PyStr.contains "work/" (@path_str (windows drive cwd) file_path) = false).
  { destruct (PyStr.contains "work/" _) eqn:Hc; [|reflexivity].
    apply (contains_slash_needle "work/") in Hc; [|reflexivity].
    rewrite (windows_path_no_slash drive cwd file_path Ha Hp) in Hc. discriminate. }
  split; [exact Hwork|]. intros Hcontact.
  unfold _get_page_title, _get_page_description. rewrite Hcontact, Hwork. auto.
Qed.

(** X2. With downloads switched on, a URL whose network location [urlparse]
    gives is eligible for download exactly when some configured vendor domain
    occurs in that location as a substring, anywhere in it: the test is not a
    comparison of host names. *)
Theorem vendor_domain_matches_as_substring (u netloc : string) :
  assets_download_external config = true →
  urlparse_netloc u = Ok netloc →
  ∃ eligible,
    should_download_asset config (AStr u) = Ok eligible ∧
    (eligible = true ↔
     ∃ domain pre post,
       domain ∈ assets_vendor_domains config ∧ netloc = pre +:+ domain +:+ post).
Proof.
  intros Hon Hparse. unfold should_download_asset. rewrite Hon, Hparse. cbn [negb result_bind].
  eexists. split; [reflexivity|].
  rewrite existsb_exists. split.
  - intros (domain & Hin & Hc). apply contains_spec in Hc as (pre & post & Heq).
    exists domain, pre, post. split; [apply list_elem_of_In, Hin|exact Heq].
  - intros (domain & pre & post & Hin & Heq). exists domain.
    split; [apply list_elem_of_In, Hin|]. apply contains_spec. eauto.
Qed.

End Classify.

(** ** Downloads switched off *)

Section Off.
Context {platform : Platform} {env : Env}.
Variable config : Config.

Lemma should_download_asset_off (url : attr_value) :
  assets_download_external config = false → should_download_asset config url = Ok false.
Proof. intros Hoff. unfold should_download_asset. rewrite Hoff. reflexivity. Qed.

(** X3. With [assets.download_external] switched off the asset pass does nothing:
    it makes no retrieval, leaves the state and the document as they are,
    counts no change and cannot raise, whatever the attributes hold. *)
Theorem no_retrieval_when_switched_off (soup : Soup) (file_path : Path) (s : State) :
  assets_download_external config = false →
  sanitize_assets config soup file_path s = (s, Ok (soup, 0)).
Proof.
  intros Hoff. unfold sanitize_assets.
  assert (Hicons : ∀ links acc s0,
            for_each links acc (localize_icon config file_path) s0 = (s0, Ok acc)).
  { induction links as [|link links IH]; intros acc s0; [reflexivity|].
    cbn [for_each]. unfold bind at 1, localize_icon at 1.
    rewrite (should_download_asset_off _ Hoff). unfold bind at 1, lift at 1, ret at 1.
    apply IH. }
  assert (Himage : ∀ tag acc s0,
            localize_image config file_path tag acc s0 = (s0, Ok acc)).
  { intros [image|] acc s0; [|reflexivity]. unfold localize_image.
    rewrite (should_download_asset_off _ Hoff). reflexivity. }
  unfold bind. rewrite Hicons. cbn [fst]. rewrite !Himage. reflexivity.
Qed.

End Off.

(** ** The count of processed files *)






Section Tally.
Context {platform : Platform} {env : Env}.
Variable config : Config.




End Tally.

(** ** The local paths of the downloads, and the console *)

#[global] Instance confined_preorder `{Platform} (config : Config) : PreOrder (confined config).
Proof.
  split.
  - intros s. exists []. rewrite app_nil_r. split; [reflexivity|constructor].
  - intros s1 s2 s3 (l1 & He1 & Hl1) (l2 & He2 & Hl2). exists (l1 ++ l2).
    split; [rewrite He2, He1, app_assoc; reflexivity|apply Forall_app; auto].
Qed.

#[global] Instance echoing_preorder (config : Config) : PreOrder (echoing config).
Proof.
  split.
  - intros s. exists [], []. rewrite !app_nil_r. repeat split.
    destruct (output_verbose config); reflexivity.
  - intros s1 s2 s3 (r1 & l1 & Hr1 & He1 & Hf1) (r2 & l2 & Hr2 & He2 & Hf2).
    exists (r1 ++ r2), (l1 ++ l2).
    rewrite Hr2, Hr1, He2, He1, !app_assoc, filter_app, Hf1, Hf2.
    repeat split. destruct (output_verbose config); [rewrite fmap_app|]; reflexivity.
Qed.

(** Relations that the asset pass respects as a whole. *)
Section CoarseFrames.
Context {platform : Platform} {env : Env}.
Variable config : Config.
Context (R : relation State) `{!PreOrder R}.
Hypothesis log_respects : ∀ message level, respects R (log config message level).
Hypothesis sanitize_assets_respects' :
  ∀ soup file_path, respects R (sanitize_assets config soup file_path).
Hypothesis read_text_respects : ∀ path, respects R (read_text path).
Hypothesis copy2_respects : ∀ src dst, respects R (copy2 src dst).
Hypothesis write_text_respects : ∀ path content, respects R (write_text path content).
Hypothesis print_respects : ∀ text, respects R (print text).
Hypothesis count_respects : respects R (modify (set_processed_files (fun n => n + 1))).

Lemma process_file_respects' (file_path : Path) :
  respects R (process_file config file_path).
Proof.
  unfold process_file, process_file_passes.
  repeat first [ apply backup_file_respects | apply sanitize_css_respects
               | apply sanitize_metadata_respects | apply sanitize_attributes_respects
               | apply write_back_respects | respect_step ].
Qed.

Lemma run_respects' (root_dir : Path) : respects R (run config root_dir).
Proof.
  unfold run, find_html_files, process_all.
  repeat first [ apply process_file_respects' | apply generate_report_respects
               | respect_step ].
Qed.

End CoarseFrames.

Lemma size_list_to_set_le (l : list string) :
  size (list_to_set l : gset string) <= length l.
Proof.
  induction l as [|x l IH]; cbn [list_to_set length]; [rewrite size_empty; lia|].
  rewrite size_union_alt, size_singleton.
  assert (size (list_to_set l ∖ {[x]} : gset string) <= size (list_to_set l : gset string))
    by (apply subseteq_size; set_solver).
  lia.
Qed.

Lemma fetched_within `{Platform} (config : Config) (l : list event) :
  Forall (fetch_within config) l → fetched l ⊆ list_to_set (asset_paths config).
Proof.
  induction 1 as [|e l He _ IH]; [set_solver|].
  destruct e as [u q [|]| | |]; cbn [fetched]; try exact IH.
  cbn in He. set_solver.
Qed.

Section Confined.
Context {platform : Platform} {env : Env}.
Variable config : Config.

Lemma prints_within (l : list event) :
  Forall (fun e => is_print e = true) l → Forall (fetch_within config) l.
Proof.
  intros Hl. eapply Forall_impl; [exact Hl|].
  intros [] He; cbn in *; [discriminate|exact I..].
Qed.

Lemma quiet_confined (s s' : State) : quiet s s' → confined config s s'.
Proof. intros (_ & _ & _ & _ & l & He & Hl). exists l. eauto using prints_within. Qed.

Lemma download_asset_confined (url : string) (local_path : Path) :
  path_str local_path ∈ asset_paths config →
  respects (confined config) (download_asset config url local_path).
Proof.
  intros Hin s.
  destruct (download_asset_effect config url local_path s)
    as (ok & prints & Hprints & _ & Hev & _).
  exists (EvFetch url (path_str local_path) ok :: prints). split; [exact Hev|].
  constructor; [exact Hin|apply prints_within, Hprints].
Qed.

Lemma favicon_within (href link_str : string) :
  path_str (joinpath (assets_local_path config) (favicon_filename href link_str))
  ∈ asset_paths config.
Proof.
  unfold asset_paths, favicon_filename. cbn [map].
  repeat destruct (_ || _); set_solver.
Qed.

Lemma preview_within :
  path_str (joinpath (assets_local_path config) "og-preview.png") ∈ asset_paths config.
Proof. unfold asset_paths. cbn [map]. set_solver. Qed.

Lemma sanitize_assets_confined (soup : Soup) (file_path : Path) :
  respects (confined config) (sanitize_assets config soup file_path).
Proof.
  pose proof favicon_within. pose proof preview_within.
  unfold sanitize_assets, localize_icon, localize_image.
  repeat first [ apply download_asset_confined; solve [auto] | respect_step ].
Qed.

Lemma run_confined (root_dir : Path) : respects (confined config) (run config root_dir).
Proof.
  apply run_respects'; [exact _|..].
  - intros message level s. apply quiet_confined, log_quiet.
  - apply sanitize_assets_confined.
  - intros path s. unfold read_text. destruct (files s !! path); reflexivity.
  - intros src dst s. unfold copy2. destruct (files s !! src); [|reflexivity].
    destruct (decide (src = dst)); [reflexivity|].
    exists [EvCopy src dst]. split; [reflexivity|repeat constructor].
  - intros path content s. exists [EvWrite path content]. split; [reflexivity|repeat constructor].
  - intros text s. exists [EvPrint text]. split; [reflexivity|repeat constructor].
  - intros s. exists []. cbn. rewrite app_nil_r. split; [reflexivity|constructor].
Qed.

(** X6. Every retrieval of a run goes to one of four local paths under
    [assets.local_path], [favicon-light.png], [favicon-dark.png],
    [favicon.png] and [og-preview.png], whatever the pages and their URLs
    are: the set of downloaded assets stays within these four (and what it
    held before), so a run started from an empty set reports at most four
    assets. *)
Theorem downloads_go_to_four_local_paths (root_dir : Path) (s : State) :
  ∃ l, events (fst (run config root_dir s)) = events s ++ l ∧
       Forall (fetch_within config) l ∧
       downloaded_assets (fst (run config root_dir s))
       ⊆ list_to_set (asset_paths config) ∪ downloaded_assets s ∧
       (downloaded_assets s = ∅ → size (downloaded_assets (fst (run config root_dir s))) <= 4).
Proof.
  destruct (run_confined root_dir s) as (l & He & Hl).
  destruct (run_accounted config root_dir s) as (l' & He' & Hd).
  assert (l' = l) by (rewrite He in He'; apply app_inv_head in He'; congruence). subst l'.
  pose proof (fetched_within config l Hl) as Hsub.
  exists l. split; [exact He|]. split; [exact Hl|]. split; [set_solver|].
  intros Hempty. rewrite Hd, Hempty, union_empty_r_L.
  etransitivity; [apply subseteq_size, Hsub|].
  apply (size_list_to_set_le (asset_paths config)).
Qed.

End Confined.

Section Console.
Context {platform : Platform} {env : Env}.
Variable config : Config.








End Console.

(** ** Backups and failures *)

#[global] Instance held_preorder (path : string) : PreOrder (held path).
Proof.
  split.
  - intros s. split; [reflexivity|]. exists []. rewrite app_nil_r. reflexivity.
  - intros s1 s2 s3 [Hf1 [l1 He1]] [Hf2 [l2 He2]]. split; [congruence|].
    exists (l1 ++ l2). rewrite He2, He1, app_assoc. reflexivity.
Qed.

Lemma bind_assoc {A B C} (m : M A) (k : A -> M B) (k' : B -> M C) (s : State) :
  bind (bind m k) k' s = bind m (fun a => bind (k a) k') s.
Proof. unfold bind. destruct (m s) as [s1 [a|e]]; reflexivity. Qed.

Lemma str_app_eq_self (a b : string) : a +:+ b = a → b = "".
Proof.
  induction a as [|x a IH]; [auto|]. rewrite str_app_cons. intros Heq.
  injection Heq as Heq. auto.
Qed.

Section Backup.
Context {platform : Platform} {env : Env}.
Variable config : Config.

Lemma bind_log {A} (message level : string) (k : unit -> M A) (s : State) :
  bind (log config message level) k s = k tt (logged config message level s).
Proof. unfold bind. rewrite log_spec. reflexivity. Qed.

Lemma quiet_held (path : string) (s s' : State) : quiet s s' → held path s s'.
Proof. intros (Hf & _ & _ & _ & l & He & _). split; [rewrite Hf; reflexivity|eauto]. Qed.

Lemma download_asset_held (path url : string) (local_path : Path) :
  path_str local_path ≠ path →
  respects (held path) (download_asset config url local_path).
Proof.
  intros Hne s. pose proof (download_asset_spec config url local_path s) as Hspec.
  destruct (urlretrieve_outcome _ _ _) as [data|e]; rewrite Hspec; cbn [fst];
    (etransitivity; [|apply quiet_held, logged_quiet]).
  - split; [cbn; apply lookup_insert_ne; exact Hne|]. eexists. reflexivity.
  - split; [reflexivity|]. eexists. reflexivity.
Qed.

Lemma sanitize_assets_held (path : string) (soup : Soup) (file_path : Path) :
  path ∉ asset_paths config →
  respects (held path) (sanitize_assets config soup file_path).
Proof.
  intros Hout.
  assert (Hdl : ∀ url local_path, path_str local_path ∈ asset_paths config →
                  respects (held path) (download_asset config url local_path)).
  { intros url local_path Hin. apply download_asset_held. congruence. }
  assert (Hlog : ∀ message level, respects (held path) (log config message level)).
  { intros message level s. apply quiet_held, log_quiet. }
  pose proof (favicon_within config). pose proof (preview_within config).
  unfold sanitize_assets, localize_icon, localize_image.
  repeat first [ apply Hdl; solve [auto] | respect_step ].
Qed.

Lemma write_back_held (path : string) (file_path : Path) (soup : Soup) (total_changes : nat) :
  path_str file_path ≠ path →
  respects (held path) (write_back config file_path soup total_changes).
Proof.
  intros Hne s. unfold write_back. destruct (decide (0 < total_changes)).
  - unfold bind, write_text, modify. cbv beta iota. rewrite log_spec. cbv beta iota.
    cbn [fst]. split; [cbn; apply lookup_insert_ne; exact Hne|].
    eexists. cbn. rewrite <- app_assoc. reflexivity.
  - apply quiet_held, log_quiet.
Qed.

(** X8. With backups on and a non-empty suffix, processing a file that exists
    copies it to the backup path before anything else touches it, and at the
    end of [process_file], whether the file was rewritten, left alone or the
    processing raised, the backup holds the content the file had at the
    start, provided the backup path is not one of the local asset paths. A
    backup that was there before is overwritten. *)
Theorem backup_holds_the_original (file_path : Path) (s : State) (content : string) :
  output_backup config = true →
  output_backup_suffix config ≠ "" →
  files s !! path_str file_path = Some content →
  path_str file_path +:+ output_backup_suffix config ∉ asset_paths config →
  let backup_path := path_str file_path +:+ output_backup_suffix config in
  let s' := fst (process_file config file_path s) in
  EvCopy (path_str file_path) backup_path ∈ events s' ∧
  files s' !! backup_path = Some content.
Proof.
  intros Hon Hsuffix Hfile Hout backup_path s'. subst s'.
  assert (Hne : path_str file_path ≠ backup_path).
  { intros Heq. symmetry in Heq. apply str_app_eq_self in Heq. contradiction. }
  assert (Hlog : ∀ message level, respects (held backup_path) (log config message level)).
  { intros message level s0. apply quiet_held, log_quiet. }
  set (s3 := logged config (repeat_str "=" 60) "INFO"
               (logged config ("Processing: " +:+ path_str file_path) "INFO"
                  (logged config (nl +:+ repeat_str "=" 60) "INFO" s))).
  set (sa := logged config ("Created backup: " +:+ backup_path) "INFO"
               (add_event (EvCopy (path_str file_path) backup_path)
                  (set_files (insert backup_path content) s3))).
  assert (Hbackup : backup_file config file_path s3 = (sa, Ok tt)).
  { unfold backup_file. rewrite Hon. fold backup_path. unfold bind, copy2.
    change (files s3) with (files s). rewrite Hfile.
    rewrite decide_False by exact Hne. apply log_spec. }
  assert (Htail : held backup_path sa (fst (process_file config file_path s))).
  { unfold process_file, process_file_passes.
    rewrite bind_assoc, bind_log, bind_assoc, bind_log, bind_assoc, bind_log, bind_assoc.
    fold s3. unfold bind at 1. rewrite Hbackup. cbv beta iota.
    match goal with |- held _ _ (fst (?m _)) =>
      assert (Hm : respects (held backup_path) m); [|exact (Hm sa)]
    end.
    repeat first [ apply sanitize_css_respects | apply sanitize_metadata_respects
                 | apply sanitize_attributes_respects
                 | apply sanitize_assets_held; exact Hout
                 | apply write_back_held; exact Hne
                 | respect_step ]; try exact _.
    intros s0. unfold read_text. destruct (files s0 !! _); reflexivity. }
  destruct Htail as [Hf [l He]]. split.
  - rewrite He. apply elem_of_app. left. cbn. rewrite !elem_of_app, list_elem_of_singleton. auto.
  - rewrite Hf. cbn. apply lookup_insert_eq.
Qed.

Lemma process_file_header (file_path : Path) (s : State) :
  process_file config file_path s
  = bind (backup_file config file_path)
      (fun _ =>
         r <- (content <- read_text (path_str file_path) ;;
               css <- sanitize_css config content ;;
               soup <- lift (html_parser (fst css)) ;;
               meta <- sanitize_metadata config soup file_path ;;
               assets <- sanitize_assets config (fst meta) file_path ;;
               attributes <- sanitize_attributes config (fst assets) ;;
               ret (fst attributes, snd css + snd meta + snd assets + snd attributes)) ;;
         write_back config file_path (fst r) (snd r))
      (logged config (repeat_str "=" 60) "INFO"
         (logged config ("Processing: " +:+ path_str file_path) "INFO"
            (logged config (nl +:+ repeat_str "=" 60) "INFO" s))).
Proof.
  unfold process_file, process_file_passes.
  rewrite bind_assoc, bind_log, bind_assoc, bind_log, bind_assoc, bind_log, bind_assoc.
  reflexivity.
Qed.

Lemma header_quiet (file_path : Path) (s : State) :
  quiet s (logged config (repeat_str "=" 60) "INFO"
             (logged config ("Processing: " +:+ path_str file_path) "INFO"
                (logged config (nl +:+ repeat_str "=" 60) "INFO" s))).
Proof. repeat (etransitivity; [|apply logged_quiet]). reflexivity. Qed.

(** X9. Processing a path at which there is no file raises the error for the
    missing file, from the backup copy or from the read, after the three
    header entries were logged: nothing is created, written or downloaded, and
    no file is counted. *)
Theorem missing_file_raises_untouched (file_path : Path) (s : State) :
  files s !! path_str file_path = None →
  snd (process_file config file_path s)
  = Raise ("[Errno 2] No such file or directory: '" +:+ path_str file_path +:+ "'") ∧
  quiet s (fst (process_file config file_path s)).
Proof.
  intros Hfile.
  pose proof (header_quiet file_path s) as Hq.
  assert (Hrun : process_file config file_path s
                 = (logged config (repeat_str "=" 60) "INFO"
                      (logged config ("Processing: " +:+ path_str file_path) "INFO"
                         (logged config (nl +:+ repeat_str "=" 60) "INFO" s)),
                    Raise ("[Errno 2] No such file or directory: '"
                           +:+ path_str file_path +:+ "'"))).
  { rewrite process_file_header. set (s3 := logged _ _ _ _) in *.
    assert (Hf3 : files s3 !! path_str file_path = None) by exact Hfile.
    unfold bind at 1, backup_file. destruct (output_backup config).
    - unfold bind at 1, copy2. rewrite Hf3. reflexivity.
    - unfold ret at 1. cbv beta iota. unfold bind at 1 2, read_text. rewrite Hf3.
      reflexivity. }
  rewrite Hrun. split; [reflexivity|exact Hq].
Qed.

Lemma empty_suffix_raises (file_path : Path) (s : State) :
  output_backup config = true →
  output_backup_suffix config = "" →
  ∃ e, snd (process_file config file_path s) = Raise e ∧
       quiet s (fst (process_file config file_path s)).
Proof.
  intros Hon Hsuffix.
  pose proof (header_quiet file_path s) as Hq.
  assert (Hrun : ∃ e, process_file config file_path s
                 = (logged config (repeat_str "=" 60) "INFO"
                      (logged config ("Processing: " +:+ path_str file_path) "INFO"
                         (logged config (nl +:+ repeat_str "=" 60) "INFO" s)),
                    Raise e)).
  { rewrite process_file_header. set (s3 := logged _ _ _ _) in *.
    unfold bind at 1, backup_file. rewrite Hon, Hsuffix, str_app_nil_r.
    unfold bind at 1, copy2. destruct (files s3 !! path_str file_path).
    - rewrite decide_True by reflexivity. eauto.
    - eauto. }
  destruct Hrun as [e Hrun]. exists e. rewrite Hrun. split; [reflexivity|exact Hq].
Qed.

(** X10. With backups on and an empty suffix the backup path is the file itself,
    so the copy raises for every file: [process_file] always raises, and the
    loop of [run] only logs, leaving every file, the set of downloaded assets
    and the count of processed files as they were. *)
Theorem empty_backup_suffix_blocks_the_run (html_files : list Path) (s : State) :
  output_backup config = true →
  output_backup_suffix config = "" →
  (∀ file_path s0, ∃ e, snd (process_file config file_path s0) = Raise e) ∧
  quiet s (fst (process_all config html_files s)).
Proof.
  intros Hon Hsuffix. split.
  { intros file_path s0. destruct (empty_suffix_raises file_path s0 Hon Hsuffix) as (e & He & _).
    eauto. }
  revert s. induction html_files as [|file_path rest IH]; intros s; [reflexivity|].
  rewrite process_all_cons. etransitivity; [|apply IH].
  rewrite attempt_spec.
  destruct (empty_suffix_raises file_path s Hon Hsuffix) as (e & He & Hq).
  destruct (process_file config file_path s) as [s1 r]. cbn [fst snd] in *. subst r.
  cbn [fst]. etransitivity; [exact Hq|apply logged_quiet].
Qed.





End Backup.

(** ** Attribute dictionaries *)

Lemma dict_get_None (k : string) (d : Attrs) : Dict.get k d = None ↔ k ∉ d.*1.
Proof.
  induction d as [|[k' v'] d IH]; cbn [Dict.get fmap list_fmap fst].
  - split; [intros _; apply not_elem_of_nil|reflexivity].
  - rewrite not_elem_of_cons. destruct (decide (k' = k)) as [->|Hne].
    + split; [discriminate|intros [Hk _]; contradiction].
    + rewrite IH. split; [intros Hd; split; [congruence|exact Hd]|intros [_ Hd]; exact Hd].
Qed.

Lemma dict_get_del_ne (k k' : string) (d : Attrs) :
  k ≠ k' → Dict.get k (Dict.del k' d) = Dict.get k d.
Proof.
  intros Hne. induction d as [|[k0 v0] d IH]; [reflexivity|].
  cbn [Dict.del Dict.get]. destruct (decide (k0 = k')) as [->|Hk0].
  - rewrite decide_False by congruence. reflexivity.
  - cbn [Dict.get]. rewrite IH. reflexivity.
Qed.

Lemma dict_get_del_eq (k : string) (d : Attrs) :
  NoDup d.*1 → Dict.get k (Dict.del k d) = None.
Proof.
  induction d as [|[k0 v0] d IH]; [reflexivity|].
  cbn [fmap list_fmap fst Dict.del]. intros Hnd. apply NoDup_cons in Hnd as [Hk0 Hnd].
  destruct (decide (k0 = k)) as [->|Hne].
  - apply dict_get_None, Hk0.
  - cbn [Dict.get]. rewrite decide_False by exact Hne. apply IH, Hnd.
Qed.

Lemma dict_del_keys (k : string) (d : Attrs) : (Dict.del k d).*1 ⊆ d.*1.
Proof.
  induction d as [|[k0 v0] d IH]; [reflexivity|].
  cbn [Dict.del]. destruct (decide (k0 = k)); cbn [fmap list_fmap fst]; set_solver.
Qed.

Lemma dict_del_NoDup (k : string) (d : Attrs) : NoDup d.*1 → NoDup (Dict.del k d).*1.
Proof.
  induction d as [|[k0 v0] d IH]; [auto|].
  cbn [fmap list_fmap fst Dict.del]. intros Hnd. apply NoDup_cons in Hnd as [Hk0 Hnd].
  destruct (decide (k0 = k)); [exact Hnd|].
  cbn [fmap list_fmap fst]. apply NoDup_cons. split; [|apply IH, Hnd].
  intros Hin. apply Hk0. apply (dict_del_keys k d), Hin.
Qed.

Lemma dict_set_keys (k : string) (v : attr_value) (d : Attrs) :
  (Dict.set k v d).*1 = if decide (k ∈ d.*1) then d.*1 else d.*1 ++ [k].
Proof.
  induction d as [|[k0 v0] d IH]; [reflexivity|].
  cbn [Dict.set]. destruct (decide (k0 = k)) as [->|Hne]; cbn [fmap list_fmap fst].
  - rewrite decide_True by left. reflexivity.
  - rewrite IH. destruct (decide (k ∈ d.*1)) as [Hin|Hout].
    + rewrite decide_True by (right; exact Hin). reflexivity.
    + rewrite decide_False; [reflexivity|].
      rewrite elem_of_cons. intros [|]; congruence.
Qed.

Lemma dict_set_NoDup (k : string) (v : attr_value) (d : Attrs) :
  NoDup d.*1 → NoDup (Dict.set k v d).*1.
Proof.
  intros Hnd. rewrite dict_set_keys. destruct (decide (k ∈ d.*1)) as [|Hout]; [exact Hnd|].
  apply NoDup_app. split; [exact Hnd|]. split; [|apply NoDup_singleton].
  intros x Hx Hk. apply list_elem_of_singleton in Hk. congruence.
Qed.

Lemma rename_key_NoDup (from_attr to_attr : string) (d : Attrs) :
  NoDup d.*1 → NoDup (rename_key from_attr to_attr d).*1.
Proof.
  intros Hnd. unfold rename_key. destruct (Dict.get from_attr d); [|exact Hnd].
  apply dict_del_NoDup, dict_set_NoDup, Hnd.
Qed.

Lemma rename_key_gone (from_attr to_attr : string) (d : Attrs) :
  NoDup d.*1 → Dict.get from_attr (rename_key from_attr to_attr d) = None.
Proof.
  intros Hnd. unfold rename_key. destruct (Dict.get from_attr d) eqn:Hget; [|exact Hget].
  apply dict_get_del_eq, dict_set_NoDup, Hnd.
Qed.

Lemma rename_key_moved (from_attr to_attr : string) (d : Attrs) (v : attr_value) :
  from_attr ≠ to_attr → Dict.get from_attr d = Some v →
  Dict.get to_attr (rename_key from_attr to_attr d) = Some v.
Proof.
  intros Hne Hget. unfold rename_key. rewrite Hget.
  rewrite dict_get_del_ne by congruence. rewrite dict_get_set, decide_True by reflexivity.
  reflexivity.
Qed.

Lemma rename_key_other (from_attr to_attr k : string) (d : Attrs) :
  k ≠ from_attr → k ≠ to_attr →
  Dict.get k (rename_key from_attr to_attr d) = Dict.get k d.
Proof.
  intros Hf Ht. unfold rename_key. destruct (Dict.get from_attr d); [|reflexivity].
  rewrite dict_get_del_ne by exact Hf. rewrite dict_get_set, decide_False by congruence.
  reflexivity.
Qed.

Lemma rename_key_stays_gone (from_attr to_attr k : string) (d : Attrs) :
  to_attr ≠ k → Dict.get k d = None → Dict.get k (rename_key from_attr to_attr d) = None.
Proof.
  intros Ht Hk. unfold rename_key. destruct (Dict.get from_attr d) eqn:Hget; [|exact Hk].
  destruct (decide (k = from_attr)) as [->|Hne]; [congruence|].
  rewrite dict_get_del_ne by exact Hne. rewrite dict_get_set, decide_False by exact Ht.
  exact Hk.
Qed.

Lemma rename_keys_NoDup (replacements : list (string * string)) (d : Attrs) :
  NoDup d.*1 → NoDup (rename_keys replacements d).*1.
Proof.
  revert d. induction replacements as [|r rs IH]; intros d Hnd; [exact Hnd|].
  apply IH, rename_key_NoDup, Hnd.
Qed.

Lemma rename_keys_gone (before after : list (string * string)) (from_attr to_attr : string)
    (d : Attrs) :
  NoDup d.*1 →
  Forall (fun replacement => snd replacement ≠ from_attr) after →
  Dict.get from_attr (rename_keys (before ++ (from_attr, to_attr) :: after) d) = None.
Proof.
  intros Hnd Hafter. unfold rename_keys. rewrite foldl_app. cbn [foldl fst snd].
  fold (rename_keys before d).
  pose proof (rename_key_gone from_attr to_attr _ (rename_keys_NoDup before d Hnd)) as Hgone.
  revert Hgone. generalize (rename_key from_attr to_attr (rename_keys before d)).
  induction Hafter as [|[f t] after Ht _ IH]; intros d' Hgone; [exact Hgone|].
  cbn [foldl fst snd]. apply IH, rename_key_stays_gone; [exact Ht|exact Hgone].
Qed.

(** ** Positions and listings *)

Lemma lookup_at_cons (i : nat) (p : handle) (l : list node) :
  Dom.lookup_at (i :: p) l = l !! i ≫= node_at p.
Proof. cbn [Dom.lookup_at]. destruct (l !! i) as [n|]; [|reflexivity]. destruct p; reflexivity. Qed.

(** Induction on a node with the hypothesis for all its children. *)
Lemma node_ind' (P : node -> Prop) :
  (∀ s, P (NavigableString s)) →
  (∀ nm a c, Forall P c → P (Tag nm a c)) →
  ∀ n, P n.
Proof.
  intros Hs Ht. fix IH 1. intros [s|nm a c]; [apply Hs|]. apply Ht.
  induction c as [|x r IHc]; constructor; [apply IH|exact IHc].
Qed.

Lemma tags_from_elem (k : nat) (l : list node) (h : handle) (e : string * Attrs) :
  (h, e) ∈ Dom.tags_from k l ↔
  ∃ i p n, h = (k + i) :: p ∧ l !! i = Some n ∧ (p, e) ∈ Dom.tags_of n.
Proof.
  revert k. induction l as [|x r IH]; intros k; cbn [Dom.tags_from].
  - split; [intros Hin; apply elem_of_nil in Hin; contradiction|].
    intros (i & p & n & _ & Hl & _). discriminate.
  - rewrite elem_of_app, IH, list_elem_of_fmap. split.
    + intros [([p e'] & Heq & Hin)|(i & p & n & -> & Hl & Hin)].
      * cbn [fst snd] in Heq. injection Heq as -> ->.
        exists 0, p, x. rewrite Nat.add_0_r. auto.
      * exists (S i), p, n. split; [f_equal; lia|]. auto.
    + intros (i & p & n & -> & Hl & Hin). destruct i as [|i].
      * left. cbn in Hl. injection Hl as ->. exists (p, e).
        rewrite Nat.add_0_r. auto.
      * right. exists i, p, n. split; [f_equal; lia|]. auto.
Qed.

Lemma tags_of_elem (n : node) (h : handle) (nm : string) (a : Attrs) :
  (h, (nm, a)) ∈ Dom.tags_of n ↔ ∃ c, node_at h n = Some (Tag nm a c).
Proof.
  revert h. induction n as [s|nm0 a0 c0 IH] using node_ind'; intros h.
  - cbn [Dom.tags_of]. split; [intros Hin; apply elem_of_nil in Hin; contradiction|].
    intros [c Hc]. destruct h; cbn in Hc; discriminate.
  - rewrite tags_of_Tag, elem_of_cons, tags_from_elem. split.
    + intros [Heq|(i & p & x & -> & Hl & Hin)].
      * injection Heq as -> -> ->. exists c0. reflexivity.
      * rewrite Forall_forall in IH.
        apply (IH x (list_elem_of_lookup_2 _ _ _ Hl)) in Hin as [c Hc].
        exists c. cbn [node_at Nat.add]. rewrite lookup_at_cons, Hl. exact Hc.
    + intros [c Hc]. destruct h as [|i p].
      * cbn in Hc. injection Hc as -> -> ->. left. reflexivity.
      * right. cbn [node_at] in Hc. rewrite lookup_at_cons in Hc.
        destruct (c0 !! i) as [x|] eqn:Hl; [|discriminate]. cbn in Hc.
        exists i, p, x. split; [reflexivity|]. split; [exact Hl|].
        rewrite Forall_forall in IH. apply (IH x (list_elem_of_lookup_2 _ _ _ Hl)). eauto.
Qed.

(** A tag is listed at a position exactly when it stands there. *)
Lemma tags_lookup (soup : list node) (h : handle) (nm : string) (a : Attrs) :
  (h, (nm, a)) ∈ Dom.tags soup ↔ ∃ c, Dom.lookup_at h soup = Some (Tag nm a c).
Proof.
  unfold Dom.tags. rewrite tags_from_elem. split.
  - intros (i & p & n & -> & Hl & Hin). apply tags_of_elem in Hin as [c Hc].
    exists c. cbn [Nat.add]. rewrite lookup_at_cons, Hl. exact Hc.
  - intros [c Hc]. destruct h as [|i p]; [destruct soup; discriminate|].
    rewrite lookup_at_cons in Hc. destruct (soup !! i) as [n|] eqn:Hl; [|discriminate].
    cbn in Hc.
    exists i, p, n. split; [reflexivity|]. split; [exact Hl|]. apply tags_of_elem. eauto.
Qed.

Lemma tags_attrs_at (soup : Soup) (h : handle) (a : Attrs) :
  Dom.attrs_at h soup = Some a ↔ ∃ nm, (h, (nm, a)) ∈ Dom.tags soup.
Proof.
  unfold Dom.attrs_at. split.
  - destruct (Dom.lookup_at h soup) as [[s|nm a' c]|] eqn:Hl; try discriminate.
    intros [= ->]. exists nm. apply tags_lookup. eauto.
  - intros [nm Hin]. apply tags_lookup in Hin as [c ->]. reflexivity.
Qed.

Lemma fst_prefix (k : nat) (l : list (handle * (string * Attrs))) :
  (map (fun e => (k :: fst e, snd e)) l).*1 = cons k <$> l.*1.
Proof. induction l as [|e l IH]; [reflexivity|]. cbn. f_equal. exact IH. Qed.

Lemma tags_from_NoDup (c : list node) :
  (∀ x, x ∈ c → NoDup (Dom.tags_of x).*1) → ∀ k, NoDup (Dom.tags_from k c).*1.
Proof.
  intros Hc. induction c as [|x r IH]; intros k; [constructor|].
  cbn [Dom.tags_from]. rewrite fmap_app. apply NoDup_app. split; [|split].
  - rewrite fst_prefix. apply NoDup_fmap_2.
    + intros h1 h2 Heq. injection Heq as Heq. exact Heq.
    + apply Hc. left.
  - intros h Hin Hin'.
    apply list_elem_of_fmap in Hin as ([h1 e1] & -> & Hin).
    apply list_elem_of_fmap in Hin as ([h0 e0] & [= -> ->] & _).
    apply list_elem_of_fmap in Hin' as ([h2 e2] & Heq & Hin').
    cbn [fst] in Heq. subst h2.
    apply tags_from_elem in Hin' as (i & p & x' & Heq & _). injection Heq as Hk _. lia.
  - apply IH. intros x' Hx'. apply Hc. right. exact Hx'.
Qed.

Lemma tags_of_NoDup (n : node) : NoDup (Dom.tags_of n).*1.
Proof.
  induction n as [s|nm a c IH] using node_ind'; [constructor|].
  rewrite tags_of_Tag. cbn [fmap list_fmap fst]. apply NoDup_cons. split.
  - intros Hin. apply list_elem_of_fmap in Hin as ([h e] & Heq & Hin).
    cbn [fst] in Heq. subst h. apply tags_from_elem in Hin as (i & p & x & Heq & _).
    discriminate.
  - apply tags_from_NoDup. rewrite Forall_forall in IH. exact IH.
Qed.

(** No position is listed twice. *)
Lemma tags_NoDup (soup : Soup) : NoDup (Dom.tags soup).*1.
Proof. apply tags_from_NoDup. intros x _. apply tags_of_NoDup. Qed.

(** ** The attribute pass *)

Lemma find_all_with_attr_elem (attr : string) (soup : Soup) (h : handle) :
  h ∈ Bs4.find_all_with_attr attr soup ↔
  ∃ a, Dom.attrs_at h soup = Some a ∧ is_Some (Dict.get attr a).
Proof.
  unfold Bs4.find_all_with_attr. split.
  - intros Hin. apply list_elem_of_fmap in Hin as ([h' [nm a]] & Heq & Hin).
    cbn [fst] in Heq. subst h'. apply list_elem_of_filter in Hin as [Hsome Hin].
    exists a. split; [apply tags_attrs_at; eauto|exact Hsome].
  - intros (a & Hat & Hsome). apply tags_attrs_at in Hat as [nm Hin].
    apply list_elem_of_fmap. exists (h, (nm, a)). split; [reflexivity|].
    apply list_elem_of_filter. auto.
Qed.

Lemma find_all_with_attr_NoDup (attr : string) (soup : Soup) :
  NoDup (Bs4.find_all_with_attr attr soup).
Proof.
  unfold Bs4.find_all_with_attr. eapply sublist_NoDup; [apply (tags_NoDup soup)|].
  apply fmap_sublist, sublist_filter.
Qed.

Section AttributePass.
Context {platform : Platform} {env : Env}.
Variable config : Config.

Lemma attrs_at_rename (element q : handle) (from_attr to_attr : string) (v : attr_value)
    (soup : Soup) :
  Dom.attrs_at q (del_attr element from_attr (set_attr element to_attr v soup))
  = if decide (q = element)
    then (fun d => Dict.del from_attr (Dict.set to_attr v d)) <$> Dom.attrs_at q soup
    else Dom.attrs_at q soup.
Proof.
  unfold del_attr, set_attr. rewrite !attrs_at_update.
  destruct (decide (q = element)); [|reflexivity].
  destruct (Dom.attrs_at q soup); reflexivity.
Qed.

(** One element that carries [from_attr]. *)
Lemma rename_attribute_step (from_attr to_attr : string) (soup : Soup) (n : nat)
    (element : handle) (a : Attrs) (v : attr_value) (s : State) :
  Dom.attrs_at element soup = Some a → Dict.get from_attr a = Some v →
  rename_attribute config from_attr to_attr (soup, n) element s
  = (logged config ("Replaced attribute: " +:+ from_attr +:+ " -> " +:+ to_attr) "INFO" s,
     Ok (del_attr element from_attr (set_attr element to_attr v soup), n + 1)).
Proof.
  intros Hat Hget. unfold rename_attribute, getitem. cbn [fst snd].
  rewrite Hat. cbn [mbind option_bind]. rewrite Hget.
  unfold bind, lift. rewrite log_spec. reflexivity.
Qed.

(** The loop over the elements found for one replacement: [done] are the
    elements renamed so far. *)
Lemma rename_loop (from_attr to_attr : string) (soup0 : Soup) (rest : list handle) :
  ∀ (done : list handle) (cur : Soup) (n : nat) (s : State),
    NoDup (done ++ rest) →
    (∀ h, h ∈ rest → ∃ a, Dom.attrs_at h soup0 = Some a ∧ is_Some (Dict.get from_attr a)) →
    (∀ q, Dom.attrs_at q cur
          = if decide (q ∈ done)
            then rename_key from_attr to_attr <$> Dom.attrs_at q soup0
            else Dom.attrs_at q soup0) →
    ∃ s' cur',
      for_each rest (cur, n) (rename_attribute config from_attr to_attr) s
      = (s', Ok (cur', n + length rest)) ∧
      quiet s s' ∧
      (∀ q, Dom.attrs_at q cur'
            = if decide (q ∈ done ++ rest)
              then rename_key from_attr to_attr <$> Dom.attrs_at q soup0
              else Dom.attrs_at q soup0).
Proof.
  induction rest as [|h rest IH]; intros done cur n s Hnd Hfound Hinv.
  - exists s, cur. cbn [length for_each]. rewrite Nat.add_0_r.
    split; [reflexivity|]. split; [reflexivity|].
    intros q. rewrite app_nil_r. apply Hinv.
  - destruct (Hfound h) as (a & Hat & [v Hget]); [left|].
    assert (Hh : h ∉ done).
    { intros Hin. apply NoDup_app in Hnd as (_ & Hdisj & _). apply (Hdisj h Hin). left. }
    assert (Hcur : Dom.attrs_at h cur = Some a).
    { rewrite Hinv, decide_False by exact Hh. exact Hat. }
    cbn [for_each]. unfold bind at 1.
    rewrite (rename_attribute_step from_attr to_attr cur n h a v s Hcur Hget).
    destruct (IH (done ++ [h])
                (del_attr h from_attr (set_attr h to_attr v cur)) (n + 1)
                (logged config ("Replaced attribute: " +:+ from_attr +:+ " -> " +:+ to_attr)
                   "INFO" s)) as (s' & cur' & Hrun & Hq & Hinv').
    + rewrite <- app_assoc. exact Hnd.
    + intros h' Hin. apply Hfound. right. exact Hin.
    + intros q. rewrite attrs_at_rename, Hinv.
      destruct (decide (q = h)) as [->|Hne].
      * rewrite decide_False by exact Hh. rewrite decide_True by (apply elem_of_app; right; left).
        rewrite Hat. cbn. unfold rename_key. rewrite Hget. reflexivity.
      * destruct (decide (q ∈ done)) as [Hin|Hout].
        -- rewrite decide_True by (apply elem_of_app; left; exact Hin). reflexivity.
        -- rewrite decide_False; [reflexivity|].
           rewrite elem_of_app, list_elem_of_singleton. intros [|]; contradiction.
    + exists s', cur'. split; [|split].
      * rewrite Hrun. f_equal. f_equal. f_equal. cbn [length]. lia.
      * etransitivity; [apply logged_quiet|exact Hq].
      * intros q. rewrite Hinv', <- app_assoc. reflexivity.
Qed.

(** The elements found for one replacement, all renamed. *)
Lemma rename_pass (from_attr to_attr : string) (soup : Soup) (n : nat) (s : State) :
  ∃ s' soup',
    for_each (Bs4.find_all_with_attr from_attr soup) (soup, n)
      (rename_attribute config from_attr to_attr) s
    = (s', Ok (soup', n + length (Bs4.find_all_with_attr from_attr soup))) ∧
    quiet s s' ∧
    (∀ q, Dom.attrs_at q soup' = rename_key from_attr to_attr <$> Dom.attrs_at q soup).
Proof.
  destruct (rename_loop from_attr to_attr soup (Bs4.find_all_with_attr from_attr soup)
              [] soup n s) as (s' & soup' & Hrun & Hq & Hinv).
  - apply find_all_with_attr_NoDup.
  - intros h Hin. apply find_all_with_attr_elem, Hin.
  - intros q. rewrite decide_False by apply not_elem_of_nil. reflexivity.
  - exists s', soup'. split; [exact Hrun|]. split; [exact Hq|].
    intros q. rewrite Hinv. cbn [app].
    destruct (decide _) as [|Hout]; [reflexivity|].
    destruct (Dom.attrs_at q soup) as [a|] eqn:Hat; [|reflexivity].
    cbn. unfold rename_key. destruct (Dict.get from_attr a) eqn:Hget; [|reflexivity].
    destruct Hout. apply find_all_with_attr_elem. exists a. rewrite Hget. eauto.
Qed.

Lemma sanitize_attributes_loop (replacements : list (string * string)) :
  ∀ (soup : Soup) (n : nat) (s : State),
    ∃ s' soup' n',
      for_each replacements (soup, n)
        (fun acc replacement =>
           for_each (Bs4.find_all_with_attr (fst replacement) (fst acc)) acc
             (rename_attribute config (fst replacement) (snd replacement))) s
      = (s', Ok (soup', n')) ∧
      quiet s s' ∧
      (∀ q, Dom.attrs_at q soup' = rename_keys replacements <$> Dom.attrs_at q soup).
Proof.
  induction replacements as [|[from_attr to_attr] rs IH]; intros soup n s.
  - exists s, soup, n. split; [reflexivity|]. split; [reflexivity|].
    intros q. destruct (Dom.attrs_at q soup); reflexivity.
  - destruct (rename_pass from_attr to_attr soup n s) as (s1 & soup1 & Hrun1 & Hq1 & Hat1).
    destruct (IH soup1 (n + length (Bs4.find_all_with_attr from_attr soup)) s1)
      as (s' & soup' & n' & Hrun & Hq & Hat).
    exists s', soup', n'. split; [|split].
    + cbn [for_each fst snd]. unfold bind at 1. rewrite Hrun1. exact Hrun.
    + etransitivity; eassumption.
    + intros q. rewrite Hat, Hat1. destruct (Dom.attrs_at q soup); reflexivity.
Qed.

(** What the pass returns. *)
Lemma sanitize_attributes_spec (soup : Soup) (s : State) :
  ∃ soup' changes,
    snd (sanitize_attributes config soup s) = Ok (soup', changes) ∧
    quiet s (fst (sanitize_attributes config soup s)) ∧
    (∀ q, Dom.attrs_at q soup'
          = rename_keys (attribute_replacements config) <$> Dom.attrs_at q soup) ∧
    (unique_keys soup →
     ∀ before from_attr to_attr after,
       attribute_replacements config = before ++ (from_attr, to_attr) :: after →
       Forall (fun replacement => snd replacement ≠ from_attr) after →
       Bs4.find_all_with_attr from_attr soup' = []).
Proof.
  destruct (sanitize_attributes_loop (attribute_replacements config) soup 0 s)
    as (s' & soup' & n' & Hrun & Hq & Hat).
  unfold sanitize_attributes. rewrite Hrun. exists soup', n'.
  split; [reflexivity|]. split; [exact Hq|]. split; [exact Hat|].
  intros Hkeys before from_attr to_attr after Hrs Hafter.
  destruct (Bs4.find_all_with_attr from_attr soup') as [|h l] eqn:Hfound; [reflexivity|].
  assert (Hin : h ∈ Bs4.find_all_with_attr from_attr soup') by (rewrite Hfound; left).
  apply find_all_with_attr_elem in Hin as (a' & Hat' & [v Hget]).
  rewrite Hat in Hat'. destruct (Dom.attrs_at h soup) as [a|] eqn:Ha; [|discriminate].
  injection Hat' as <-. rewrite Hrs in Hget.
  rewrite rename_keys_gone in Hget; [discriminate| |exact Hafter].
  apply tags_attrs_at in Ha as [nm Hin]. unfold unique_keys in Hkeys.
  rewrite Forall_forall in Hkeys. exact (Hkeys _ Hin).
Qed.

(** X11. The attribute pass never raises and only logs. It turns the attribute
    dictionary of every element into the one obtained by applying the
    replacements in their order, each as [d[to] = d[from]; del d[from]] on a
    dictionary that has [from]. On a document whose dictionaries have unique
    keys, no element carries [from] afterwards, for every replacement whose
    [from] is not the [to] of a later replacement, also when [from] and [to]
    are the same name (the attribute is then deleted). *)
Theorem attribute_pass_renames (soup : Soup) (s : State) :
  ∃ soup' changes,
    snd (sanitize_attributes config soup s) = Ok (soup', changes) ∧
    quiet s (fst (sanitize_attributes config soup s)) ∧
    (∀ q, Dom.attrs_at q soup'
          = rename_keys (attribute_replacements config) <$> Dom.attrs_at q soup) ∧
    (unique_keys soup →
     ∀ before from_attr to_attr after,
       attribute_replacements config = before ++ (from_attr, to_attr) :: after →
       Forall (fun replacement => snd replacement ≠ from_attr) after →
       Bs4.find_all_with_attr from_attr soup' = []).
Proof.
  destruct (sanitize_attributes_spec soup s) as (soup' & changes & Hrun & Hq & Hat & Hgone).
  exists soup', changes. auto.
Qed.

(** X22. When no replacement renames to the [from] of an earlier replacement, the
    attribute pass applied to its own result finds nothing to do: it returns
    the document it was given with a count of zero and logs nothing. *)
Theorem attribute_pass_is_idempotent (soup soup' : Soup) (changes : nat) (s s2 : State) :
  unique_keys soup →
  (∀ before from_attr to_attr after,
     attribute_replacements config = before ++ (from_attr, to_attr) :: after →
     Forall (fun replacement => snd replacement ≠ from_attr) after) →
  snd (sanitize_attributes config soup s) = Ok (soup', changes) →
  sanitize_attributes config soup' s2 = (s2, Ok (soup', 0)).
Proof.
  intros Hkeys Horder Hrun.
  destruct (sanitize_attributes_spec soup s) as (soup1 & n1 & Hrun1 & _ & _ & Hgone).
  rewrite Hrun in Hrun1. injection Hrun1 as <- _.
  assert (Hnone : ∀ replacement, replacement ∈ attribute_replacements config →
                    Bs4.find_all_with_attr (fst replacement) soup' = []).
  { intros [from_attr to_attr] Hin. apply list_elem_of_split in Hin as (before & after & Hrs).
    apply (Hgone Hkeys before from_attr to_attr after Hrs), (Horder _ _ _ _ Hrs). }
  unfold sanitize_attributes. revert Hnone.
  generalize (attribute_replacements config). intros rs.
  induction rs as [|r rs IH]; intros Hnone; [reflexivity|].
  cbn [for_each fst snd]. rewrite (Hnone r) by left. cbn [for_each]. unfold bind, ret.
  apply IH. intros r' Hin. apply Hnone. right. exact Hin.
Qed.

(** X12. With one replacement configured, the count of the attribute pass is the
    number of elements that carried [from] in the document it was given; when
    [to] is another name, each of these elements has under [to] the value it
    had under [from], overwriting a [to] it already had, and every attribute
    with another name is as it was, on every element. *)
Theorem single_replacement_moves_values (from_attr to_attr : string) (soup : Soup)
    (s : State) :
  attribute_replacements config = [(from_attr, to_attr)] →
  ∃ soup',
    snd (sanitize_attributes config soup s)
    = Ok (soup', length (Bs4.find_all_with_attr from_attr soup)) ∧
    (from_attr ≠ to_attr →
     ∀ h, h ∈ Bs4.find_all_with_attr from_attr soup →
          attr_of soup' h to_attr = attr_of soup h from_attr) ∧
    (∀ h k, k ≠ from_attr → k ≠ to_attr → attr_of soup' h k = attr_of soup h k).
Proof.
  intros Hrs. unfold sanitize_attributes. rewrite Hrs. cbn [for_each fst snd].
  destruct (rename_pass from_attr to_attr soup 0 s) as (s' & soup' & Hrun & _ & Hat).
  unfold bind. rewrite Hrun. exists soup'. split; [reflexivity|]. split.
  - intros Hne h Hin. apply find_all_with_attr_elem in Hin as (a & Ha & [v Hget]).
    unfold attr_of. rewrite Hat, Ha. cbn. rewrite Hget.
    apply rename_key_moved; assumption.
  - intros h k Hf Ht. unfold attr_of. rewrite Hat.
    destruct (Dom.attrs_at h soup); [|reflexivity]. cbn. apply rename_key_other; assumption.
Qed.

End AttributePass.

(** ** The vendor CSS pattern *)




Lemma contains_char_cons (c d : ascii) (s : string) :
  PyStr.contains (String c "") (String d s) = false →
  c ≠ d ∧ PyStr.contains (String c "") s = false.
Proof.
  cbn [PyStr.contains String.prefix]. intros Hc. apply orb_false_iff in Hc as [Hp Hs].
  split; [|exact Hs]. intros ->. destruct (Ascii.ascii_dec d d); [|contradiction].
  destruct s; discriminate.
Qed.






Lemma sub_no_at (a t : string) :
  PyStr.contains "@" a = false → Css.sub (a +:+ t) = a +:+ Css.sub t.
Proof.
  unfold Css.sub. induction a as [|c a IH]; intros Ha; [reflexivity|].
  apply contains_char_cons in Ha as [Hc Ha]. rewrite !str_app_cons. cbn [Css.sub_from].
  unfold Css.match_badge at 1.
  change (Css.expect "@supports" (String c (a +:+ t)))
    with (if decide ("@"%char = c) then Css.expect "supports" (a +:+ t) else None).
  rewrite decide_False by exact Hc. cbn [mbind option_bind]. rewrite IH by exact Ha.
  reflexivity.
Qed.


Section CssPass.
Context {platform : Platform} {env : Env}.
Variable config : Config.


(** X14. A text without the character [@] goes through the CSS pass unchanged:
    the same text, no change counted, nothing logged. *)
Theorem css_without_at_sign_is_kept (content : string) (s : State) :
  PyStr.contains "@" content = false →
  sanitize_css config content s = (s, Ok (content, 0)).
Proof.
  intros Ha. unfold sanitize_css.
  pose proof (sub_no_at content "" Ha) as Hsub. rewrite !str_app_nil_r in Hsub.
  rewrite Hsub, decide_True by reflexivity. reflexivity.
Qed.

End CssPass.

(** ** The document after the metadata pass *)

(** The listing around a tag whose contents are replaced: what comes
    before the tag, and the tag itself, stay. *)
Lemma tags_from_set_contents (g : list node -> list node) (p : handle) :
  ∀ (k : nat) (l : list node) (i : nat) (nm : string) (a : Attrs) (c : list node),
    Dom.lookup_at (i :: p) l = Some (Tag nm a c) →
    ∃ pre rest rest',
      Dom.tags_from k l = pre ++ ((k + i) :: p, (nm, a)) :: rest ∧
      Dom.tags_from k (Dom.update_at (i :: p) (Dom.on_contents g) l)
      = pre ++ ((k + i) :: p, (nm, a)) :: rest'.
Proof.
  induction p as [|j p IHp]; intros k l; revert k;
    induction l as [|x r IHl]; intros k i nm a c Hl; try (destruct i; discriminate).
  - destruct i as [|i].
    + cbn in Hl. injection Hl as ->. exists [].
      cbn [Dom.update_at alter list_alter Dom.on_contents Dom.tags_from].
      rewrite !tags_of_Tag, Nat.add_0_r. cbn [map fst snd app]. eauto.
    + destruct (IHl (S k) i nm a c Hl) as (pre & rest & rest' & H1 & H2).
      exists (map (fun e => (k :: fst e, snd e)) (Dom.tags_of x) ++ pre), rest, rest'.
      cbn [Dom.update_at alter list_alter Dom.tags_from] in *.
      rewrite H1, H2, <- !app_assoc. replace (S k + i) with (k + S i) by lia. auto.
  - destruct i as [|i].
    + rewrite lookup_at_cons in Hl. cbn in Hl.
      destruct x as [st|nm0 a0 c0]; [discriminate|].
      destruct (IHp 0 c0 j nm a c Hl) as (pre & rest & rest' & H1 & H2).
      exists (([k], (nm0, a0)) :: map (fun e => (k :: fst e, snd e)) pre),
             (map (fun e => (k :: fst e, snd e)) rest ++ Dom.tags_from (S k) r),
             (map (fun e => (k :: fst e, snd e)) rest' ++ Dom.tags_from (S k) r).
      cbn [Dom.update_at alter list_alter Dom.on_contents Dom.tags_from].
      rewrite !tags_of_Tag.
      change (Dom.tags_from 0 (alter _ j c0))
        with (Dom.tags_from 0 (Dom.update_at (j :: p) (Dom.on_contents g) c0)).
      rewrite H1, H2, Nat.add_0_r. cbn [map fst snd app Nat.add].
      rewrite !map_app. cbn [map fst snd]. rewrite <- !app_assoc. auto.
    + assert (Hl' : Dom.lookup_at (i :: j :: p) r = Some (Tag nm a c)) by exact Hl.
      destruct (IHl (S k) i nm a c Hl') as (pre & rest & rest' & H1 & H2).
      exists (map (fun e => (k :: fst e, snd e)) (Dom.tags_of x) ++ pre), rest, rest'.
      cbn [Dom.update_at alter list_alter Dom.tags_from] in *.
      rewrite H1, H2, <- !app_assoc. replace (S k + i) with (k + S i) by lia. auto.
Qed.

Lemma find_name_tag (nm : string) (soup : Soup) (t : handle) :
  Bs4.find_name nm soup = Some t → ∃ a c, Dom.lookup_at t soup = Some (Tag nm a c).
Proof.
  unfold Bs4.find_name. intros Hhead. apply head_Some_elem_of in Hhead.
  apply list_elem_of_fmap in Hhead as ([t' [nm' a]] & Heq & Hin). cbn [fst] in Heq. subst t'.
  apply list_elem_of_filter in Hin as [Hnm Hin]. cbn [fst snd] in Hnm. subst nm'.
  apply tags_lookup in Hin as [c Hc]. eauto.
Qed.

Lemma head_filter_rest {A B} (f : A -> B) (P : A -> Prop) `{!∀ x, Decision (P x)}
    (pre rest rest' : list A) (e : A) :
  P e → NoDup (f <$> (pre ++ e :: rest)) →
  head (map f (filter P (pre ++ e :: rest))) = Some (f e) →
  head (map f (filter P (pre ++ e :: rest'))) = Some (f e).
Proof.
  intros He Hnd Hhead. rewrite filter_app in *. rewrite filter_cons_True in * by exact He.
  pose proof (list_elem_of_filter P pre) as Hmem.
  destruct (filter P pre) as [|e' more]; [reflexivity|].
  cbn in Hhead. injection Hhead as Heq.
  assert (Hin : e' ∈ pre) by (apply Hmem; left).
  rewrite fmap_app in Hnd. apply NoDup_app in Hnd as (_ & Hdisj & _).
  destruct (Hdisj (f e)).
  - rewrite <- Heq. apply list_elem_of_fmap. eauto.
  - cbn. left.
Qed.

(** The first tag of a name is still the first after its own contents
    were replaced. *)
Lemma find_name_set_contents (g : list node -> list node) (nm : string) (soup : Soup)
    (t : handle) :
  Bs4.find_name nm soup = Some t →
  Bs4.find_name nm (Dom.update_at t (Dom.on_contents g) soup) = Some t.
Proof.
  intros Hfind. destruct (find_name_tag nm soup t Hfind) as (a & c & Hl).
  destruct t as [|i p]; [destruct soup; discriminate|].
  destruct (tags_from_set_contents g p 0 soup i nm a c Hl) as (pre & rest & rest' & H1 & H2).
  cbn [Nat.add] in H1, H2.
  pose proof (tags_NoDup soup) as Hnd. unfold Dom.tags in Hnd. rewrite H1 in Hnd.
  unfold Bs4.find_name, Dom.tags in *. rewrite H1 in Hfind. rewrite H2.
  exact (head_filter_rest fst (fun e : handle * (string * Attrs) => fst (snd e) = nm)
           pre rest rest' (i :: p, (nm, a)) eq_refl Hnd Hfind).
Qed.

(** [tag.string] of the tag at a position. *)
Lemma string_at_set_string (v : string) (t : handle) :
  ∀ (l : list node) (nm : string) (a : Attrs) (c : list node),
    Dom.lookup_at t l = Some (Tag nm a c) →
    Dom.lookup_at t (Dom.update_at t (Dom.on_contents (fun _ => [NavigableString v])) l)
      ≫= Dom.string_of = Some v.
Proof.
  induction t as [|i t IH]; intros l nm a c Hl; [destruct l; discriminate|].
  rewrite lookup_at_cons in Hl. cbn [Dom.update_at]. rewrite lookup_at_cons.
  rewrite list_lookup_alter_eq.
  destruct (l !! i) as [n|]; [|discriminate]. cbn in Hl. cbn [fmap option_fmap option_map mbind option_bind].
  destruct t as [|j t].
  - cbn in Hl. injection Hl as ->. reflexivity.
  - cbn [node_at] in Hl. destruct n as [st|nm0 a0 c0]; [discriminate|].
    cbn [Dom.on_contents node_at]. exact (IH c0 nm a c Hl).
Qed.

Lemma string_at_update_attrs (g : Attrs -> Attrs) (p : handle) :
  (∀ n q, node_at q (match p with
                     | [] => Dom.on_attrs g n
                     | _ => Dom.on_contents (Dom.update_at p (Dom.on_attrs g)) n
                     end) ≫= Dom.string_of
          = node_at q n ≫= Dom.string_of) ∧
  (∀ l q, Dom.lookup_at q (Dom.update_at p (Dom.on_attrs g) l) ≫= Dom.string_of
          = Dom.lookup_at q l ≫= Dom.string_of).
Proof.
  induction p as [|i p [IHnode IHlist]].
  - split; [|reflexivity]. intros n q. destruct n as [st|nm a c]; [reflexivity|].
    destruct q; reflexivity.
  - assert (Hlist : ∀ l q, Dom.lookup_at q (Dom.update_at (i :: p) (Dom.on_attrs g) l)
                             ≫= Dom.string_of
                           = Dom.lookup_at q l ≫= Dom.string_of).
    { intros l q. destruct q as [|j q]; [destruct l, i; reflexivity|].
      cbn [Dom.update_at]. rewrite !lookup_at_cons.
      destruct (decide (i = j)) as [->|Hne].
      - rewrite list_lookup_alter_eq. destruct (l !! j) as [n|]; [|reflexivity].
        cbn [fmap option_fmap option_map mbind option_bind]. apply IHnode.
      - rewrite list_lookup_alter_ne by exact Hne. reflexivity. }
    split; [|exact Hlist].
    intros n q. destruct n as [st|nm a c]; [reflexivity|]. cbn [Dom.on_contents].
    destruct q as [|j q].
    + cbn [node_at mbind option_bind Dom.string_of]. cbn [Dom.update_at].
      destruct c as [|x [|y r]]; [destruct i; reflexivity| |destruct i as [|[|i]]; reflexivity].
      destruct i as [|i]; [|reflexivity]. cbn [alter list_alter].
      exact (IHnode x []).
    + cbn [node_at]. apply Hlist.
Qed.

Section MetadataResult.
Context {platform : Platform} {env : Env}.
Variable config : Config.

Lemma string_at_set_attr (tag q : handle) (key : string) (v : attr_value) (soup : Soup) :
  Dom.lookup_at q (set_attr tag key v soup) ≫= Dom.string_of
  = Dom.lookup_at q soup ≫= Dom.string_of.
Proof. apply string_at_update_attrs. Qed.

Lemma find_name_set_attr (nm : string) (tag : handle) (key : string) (v : attr_value)
    (soup : Soup) :
  Bs4.find_name nm (set_attr tag key v soup) = Bs4.find_name nm soup.
Proof.
  unfold Bs4.find_name, set_attr. f_equal.
  pose (view := fun e : string * Attrs => fst e).
  pose (P := fun b : string => bool_decide (b = nm)).
  pose proof (filter_view view P
                (Dom.tags (Dom.update_at tag (Dom.on_attrs (Dict.set key v)) soup))
                (Dom.tags soup)) as Hview.
  assert (Hfilter : ∀ l : list (handle * (string * Attrs)),
            filter (fun e => P (view (snd e)) = true) l = filter (fun e => fst (snd e) = nm) l).
  { intros l. apply list_filter_iff. intros e. unfold P, view.
    rewrite bool_decide_eq_true. reflexivity. }
  rewrite !Hfilter in Hview. apply Hview. apply tags_update_view. reflexivity.
Qed.

Lemma find_name_overwrites (nm : string) (targets : list (option handle * string))
    (soup : Soup) :
  Bs4.find_name nm (foldl overwrite soup targets) = Bs4.find_name nm soup.
Proof.
  revert soup. induction targets as [|[[t|] v] targets IH]; intros soup; [reflexivity|..];
    cbn [foldl]; rewrite IH; unfold overwrite; cbn [fst snd];
    [apply find_name_set_attr|reflexivity].
Qed.

Lemma string_at_overwrites (q : handle) (targets : list (option handle * string))
    (soup : Soup) :
  Dom.lookup_at q (foldl overwrite soup targets) ≫= Dom.string_of
  = Dom.lookup_at q soup ≫= Dom.string_of.
Proof.
  revert soup. induction targets as [|[[t|] v] targets IH]; intros soup; [reflexivity|..];
    cbn [foldl]; rewrite IH; unfold overwrite; cbn [fst snd];
    [apply string_at_set_attr|reflexivity].
Qed.

Lemma find_overwrites (nm attr against : string) (targets : list (option handle * string))
    (soup : Soup) :
  attr ≠ "content" →
  Bs4.find nm attr against (foldl overwrite soup targets) = Bs4.find nm attr against soup.
Proof.
  intros Hattr. revert soup. induction targets as [|t targets IH]; intros soup; [reflexivity|].
  cbn [foldl]. rewrite IH. apply find_overwrite, Hattr.
Qed.

Lemma find_tag (nm attr against : string) (soup : Soup) (h : handle) :
  Bs4.find nm attr against soup = Some h → is_Some (Dom.attrs_at h soup).
Proof.
  unfold Bs4.find, Bs4.find_all. intros Hhead. apply head_Some_elem_of in Hhead.
  apply list_elem_of_fmap in Hhead as ([h' [nm' a]] & Heq & Hin). cbn [fst] in Heq. subst h'.
  apply list_elem_of_filter in Hin as [_ Hin].
  exists a. apply tags_attrs_at. eauto.
Qed.

(** The [content] of a tag after a sequence of overwrites: the value of
    the last overwrite that hit the tag. *)
Lemma content_after_overwrites (h : handle) (targets : list (option handle * string)) :
  ∀ soup, is_Some (Dom.attrs_at h soup) →
    attr_of (foldl overwrite soup targets) h "content"
    = foldl (fun cur target =>
               if decide (fst target = Some h) then Some (AStr (snd target)) else cur)
            (attr_of soup h "content") targets.
Proof.
  induction targets as [|[tag v] targets IH]; intros soup Hsome; [reflexivity|].
  cbn [foldl fst snd]. rewrite IH.
  - f_equal. unfold overwrite. cbn [fst snd]. destruct (decide (tag = Some h)) as [->|Hne].
    + unfold attr_of. rewrite attrs_at_set_attr, decide_True by reflexivity.
      destruct Hsome as [a ->]. cbn. rewrite dict_get_set, decide_True by reflexivity.
      reflexivity.
    + destruct tag as [t|]; [|reflexivity]. apply attr_of_set_attr. congruence.
  - unfold overwrite. cbn [fst snd]. destruct tag as [t|]; [|exact Hsome].
    rewrite attrs_at_set_attr. destruct (decide (h = t)); [|exact Hsome].
    destruct Hsome as [a ->]. eexists. reflexivity.
Qed.

End MetadataResult.

Section MetadataPass.
Context {platform : Platform} {env : Env}.
Variable config : Config.

(** The document the metadata pass returns, from the document [soup1]
    that the removal of the vendor elements left. *)
Lemma sanitize_metadata_result (soup : Soup) (file_path : Path) (s s1 : State)
    (soup1 : Soup) (removed : nat) (new_title new_description : string) :
  remove_vendor_elements config soup s = (s1, Ok (soup1, removed)) →
  _get_page_title config file_path = Ok new_title →
  _get_page_description config file_path = Ok new_description →
  let soup2 := match Bs4.find_name "title" soup1 with
               | Some t => set_string t new_title soup1
               | None => soup1
               end in
  let targets :=
    [ (Bs4.find "meta" "name" "description" soup2, new_description);
      (Bs4.find "meta" "property" "og:title" soup2, new_title);
      (Bs4.find "meta" "property" "og:description" soup2, new_description);
      (Bs4.find "meta" "name" "twitter:title" soup2, new_title);
      (Bs4.find "meta" "name" "twitter:description" soup2, new_description) ] in
  snd (sanitize_metadata config soup file_path s)
  = Ok (foldl overwrite soup2 targets,
        removed + present (Bs4.find_name "title" soup1)
        + sum_list (map (fun t => present (fst t)) targets)).
Proof.
  intros Hremove Htitle Hdesc soup2 targets.
  unfold sanitize_metadata, bind at 1. rewrite Hremove. cbv beta iota.
  revert s1 Hremove. intros s1 _. revert s1.
  match goal with |- ∀ s1, snd (?m s1) = Ok ?r => change (returns m r) end.
  rewrite Htitle, Hdesc.
  eapply returns_bind; [apply update_title_returns, Htitle|]. cbn [fst snd].
  fold soup2.
  eapply returns_bind; [apply overwrite_content_returns, returns_log|]. cbn [fst snd].
  eapply returns_bind; [apply overwrite_content_returns, returns_ret|]. cbn [fst snd].
  eapply returns_bind; [apply overwrite_content_returns, returns_ret|]. cbn [fst snd].
  eapply returns_bind; [apply overwrite_content_returns, returns_ret|]. cbn [fst snd].
  eapply returns_bind; [apply overwrite_content_returns, returns_ret|]. cbn [fst snd].
  rewrite !find_overwrite by discriminate.
  unfold targets. cbn [foldl map sum_list fst snd].
  eapply returns_eq; [apply returns_ret|]. f_equal. cbv [id]. lia.
Qed.

(** X16. After the metadata pass the document reads what the pass computed: the
    first [title] tag has the page title as its string, and each of the five
    meta tags, looked up in the returned document as the pass looks them up,
    has as [content] the description or the title of the page. A tag found
    under two lookups holds the value written last, which is why each
    statement excludes the later lookups that write the other value. *)
Theorem metadata_tags_hold_new_values (soup : Soup) (file_path : Path) (s s' : State)
    (soup' : Soup) (changes : nat) (new_title new_description : string) :
  _get_page_title config file_path = Ok new_title →
  _get_page_description config file_path = Ok new_description →
  sanitize_metadata config soup file_path s = (s', Ok (soup', changes)) →
  (∀ t, Bs4.find_name "title" soup' = Some t →
        Dom.lookup_at t soup' ≫= Dom.string_of = Some new_title) ∧
  (∀ h, Bs4.find "meta" "name" "description" soup' = Some h →
        Bs4.find "meta" "property" "og:title" soup' ≠ Some h →
        Bs4.find "meta" "name" "twitter:title" soup' ≠ Some h →
        attr_of soup' h "content" = Some (AStr new_description)) ∧
  (∀ h, Bs4.find "meta" "property" "og:title" soup' = Some h →
        Bs4.find "meta" "property" "og:description" soup' ≠ Some h →
        Bs4.find "meta" "name" "twitter:description" soup' ≠ Some h →
        attr_of soup' h "content" = Some (AStr new_title)) ∧
  (∀ h, Bs4.find "meta" "property" "og:description" soup' = Some h →
        Bs4.find "meta" "name" "twitter:title" soup' ≠ Some h →
        attr_of soup' h "content" = Some (AStr new_description)) ∧
  (∀ h, Bs4.find "meta" "name" "twitter:title" soup' = Some h →
        Bs4.find "meta" "name" "twitter:description" soup' ≠ Some h →
        attr_of soup' h "content" = Some (AStr new_title)) ∧
  (∀ h, Bs4.find "meta" "name" "twitter:description" soup' = Some h →
        attr_of soup' h "content" = Some (AStr new_description)).
Proof.
  intros Htitle Hdesc Hrun.
  pose proof Hrun as Hfirst. unfold sanitize_metadata in Hfirst.
  apply bind_ok_inv in Hfirst as (s1 & [soup1 removed] & Hremove & _).
  pose proof (sanitize_metadata_result soup file_path s s1 soup1 removed new_title
                new_description Hremove Htitle Hdesc) as Hresult.
  set (soup2 := match Bs4.find_name "title" soup1 with
                | Some t => set_string t new_title soup1
                | None => soup1
                end) in *.
  set (targets := [ (Bs4.find "meta" "name" "description" soup2, new_description);
                    (Bs4.find "meta" "property" "og:title" soup2, new_title);
                    (Bs4.find "meta" "property" "og:description" soup2, new_description);
                    (Bs4.find "meta" "name" "twitter:title" soup2, new_title);
                    (Bs4.find "meta" "name" "twitter:description" soup2, new_description) ])
    in *.
  assert (Hsoup : soup' = foldl overwrite soup2 targets).
  { cbv zeta in Hresult. rewrite Hrun in Hresult. injection Hresult as Hs _. exact Hs. }
  clear Hresult. subst soup'.
  assert (Hcontent : ∀ h against attr, attr ≠ "content" →
            Bs4.find "meta" attr against (foldl overwrite soup2 targets) = Some h →
            attr_of (foldl overwrite soup2 targets) h "content"
            = foldl (fun cur target =>
                       if decide (fst target = Some h) then Some (AStr (snd target)) else cur)
                    (attr_of soup2 h "content") targets).
  { intros h against attr Hattr Hfind. apply content_after_overwrites.
    rewrite find_overwrites in Hfind by exact Hattr. eapply find_tag, Hfind. }
  split; [|repeat split].
  - intros t Ht. rewrite find_name_overwrites in Ht. rewrite string_at_overwrites.
    unfold soup2 in *. destruct (Bs4.find_name "title" soup1) as [t1|] eqn:Ht1.
    + unfold set_string in *. rewrite (find_name_set_contents _ _ _ _ Ht1) in Ht.
      injection Ht as <-. destruct (find_name_tag _ _ _ Ht1) as (a & c & Hl).
      exact (string_at_set_string new_title t1 soup1 "title" a c Hl).
    + congruence.
  - intros h Hd Hot Htt. rewrite (Hcontent h "description" "name") by (discriminate || exact Hd).
    rewrite find_overwrites in Hd, Hot, Htt by discriminate.
    unfold targets. cbn [foldl fst snd]. rewrite Hd.
    repeat case_decide; congruence.
  - intros h Hot Hod Htd. rewrite (Hcontent h "og:title" "property") by (discriminate || exact Hot).
    rewrite find_overwrites in Hot, Hod, Htd by discriminate.
    unfold targets. cbn [foldl fst snd]. rewrite Hot.
    repeat case_decide; congruence.
  - intros h Hod Htt.
    rewrite (Hcontent h "og:description" "property") by (discriminate || exact Hod).
    rewrite find_overwrites in Hod, Htt by discriminate.
    unfold targets. cbn [foldl fst snd]. rewrite Hod.
    repeat case_decide; congruence.
  - intros h Htt Htd. rewrite (Hcontent h "twitter:title" "name") by (discriminate || exact Htt).
    rewrite find_overwrites in Htt, Htd by discriminate.
    unfold targets. cbn [foldl fst snd]. rewrite Htt.
    repeat case_decide; congruence.
  - intros h Htd.
    rewrite (Hcontent h "twitter:description" "name") by (discriminate || exact Htd).
    rewrite find_overwrites in Htd by discriminate.
    unfold targets. cbn [foldl fst snd]. rewrite Htd.
    repeat case_decide; congruence.
Qed.

End MetadataPass.

(** ** The order of the report *)

Lemma ascii_compare_refl (a : ascii) : Ascii.compare a a = Eq.
Proof. unfold Ascii.compare. apply N.compare_refl. Qed.

Lemma ascii_compare_lt_trans (a b c : ascii) :
  Ascii.compare a b = Lt → Ascii.compare b c = Lt → Ascii.compare a c = Lt.
Proof.
  unfold Ascii.compare. rewrite !N.compare_lt_iff. apply N.lt_trans.
Qed.

Lemma string_compare_trans (a : string) :
  ∀ b c, String.compare a b ≠ Gt → String.compare b c ≠ Gt → String.compare a c ≠ Gt.
Proof.
  induction a as [|x a IH]; intros [|y b] [|z c]; cbn [String.compare]; try congruence.
  destruct (Ascii.compare x y) eqn:Hxy; [| |congruence];
    destruct (Ascii.compare y z) eqn:Hyz; try congruence.
  - apply Ascii.compare_eq_iff in Hxy, Hyz. subst. rewrite ascii_compare_refl. apply IH.
  - apply Ascii.compare_eq_iff in Hxy. subst. rewrite Hyz. congruence.
  - apply Ascii.compare_eq_iff in Hyz. subst. rewrite Hxy. congruence.
  - rewrite (ascii_compare_lt_trans x y z Hxy Hyz). congruence.
Qed.

Lemma leb_compare (a b : string) : String.leb a b = true ↔ String.compare a b ≠ Gt.
Proof. unfold String.leb. destruct (String.compare a b); split; congruence. Qed.

#[global] Instance leb_transitive : Transitive (fun a b : string => Is_true (String.leb a b)).
Proof.
  intros a b c Hab Hbc. apply Is_true_true in Hab, Hbc. apply Is_true_true.
  rewrite leb_compare in *. eapply string_compare_trans; eassumption.
Qed.

#[global] Instance leb_total_order : Total (fun a b : string => Is_true (String.leb a b)).
Proof.
  intros a b. destruct (String.leb_total a b) as [H|H]; [left|right]; apply Is_true_true, H.
Qed.

Lemma strongly_sorted_impl {A} (R R' : relation A) (l : list A) :
  (∀ a b, R a b → R' a b) → StronglySorted R l → StronglySorted R' l.
Proof.
  intros Himpl Hl. induction Hl as [|a l Hl IH Ha]; [constructor|].
  constructor; [exact IH|]. eapply Forall_impl; [exact Ha|]. intros b. apply Himpl.
Qed.

(** X17. The summary of the report spells out the count of processed files and
    then the downloaded assets: their number, and one line for each asset,
    each asset of the set once, in ascending order of their strings; the
    log follows, one entry on a line. *)
Theorem report_lists_assets_in_order (s : State) :
  ∃ assets,
    summary s
    = nl +:+ repeat_str "=" 60 +:+ nl +:+ "SANITIZATION COMPLETE" +:+ nl +:+
      repeat_str "=" 60 +:+ nl +:+ nl +:+
      "Files Processed: " +:+ pretty (processed_files s) +:+ nl +:+
      "Assets Downloaded: " +:+ pretty (length assets) +:+ nl +:+ nl +:+
      "Downloaded Assets:" +:+ nl +:+
      String.concat "" (map (fun asset => "  - " +:+ asset +:+ nl) assets) +:+
      nl +:+ "Full log:" +:+ nl +:+ repeat_str "-" 60 +:+ nl +:+
      PyStr.join nl (report s) ∧
    NoDup assets ∧
    (∀ asset, asset ∈ assets ↔ asset ∈ downloaded_assets s) ∧
    StronglySorted (fun a b => String.leb a b = true) assets.
Proof.
  set (R := fun a b : string => Is_true (String.leb a b)).
  exists (merge_sort R (elements (downloaded_assets s))).
  pose proof (merge_sort_Permutation R (elements (downloaded_assets s))) as Hperm.
  split; [|split; [|split]].
  - assert (Hlen : length (merge_sort R (elements (downloaded_assets s)))
                   = size (downloaded_assets s)) by (rewrite Hperm; reflexivity).
    unfold summary. rewrite Hlen. reflexivity.
  - rewrite Hperm. apply NoDup_elements.
  - intros asset. rewrite Hperm. apply elem_of_elements.
  - apply (strongly_sorted_impl R); [|apply StronglySorted_merge_sort; exact _].
    intros a b Hab. apply Is_true_true, Hab.
Qed.

(** ** The project name *)







Section Names.
Context {platform : Platform}.


End Names.

(** ** The files found *)


Section Finding.
Context {platform : Platform} {env : Env}.
Variable config : Config.


End Finding.

(** ** Paths below the directory of the page *)

Lemma common_len_prefix `{Platform} (l r : list string) : common_len l (l ++ r) = length l.
Proof.
  induction l as [|e l IH]; [destruct r; reflexivity|].
  cbn [app common_len length]. rewrite decide_True by reflexivity. rewrite IH. reflexivity.
Qed.

Section Below.
Context {platform : Platform}.

(** X20. On every platform, a file below the directory of the page is referred
    to by its components under that directory, joined by the separator of
    the platform, without any [..]: the fallback is not taken. *)
Theorem path_below_needs_no_dotdot (from_file : Path) (below : list string) :
  Forall kept below → below ≠ [] →
  get_relative_path from_file
    (MkPath (anchor from_file) (parts (parent from_file) ++ below))
  = PyStr.join sep below.
Proof.
  intros Hkept Hne. unfold get_relative_path, relpath, abspath.
  cbn [anchor parts parent].
  set (base := match anchor from_file with
               | Some _ => removelast (parts from_file)
               | None => cwd_parts ++ removelast (parts from_file)
               end).
  assert (Hstart : (match anchor from_file with
                    | Some d => (d, normparts [] (removelast (parts from_file)))
                    | None => (cwd_drive,
                               normparts [] (cwd_parts ++ removelast (parts from_file)))
                    end)
                   = (match anchor from_file with Some d => d | None => cwd_drive end,
                      normparts [] base)).
  { unfold base. destruct (anchor from_file); reflexivity. }
  assert (Hpath : (match anchor from_file with
                   | Some d => (d, normparts [] (removelast (parts from_file) ++ below))
                   | None => (cwd_drive,
                              normparts []
                                (cwd_parts ++ removelast (parts from_file) ++ below))
                   end)
                  = (match anchor from_file with Some d => d | None => cwd_drive end,
                     normparts [] base ++ below)).
  { unfold base. destruct (anchor from_file); rewrite ?app_assoc, normparts_app;
      rewrite normparts_kept by exact Hkept; rewrite rev_involutive; reflexivity. }
  rewrite Hstart, Hpath. rewrite decide_True by reflexivity.
  rewrite common_len_prefix, Nat.sub_diag, drop_app_length. cbn [replicate app].
  destruct below; [contradiction|reflexivity].
Qed.

End Below.

(** ** The URLs that are retrieved *)

#[global] Instance vetted_preorder `{Env} (config : Config) : PreOrder (vetted config).
Proof.
  split.
  - intros s. exists []. rewrite app_nil_r. split; [reflexivity|constructor].
  - intros s1 s2 s3 (l1 & He1 & Hl1) (l2 & He2 & Hl2). exists (l1 ++ l2).
    split; [rewrite He2, He1, app_assoc; reflexivity|apply Forall_app; auto].
Qed.

Section Vetted.
Context {platform : Platform} {env : Env}.
Variable config : Config.











End Vetted.

(** ** The files a run touches *)

#[global] Instance lasting_preorder : PreOrder lasting.
Proof.
  split.
  - intros s path Hsome. exact Hsome.
  - intros s1 s2 s3 H12 H23 path Hsome. apply H23, H12, Hsome.
Qed.

Lemma lasting_insert (s s' : State) (path content : string) :
  files s' = <[path := content]> (files s) → lasting s s'.
Proof.
  intros Hf p Hsome. rewrite Hf. destruct (decide (path = p)) as [->|Hne].
  - rewrite lookup_insert_eq. eauto.
  - rewrite lookup_insert_ne by exact Hne. exact Hsome.
Qed.

Lemma lasting_same (s s' : State) : files s' = files s → lasting s s'.
Proof. intros Hf p Hsome. rewrite Hf. exact Hsome. Qed.

Section Touched.
Context {platform : Platform} {env : Env}.
Variable config : Config.

Lemma run_lasting (root_dir : Path) : respects lasting (run config root_dir).
Proof.
  apply run_respects; [exact _|..].
  - intros message level s. rewrite log_spec. apply lasting_same. reflexivity.
  - intros url local_path s. pose proof (download_asset_spec config url local_path s) as Hspec.
    destruct (urlretrieve_outcome _ _ _) as [data|e]; rewrite Hspec; cbn [fst].
    + eapply lasting_insert. reflexivity.
    + apply lasting_same. reflexivity.
  - intros path s. unfold read_text. destruct (files s !! path); reflexivity.
  - intros path content s. eapply lasting_insert. reflexivity.
  - intros src dst s. unfold copy2. destruct (files s !! src); [|reflexivity].
    destruct (decide (src = dst)); [reflexivity|]. eapply lasting_insert. reflexivity.
  - intros text s. apply lasting_same. reflexivity.
  - intros s. apply lasting_same. reflexivity.
Qed.

Lemma backup_file_held_other (path : string) (file_path : Path) :
  path ≠ path_str file_path +:+ output_backup_suffix config →
  respects (held path) (backup_file config file_path).
Proof.
  intros Hne s. unfold backup_file. destruct (output_backup config); [|reflexivity].
  unfold bind, copy2. destruct (files s !! path_str file_path); [|reflexivity].
  destruct (decide _); [reflexivity|].
  rewrite log_spec. cbn [fst].
  etransitivity; [|apply quiet_held, logged_quiet].
  split; [cbn; apply lookup_insert_ne; congruence|]. eexists. reflexivity.
Qed.

Lemma process_file_held_other (path : string) (file_path : Path) :
  path ≠ path_str file_path →
  path ≠ path_str file_path +:+ output_backup_suffix config →
  path ∉ asset_paths config →
  respects (held path) (process_file config file_path).
Proof.
  intros Hfile Hbackup Hout.
  assert (Hlog : ∀ message level, respects (held path) (log config message level)).
  { intros message level s0. apply quiet_held, log_quiet. }
  unfold process_file, process_file_passes.
  repeat first [ apply backup_file_held_other; exact Hbackup
               | apply sanitize_css_respects | apply sanitize_metadata_respects
               | apply sanitize_attributes_respects
               | apply sanitize_assets_held; exact Hout
               | apply write_back_held; congruence
               | respect_step ]; try exact _.
  intros s0. unfold read_text. destruct (files s0 !! _); reflexivity.
Qed.

Lemma process_all_held_other (path : string) (html_files : list Path) :
  Forall (fun file_path =>
            path ≠ path_str file_path ∧
            path ≠ path_str file_path +:+ output_backup_suffix config) html_files →
  path ∉ asset_paths config →
  respects (held path) (process_all config html_files).
Proof.
  intros Hfiles Hout s. revert s.
  induction Hfiles as [|file_path rest [Hfile Hbackup] _ IH]; intros s; [reflexivity|].
  rewrite process_all_cons. etransitivity; [|apply IH].
  rewrite attempt_spec.
  pose proof (process_file_held_other path file_path Hfile Hbackup Hout s) as Hstep.
  destruct (process_file config file_path s) as [s1 [[]|e]]; cbn [fst] in *; [exact Hstep|].
  etransitivity; [exact Hstep|apply quiet_held, logged_quiet].
Qed.

Lemma generate_report_held_other (path : string) :
  path ≠ output_report_file config →
  respects (held path) (generate_report config).
Proof.
  intros Hne s. unfold generate_report, bind, get_state, print, write_text, modify, ret.
  cbv beta iota. destruct (output_report config); cbn [fst].
  - split; [cbn; apply lookup_insert_ne; congruence|]. eexists. cbn.
    rewrite <- !app_assoc. reflexivity.
  - split; [reflexivity|]. eexists. reflexivity.
Qed.

(** X23. A run leaves every other file alone. A path that is neither one of the
    HTML files found, nor the backup of one, nor one of the four asset
    paths, nor the report file holds after [run] what it held before; and
    no file of the file system is removed by a run. *)
Theorem run_touches_only_its_files (root_dir : Path) (s : State) (html_files : list Path)
    (path : string) :
  find_html_files config root_dir s = (s, Ok html_files) →
  (∀ file_path,
     file_path ∈ html_files →
     path ≠ path_str file_path ∧
     path ≠ path_str file_path +:+ output_backup_suffix config) →
  path ∉ asset_paths config →
  path ≠ output_report_file config →
  files (fst (run config root_dir s)) !! path = files s !! path ∧
  ∀ other, is_Some (files s !! other) →
           is_Some (files (fst (run config root_dir s)) !! other).
Proof.
  intros Hfound Hfiles Hout Hreport. split; [|exact (run_lasting root_dir s)].
  unfold find_html_files, bind, get_state, ret in Hfound. cbv beta iota in Hfound.
  injection Hfound as Hfound. subst html_files.
  unfold run, find_html_files, bind, get_state, ret. cbv beta iota.
  rewrite log_spec. cbv beta iota. rewrite log_spec. cbv beta iota.
  match goal with
  | |- context [process_all config ?l ?s0] =>
      pose proof (process_all_ok config l s0) as Hok;
      assert (Hloop : held path s0 (fst (process_all config l s0)));
      [apply process_all_held_other;
         [apply Forall_forall; intros file_path Hin; apply Hfiles, Hin|exact Hout]|];
      assert (Hstart : held path s s0)
        by (etransitivity; apply quiet_held, logged_quiet);
      destruct (process_all config l s0) as [s_end r]
  end.
  cbn in Hok. subst r. cbn [fst] in Hloop.
  pose proof (generate_report_held_other path Hreport s_end) as Hend.
  destruct (transitivity Hstart (transitivity Hloop Hend)) as [Hf _]. exact Hf.
Qed.

End Touched.

(** ** The properties on the examples *)

Example css_example :
  Css.sub "a{}@supports (z-index:calc(infinity)){#__framer-badge-container{x:1}}#__framer-badge-container{y:2}b{}"
  = "a{}b{}".
Proof. reflexivity. Qed.

Example find_title : Bs4.find_name "title" Demo.page = Some [0; 0; 0].
Proof. reflexivity. Qed.

Example find_icons : Bs4.find_all "link" "rel" "icon" Demo.page = [[0; 0; 1]].
Proof. reflexivity. Qed.

Example end_to_end :
  let r := @process_file_passes Demo.unix Cases.online Demo.config Demo.index_html
             (init Demo.fs) in
  snd (Demo.value ([], 0) (snd r)) = 6 ∧
  Bs4.find_all "link" "rel" "icon" (fst (Demo.value ([], 0) (snd r))) = [[0; 0; 1]] ∧
  attr_of (fst (Demo.value ([], 0) (snd r))) [0; 0; 1] "href"
  = Some (AStr "../assets/favicon-dark.png").
Proof. vm_compute. repeat split. Qed.

Example find_twitter : Bs4.find "meta" "name" "twitter:image" Demo.page = Some [0; 0; 3].
Proof. reflexivity. Qed.



Lemma rewritten_iff_changed_witness :
  snd (@process_file Demo.unix Cases.flaky Demo.config Demo.index_html (init Demo.fs)) = Ok tt ∧
  snd (@process_file Demo.unix Cases.flaky Demo.config Demo.plain_html (init Demo.fs)) = Ok tt.
Proof.
  split.
  - pose (r := @process_file_passes Demo.unix Cases.flaky Demo.config Demo.index_html
                 (init Demo.fs)).
    destruct (@rewritten_iff_changed Demo.unix Cases.flaky Demo.config Demo.index_html
                (init Demo.fs) (fst r) (fst (Demo.value ([], 0) (snd r)))
                (snd (Demo.value ([], 0) (snd r)))) as (_ & Hok & _);
      [vm_compute; reflexivity|exact Hok].
  - pose (r := @process_file_passes Demo.unix Cases.flaky Demo.config Demo.plain_html
                 (init Demo.fs)).
    destruct (@rewritten_iff_changed Demo.unix Cases.flaky Demo.config Demo.plain_html
                (init Demo.fs) (fst r) (fst (Demo.value ([], 0) (snd r)))
                (snd (Demo.value ([], 0) (snd r)))) as (_ & Hok & _);
      [vm_compute; reflexivity|exact Hok].
Defined.

Lemma failed_fetch_keeps_reference_witness :
  let r := @sanitize_assets Demo.unix Cases.flaky Demo.config Demo.page Demo.index_html
             (init Demo.fs) in
  (∃ l, events (fst r) = events (init Demo.fs) ++ l ∧
        snd (Demo.value ([], 0) (snd r)) = count_ok l) ∧
  snd (@localize_image Demo.unix Cases.flaky Demo.config Demo.index_html (Some [0; 1])
         (Demo.previews, 0) (Cases.resolved_once Cases.flaky))
  = Ok (Demo.previews, 0).
Proof.
  intros r.
  destruct (@failed_fetch_keeps_reference Demo.unix Cases.flaky Demo.config)
    as (_ & Himage & Hpass & _).
  split.
  - destruct (Hpass Demo.page Demo.index_html (init Demo.fs) (fst r)
                (fst (Demo.value ([], 0) (snd r))) (snd (Demo.value ([], 0) (snd r))))
      as (l & Hev & Hcount & _); [vm_compute; reflexivity|].
    exists l. split; [exact Hev|exact Hcount].
  - apply (Himage Demo.index_html (Demo.previews, 0) [0; 1]
             (Cases.resolved_once Cases.flaky) Cases.preview_url);
      [reflexivity|reflexivity|].
    intros data. vm_compute. discriminate.
Defined.



Lemma page_classification_first_match_witness :
  @_get_page_title Demo.unix (Demo.env Demo.parser Demo.online []) Demo.config
     Demo.contact_html = Ok "Contact Ada" ∧
  @_get_page_description Demo.unix (Demo.env Demo.parser Demo.online []) Demo.config
     Demo.contact_html = Ok "Get in touch".
Proof.
  destruct (@page_classification_first_match Demo.unix
              (Demo.env Demo.parser Demo.online []) Demo.config Demo.contact_html)
    as [Hcontact _].
  apply Hcontact. reflexivity.
Defined.


Lemma downloaded_assets_only_on_success_witness :
  snd (@download_asset Demo.unix (Demo.env Demo.parser Demo.offline []) Demo.config
         "https://vendor.example/p.png" (MkPath None ["assets"; "og-preview.png"])
         (init Demo.fs)) = Ok false ∧
  downloaded_assets
    (fst (@download_asset Demo.unix (Demo.env Demo.parser Demo.offline []) Demo.config
            "https://vendor.example/p.png" (MkPath None ["assets"; "og-preview.png"])
            (init Demo.fs))) = ∅.
Proof.
  destruct (@downloaded_assets_only_on_success Demo.unix
              (Demo.env Demo.parser Demo.offline []) Demo.config
              "https://vendor.example/p.png" (MkPath None ["assets"; "og-preview.png"])
              (init Demo.fs)) as [Hfail _].
  apply (Hfail "timed out"). reflexivity.
Defined.

Lemma favicon_light_before_dark_witness :
  favicon_filename "https://vendor.example/light-dark.png" "" = "favicon-light.png" ∧
  favicon_filename "https://vendor.example/favicon-dark.png" "" = "favicon-dark.png" ∧
  favicon_filename "https://vendor.example/favicon.png" "" = "favicon.png".
Proof.
  split; [|split].
  - destruct (@favicon_light_before_dark Demo.unix Cases.online Demo.config
                "https://vendor.example/light-dark.png" "") as (Hlight & _).
    apply Hlight. reflexivity.
  - destruct (@favicon_light_before_dark Demo.unix Cases.online Demo.config
                "https://vendor.example/favicon-dark.png" "") as (_ & Hdark & _).
    apply Hdark; reflexivity.
  - destruct (@favicon_light_before_dark Demo.unix Cases.online Demo.config
                "https://vendor.example/favicon.png" "") as (_ & _ & Hplain & _).
    apply Hplain; reflexivity.
Defined.

(** ** The further properties on the examples *)

Lemma relative_path_leads_back_witness :
  ∃ rel_list,
    @get_relative_path (posix ["home"; "ada"])
      (MkPath None ["site"; "work"; "project"; "index.html"])
      (MkPath None ["assets"; "og-preview.png"])
      = match rel_list with [] => "." | _ => PyStr.join "/" rel_list end ∧
    normparts [] (["home"; "ada"; "site"; "work"; "project"] ++ rel_list)
      = ["home"; "ada"; "assets"; "og-preview.png"].
Proof.
  apply (relative_path_leads_back ["home"; "ada"]
           (MkPath None ["site"; "work"; "project"; "index.html"])
           (MkPath None ["assets"; "og-preview.png"])); left; reflexivity.
Defined.

Lemma vendor_domain_matches_as_substring_witness :
  @should_download_asset (Demo.env Demo.parser Demo.online []) Demo.config
    (AStr "https://cdn.vendor.example.evil.org/logo.png") = Ok true.
Proof.
  destruct (@vendor_domain_matches_as_substring (Demo.env Demo.parser Demo.online [])
              Demo.config "https://cdn.vendor.example.evil.org/logo.png"
              "cdn.vendor.example.evil.org" eq_refl eq_refl) as (eligible & -> & Hiff).
  f_equal. apply Hiff. exists "vendor.example", "cdn.", ".evil.org".
  split; [apply list_elem_of_singleton|]; reflexivity.
Defined.

Lemma no_case_study_on_windows_witness :
  @_get_page_title (windows "C:" ["site"]) (Demo.env Demo.parser Demo.online []) Demo.config
    (MkPath None ["work"; "my-cool-project"; "index.html"]) = Ok "Ada - Designer".
Proof.
  destruct (@no_case_study_on_windows (Demo.env Demo.parser Demo.online []) Demo.config
              "C:" ["site"] (MkPath None ["work"; "my-cool-project"; "index.html"]))
    as [_ Hdefault].
  - intros a Ha. discriminate.
  - repeat constructor.
  - apply Hdefault. reflexivity.
Defined.

Lemma no_retrieval_when_switched_off_witness :
  @sanitize_assets Demo.unix Cases.online Settings.offline Demo.page Demo.index_html
    (init Demo.fs)
  = (init Demo.fs, Ok (Demo.page, 0)).
Proof. apply no_retrieval_when_switched_off. reflexivity. Defined.

Lemma backup_holds_the_original_witness :
  let s' := fst (@process_file Demo.unix Cases.online Demo.config Demo.index_html
                   (init Demo.fs)) in
  EvCopy "site/index.html" "site/index.html.bak" ∈ events s' ∧
  files s' !! "site/index.html.bak" = Some "page".
Proof.
  apply (@backup_holds_the_original Demo.unix Cases.online Demo.config Demo.index_html
           (init Demo.fs) "page"); [reflexivity|discriminate|reflexivity|].
  unfold asset_paths. cbn [map]. rewrite !elem_of_cons, elem_of_nil.
  intros [H|[H|[H|[H|[]]]]]; vm_compute in H; discriminate.
Defined.

Lemma missing_file_raises_untouched_witness :
  snd (@process_file Demo.unix Cases.online Demo.config
         (MkPath None ["site"; "gone.html"]) (init Demo.fs))
  = Raise "[Errno 2] No such file or directory: 'site/gone.html'".
Proof.
  apply (@missing_file_raises_untouched Demo.unix Cases.online Demo.config
           (MkPath None ["site"; "gone.html"]) (init Demo.fs)).
  reflexivity.
Defined.

Lemma empty_backup_suffix_blocks_the_run_witness :
  quiet (init Demo.fs)
    (fst (@process_all Demo.unix Cases.online Settings.bare_backup
            [Demo.index_html; Demo.plain_html] (init Demo.fs))).
Proof.
  apply (@empty_backup_suffix_blocks_the_run Demo.unix Cases.online Settings.bare_backup
           [Demo.index_html; Demo.plain_html] (init Demo.fs)); reflexivity.
Defined.


Lemma single_replacement_moves_values_witness :
  ∃ soup',
    snd (sanitize_attributes Demo.config Demo.page (init Demo.fs))
    = Ok (soup', 1) ∧
    attr_of soup' [0; 1; 0] "data-name" = Some (AStr "hero").
Proof.
  destruct (single_replacement_moves_values Demo.config
              "data-framer-name" "data-name" Demo.page (init Demo.fs) eq_refl)
    as (soup' & Hrun & Hmoved & _).
  exists soup'. split; [exact Hrun|].
  rewrite (Hmoved ltac:(discriminate) [0; 1; 0]); [reflexivity|].
  vm_compute. left.
Defined.

Lemma attribute_pass_is_idempotent_witness :
  let r := sanitize_attributes Demo.config Demo.page (init Demo.fs) in
  sanitize_attributes Demo.config (fst (Demo.value ([], 0) (snd r))) (init Demo.fs)
  = (init Demo.fs, Ok (fst (Demo.value ([], 0) (snd r)), 0)).
Proof.
  intros r.
  apply (attribute_pass_is_idempotent Demo.config Demo.page (fst (Demo.value ([], 0) (snd r)))
           (snd (Demo.value ([], 0) (snd r))) (init Demo.fs) (init Demo.fs)).
  - unfold unique_keys. vm_compute. repeat constructor; set_solver.
  - intros before from_attr to_attr after Hrs.
    destruct before as [|b [|b' before]]; [|destruct after; discriminate|discriminate].
    cbn in Hrs. simplify_eq. constructor.
  - vm_compute. reflexivity.
Defined.


Lemma css_without_at_sign_is_kept_witness :
  sanitize_css Demo.config "body{margin:0}" (init Demo.fs)
  = (init Demo.fs, Ok ("body{margin:0}", 0)).
Proof. apply css_without_at_sign_is_kept. reflexivity. Defined.

Lemma metadata_tags_hold_new_values_witness :
  let r := @sanitize_metadata Demo.unix Cases.online Demo.config Demo.page Demo.index_html
             (init Demo.fs) in
  Dom.lookup_at [0; 0; 0] (fst (Demo.value ([], 0) (snd r))) ≫= Dom.string_of
  = Some "Ada - Designer".
Proof.
  intros r.
  destruct (@metadata_tags_hold_new_values Demo.unix Cases.online Demo.config Demo.page
              Demo.index_html (init Demo.fs) (fst r) (fst (Demo.value ([], 0) (snd r)))
              (snd (Demo.value ([], 0) (snd r))) "Ada - Designer" "Portfolio of Ada")
    as [Htitle _]; [reflexivity|reflexivity|vm_compute; reflexivity|].
  apply Htitle. vm_compute. reflexivity.
Defined.

Lemma path_below_needs_no_dotdot_witness :
  @get_relative_path (windows "C:" ["site"])
    (MkPath (Some "C:") ["site"; "index.html"])
    (MkPath (Some "C:") ["site"; "assets"; "favicon.png"])
  = "assets\favicon.png".
Proof.
  apply (@path_below_needs_no_dotdot (windows "C:" ["site"])
           (MkPath (Some "C:") ["site"; "index.html"]) ["assets"; "favicon.png"]).
  - assert (Hkept : ∀ c, c ≠ "" → c ≠ "." → c ≠ ".." → kept c).
    { intros c H1 H2 H3. split; [intros [|]; contradiction|exact H3]. }
    constructor; [apply Hkept; discriminate|].
    constructor; [apply Hkept; discriminate|constructor].
  - discriminate.
Defined.

Lemma run_touches_only_its_files_witness :
  files (fst (@run Demo.unix (Demo.env Demo.parser Demo.online
                                [Demo.index_html; Demo.plain_html])
                Demo.config (MkPath None ["site"]) (init Demo.fs)))
    !! "site/broken.html"
  = Some "broken".
Proof.
  destruct (@run_touches_only_its_files Demo.unix
              (Demo.env Demo.parser Demo.online [Demo.index_html; Demo.plain_html])
              Demo.config (MkPath None ["site"]) (init Demo.fs)
              [Demo.index_html; Demo.plain_html] "site/broken.html")
    as [Hfile _].
  - vm_compute. reflexivity.
  - intros file_path Hin.
    apply elem_of_cons in Hin as [->|Hin]; [split; discriminate|].
    apply elem_of_cons in Hin as [->|Hin]; [split; discriminate|].
    apply elem_of_nil in Hin. contradiction.
  - unfold asset_paths. cbn [map]. rewrite !elem_of_cons, elem_of_nil.
    intros [H|[H|[H|[H|[]]]]]; vm_compute in H; discriminate.
  - discriminate.
  - exact Hfile.
Defined.
